(** * Verdo ingester: extraction orchestration layer

    A shallow embedding of the Python sources under
    [verdo-backend/app/services/ingester] together with the properties
    that the design document states about them.

    Models:
    - [NmsProcessor]      : core/nms_processor.py
    - [PyStr]             : the string operations the handlers use
    - [TableHandler]      : handlers/table_handler.py (normalisation)
    - [Json], [Doc]       : decoded JSON values; shapes, pages, AI client
    - [FormulaHandler]    : handlers/formula_handler.py
    - [ContentExtractor]  : extractor/content_extractor.py
    - [PdfAnalyzer]       : analyzers/pdf_analyzer.py (page numbering)
    - [JsonText]          : the text written by json.dump / read by json.load
    - [ImageCache]        : handlers/image_handler.py (class ImageCache)

    Properties: [NmsFacts], [TableFacts], [FormulaFacts], [ExtractorFacts],
    [CacheFacts], [AnalyzerFacts].

    Python floats are modelled by exact rationals ([Q]); two floats that
    compare equal in Python correspond to [Qeq]-equal rationals.  A Python
    [str] is the list of its code points.  Python exceptions are modelled
    by the [Raise] constructor of [result]. *)

From Stdlib Require Import QArith Lqa Lia Sorted.
From stdpp Require Import gmap strings list.
From Equations Require Import Equations.

Set Default Proof Using "Type".
Set Warnings "-register-all".

(** ** Python exceptions *)

Inductive exn : Type :=
  | ZeroDivisionError
  | IndexError
  | AttributeError
  | TypeError
  | RuntimeError (msg : string).

Inductive result (A : Type) : Type :=
  | Ok (a : A)
  | Raise (e : exn).
Arguments Ok {A} a.
Arguments Raise {A} e.

Definition rbind {A B : Type} (r : result A) (k : A -> result B) : result B :=
  match r with
  | Ok a => k a
  | Raise e => Raise e
  end.

#[global] Instance result_ret : MRet result := @Ok.
#[global] Instance result_bind : MBind result := fun A B k r => rbind r k.
#[global] Instance result_fmap : FMap result :=
  fun A B f r => match r with Ok a => Ok (f a) | Raise e => Raise e end.

Definition inspect {A : Type} (a : A) : {b : A | a = b} := exist _ a eq_refl.

(** ** core/nms_processor.py *)

Module NmsProcessor.

(** A bounding box is the 4-element list [[xMin, yMin, xMax, yMax]]. *)
Record Box : Type := mkBox { xMin : Q; yMin : Q; xMax : Q; yMax : Q }.

(** A detection is the dict [{'class_name', 'bbox', 'conf'}]. *)
Record Detection : Type := mkDet { class_name : string; bbox : Box; conf : Q }.

Definition Qltb (x y : Q) : bool := negb (Qle_bool y x).

(** Python's two-argument [max] and [min] return the first argument
    unless the second is strictly larger (resp. smaller). *)
Definition pymax (a b : Q) : Q := if Qltb a b then b else a.
Definition pymin (a b : Q) : Q := if Qltb b a then b else a.

(** Python's [/] raises [ZeroDivisionError] on a zero divisor. *)
Definition truediv (a b : Q) : result Q :=
  if Qeq_bool b 0 then Raise ZeroDivisionError else Ok (a / b)%Q.

Definition computeIou (b1 b2 : Box) : result Q :=
  let interXMin := pymax (xMin b1) (xMin b2) in
  let interYMin := pymax (yMin b1) (yMin b2) in
  let interXMax := pymin (xMax b1) (xMax b2) in
  let interYMax := pymin (yMax b1) (yMax b2) in
  if Qltb interXMax interXMin || Qltb interYMax interYMin then Ok 0%Q
  else
    let interArea := ((interXMax - interXMin) * (interYMax - interYMin))%Q in
    let box1Area := ((xMax b1 - xMin b1) * (yMax b1 - yMin b1))%Q in
    let box2Area := ((xMax b2 - xMin b2) * (yMax b2 - yMin b2))%Q in
    truediv interArea (box1Area + box2Area - interArea)%Q.

(** [detections.sort(key=lambda x: x['conf'], reverse=True)]: a stable
    sort by descending confidence. *)
Fixpoint insert_desc (x : Detection) (l : list Detection) : list Detection :=
  match l with
  | [] => [x]
  | y :: l' => if Qltb (conf x) (conf y) then y :: insert_desc x l' else x :: l
  end.

Definition sort_desc (l : list Detection) : list Detection :=
  foldr insert_desc [] l.

(** The condition of the list comprehension; [or] short-circuits, so
    [computeIou] is only called for detections of the class of [best]. *)
Definition survives (iouThreshold : Q) (best d : Detection) : result bool :=
  if negb (String.eqb (class_name d) (class_name best)) then Ok true
  else iou ← computeIou (bbox d) (bbox best); Ok (Qle_bool iou iouThreshold).

(** [[d for d in detections if ...]] *)
Fixpoint survivors (iouThreshold : Q) (best : Detection) (ds : list Detection)
  : result (list Detection) :=
  match ds with
  | [] => Ok []
  | d :: ds' =>
      k ← survives iouThreshold best d;
      rest ← survivors iouThreshold best ds';
      Ok (if k : bool then d :: rest else rest)
  end.

Lemma survivors_length thr best ds out :
  survivors thr best ds = Ok out -> length out <= length ds.
Proof.
  revert out. induction ds as [|d ds IH]; intros out; simpl.
  - intros [= <-]. simpl. lia.
  - destruct (survives thr best d) as [k|e]; simpl; [|discriminate].
    destruct (survivors thr best ds) as [rest|e]; simpl; [|discriminate].
    intros [= <-]. specialize (IH rest eq_refl).
    destruct k; simpl; lia.
Qed.

(** The [while detections:] loop, with [keep] as the accumulator. *)
Equations? nms_loop (iouThreshold : Q) (keep detections : list Detection)
  : result (list Detection) by wf (length detections) lt :=
nms_loop thr keep [] := Ok keep;
nms_loop thr keep (best :: rest) with inspect (survivors thr best rest) := {
  | exist _ (Ok rest') _ := nms_loop thr (keep ++ [best]) rest';
  | exist _ (Raise e) _ := Raise e }.
Proof.
  apply survivors_length in e. simpl. lia.
Qed.

Definition removeDuplicates (detections : list Detection) (iouThreshold : Q)
  : result (list Detection) :=
  match detections with
  | [] => Ok []
  | _ => nms_loop iouThreshold [] (sort_desc detections)
  end.

(** The default argument [iouThreshold=0.7]. *)
Definition defaultIouThreshold : Q := 0.7%Q.

End NmsProcessor.


(** ** Python strings *)

Module PyStr.

(** A Python [str] is a sequence of Unicode code points: [list N]. *)

(** An ASCII literal as a [str]. *)
Definition lit (s : string) : list N :=
  map Ascii.N_of_ascii (String.list_ascii_of_string s).

(** The code points for which [str.isspace] holds; these are the ones
    removed by [str.strip()]. *)
Definition is_space (c : N) : bool :=
  ((9 <=? c) && (c <=? 13) || (28 <=? c) && (c <=? 32)
   || (c =? 133) || (c =? 160) || (c =? 5760)
   || (8192 <=? c) && (c <=? 8202)
   || (c =? 8232) || (c =? 8233) || (c =? 8239) || (c =? 8287) || (c =? 12288))%N.

Fixpoint lstrip (s : list N) : list N :=
  match s with
  | [] => []
  | c :: s' => if is_space c then lstrip s' else s
  end.

Definition rstrip (s : list N) : list N := reverse (lstrip (reverse s)).

Definition strip (s : list N) : list N := rstrip (lstrip s).

(** [sep.join(parts)] *)
Fixpoint join (sep : list N) (parts : list (list N)) : list N :=
  match parts with
  | [] => []
  | [p] => p
  | p :: ps => p ++ sep ++ join sep ps
  end.

(** [needle in s] for strings *)
Fixpoint is_prefix (p s : list N) : bool :=
  match p, s with
  | [], _ => true
  | _ :: _, [] => false
  | a :: p', b :: s' => (a =? b)%N && is_prefix p' s'
  end.

Fixpoint contains (needle s : list N) : bool :=
  is_prefix needle s ||
  match s with
  | [] => false
  | _ :: s' => contains needle s'
  end.

(** [s.replace(old, new)] for a one-character [old]. *)
Definition replace_char (old : N) (new : list N) (s : list N) : list N :=
  flat_map (fun c => if (c =? old)%N then new else [c]) s.

End PyStr.

(** ** handlers/table_handler.py *)

Module TableHandler.
Import PyStr.

(** A cell of the raw data is a string or something else ([None], a
    number, ...); a row is a list of cells or something else. *)
Inductive Cell : Type :=
  | CellStr (s : list N)
  | CellOther.

Inductive Row : Type :=
  | RowList (cells : list Cell)
  | RowOther.

(** [cell.strip() if isinstance(cell, str) else ''] *)
Definition clean_cell (c : Cell) : list N :=
  match c with
  | CellStr s => strip s
  | CellOther => []
  end.

(** The body of the first [for row in data] loop: builds [vals]. *)
Definition clean_row (r : Row) : list (list N) :=
  match r with
  | RowList cells => map clean_cell cells
  | RowOther => []
  end.

(** One iteration of the first loop on the state [(maxCols, cleaned)]. *)
Definition scan_row (st : nat * list (list (list N))) (r : Row)
  : nat * list (list (list N)) :=
  let '(maxCols, cleaned) := st in
  let vals := clean_row r in
  let cleaned := cleaned ++ [vals] in
  if maxCols <? length vals then (length vals, cleaned) else (maxCols, cleaned).

(** [row + [''] * (maxCols - len(row))] *)
Definition pad_row (maxCols : nat) (row : list (list N)) : list (list N) :=
  row ++ replicate (maxCols - length row) [].

Definition _normalizeData (data : list Row) : list (list (list N)) :=
  match data with
  | [] => []
  | _ =>
      let '(maxCols, cleaned) := foldl scan_row (0, []) data in
      if maxCols =? 0 then cleaned
      else map (pad_row maxCols) cleaned
  end.

Definition _toMarkdown (data : list (list (list N))) : list N :=
  match data with
  | [] => []
  | headerRow :: rest =>
      let line (cells : list (list N)) :=
        lit "| " ++ join (lit " | ") cells ++ lit " |" in
      let lines :=
        [line headerRow; line (replicate (length headerRow) (lit "---"))] ++
        map (fun row => line (pad_row (length headerRow) row)) rest in
      join [10%N] lines
  end.

(** The dict built by [_buildResult]. *)
Record TableResult : Type := mkTableResult {
  type : string;
  rows : nat;
  columns : nat;
  data : list (list (list N));
  markdown : list N;
  source : string
}.

(** [bbox] is accepted and ignored, as in the source. *)
Definition _buildResult {B : Type} (data : list Row) (bbox : B) (source : string)
  : TableResult :=
  let normalized := _normalizeData data in
  {| type := "table";
     rows := length normalized;
     columns := max_list (length <$> normalized);
     data := normalized;
     markdown := _toMarkdown normalized;
     source := source |}.

End TableHandler.

(** ** Values decoded from JSON *)

Module Json.

(** What [json.loads] returns; [JNull] is Python's [None]. *)
Inductive value : Type :=
  | JNull
  | JBool (b : bool)
  | JNum (q : Q)
  | JStr (s : list N)
  | JArr (items : list value)
  | JObj (fields : list (list N * value)).

(** Python truthiness. *)
Definition truthy (v : value) : bool :=
  match v with
  | JNull => false
  | JBool b => b
  | JNum q => negb (Qeq_bool q 0)
  | JStr s => negb (bool_decide (s = []))
  | JArr items => match items with [] => false | _ => true end
  | JObj fields => match fields with [] => false | _ => true end
  end.

(** [d.get(key, default)] on the dict decoded from an object; a repeated
    key keeps its last value. *)
Definition obj_get (key : list N) (default : value) (fields : list (list N * value))
  : value :=
  foldl (fun acc kv => if bool_decide (kv.1 = key) then kv.2 else acc) default fields.

(** [v.get(key, default)]: only a dict has the method. *)
Definition get (key : list N) (default : value) (v : value) : result value :=
  match v with
  | JObj fields => Ok (obj_get key default fields)
  | _ => Raise AttributeError
  end.

(** [v[:80]] is defined on strings and lists only. *)
Definition sliceable (v : value) : bool :=
  match v with
  | JStr _ | JArr _ => true
  | _ => false
  end.

End Json.

(** ** The collaborators: documents and the AI client *)

Module Doc.

(** A python-pptx shape, as far as the handlers look at it. *)
Record Shape : Type := mkShape {
  top : Z;
  left : Z;
  (** [shape.element.xml]; [None] when the shape has no [element] or
      reading it raises *)
  element_xml : option (list N);
  has_text_frame : bool;
  (** [getattr(shape, 'text', '')]; [None] stands for a missing attribute
      or a [None] value *)
  text : option (list N);
  (** [shape.image.blob], or the exception raised on the way *)
  image_blob : result (list N)
}.

(** A PyMuPDF page: its size and the PNG rendering of a clip rectangle
    ([page.get_pixmap(matrix=..., clip=rect).tobytes("png")]). *)
Record Page : Type := mkPage {
  rect_width : Q;
  rect_height : Q;
  render_png : NmsProcessor.Box -> result (list N)
}.

(** [fitz.Rect(xMin * scale, yMin * scale, xMax * scale, yMax * scale)] *)
Definition scaled_rect (bbox : NmsProcessor.Box) (scale : Q) : NmsProcessor.Box :=
  NmsProcessor.mkBox
    (NmsProcessor.xMin bbox * scale) (NmsProcessor.yMin bbox * scale)
    (NmsProcessor.xMax bbox * scale) (NmsProcessor.yMax bbox * scale).

(** The requests sent through [llm.chat].  Each constructor stands for one
    prompt of the [prompts] module together with its payload; formatting
    the prompt is part of the request, so a failure to format shows as a
    [Raise] of [chat]. *)
Inductive ChatRequest : Type :=
  | ExtractEquationText (text : list N)
  | DescribeFormula (imageBytes : list N).

(** The reply of [llm.chat]: the text and what [json.loads] makes of it
    ([None] when [json.loads] raises). *)
Record ChatReply : Type := mkReply {
  reply_text : list N;
  reply_json : option Json.value
}.

Record LLM : Type := mkLLM {
  chat : ChatRequest -> result ChatReply
}.

End Doc.

(** ** handlers/formula_handler.py *)

Module FormulaHandler.
Import PyStr Json Doc.

Record Handler : Type := mkHandler {
  llm : option LLM;
  verbose : bool
}.

(** The ['error'] entry of a result: [None], a fixed message, or the
    [str(e)] of a caught exception. *)
Inductive ErrorField : Type :=
  | NoError
  | ErrorMsg (msg : string)
  | ErrorOf (e : exn).

(** The dict returned by [handlePptx] and [handlePdf]; a key that is
    absent from the dict reads as [None]. *)
Record FormulaResult : Type := mkResult {
  type : option string;
  latex : value;
  mathml : option (list N);
  omml : option (list N);
  source : string;
  confidence : Q;
  error : ErrorField
}.

(** The dict returned by [_extractFormula]. *)
Record OcrResult : Type := mkOcr {
  ocr_type : option string;
  ocr_latex : value;
  ocr_raw_text : value;
  ocr_variables : value;
  ocr_operators : value;
  ocr_confidence : Q;
  ocr_error : option string
}.

(** The dict returned by [_extractFormulaFromText]. *)
Record TextResult : Type := mkText {
  text_latex : value;
  text_confidence : Q
}.

(** Truthiness of an [Optional[str]]. *)
Definition nonempty (o : option (list N)) : bool :=
  match o with
  | Some (_ :: _) => true
  | _ => false
  end.

Definition of_opt (o : option (list N)) : value :=
  match o with
  | Some s => JStr s
  | None => JNull
  end.

Definition _extractOmml (shape : Shape) : option (list N) :=
  match element_xml shape with
  | Some xml => if contains (lit "m:oMath") xml then Some xml else None
  | None => None
  end.

Definition _extractOmmlFromSlide (filePath : list N) (slideNum : Z) : option (list N) :=
  None.

Definition _ommlToLatex (omml : list N) : option (list N) * option (list N) :=
  (None, None).

Definition _normalizeTextEquation (text : list N) : list N := strip text.

Definition strong : list N :=
  [61; 8804; 8805; 8776; 8800; 94; 8730; 8721; 8747; 47]%N.

Definition repl : list (N * list N) :=
  [(8722, lit "-"); (8211, lit "-"); (215, lit "*"); (183, lit "\cdot ");
   (247, lit "/"); (8804, lit "\leq "); (8805, lit "\geq "); (8800, lit "\neq ");
   (8776, lit "\approx "); (8594, lit "\to "); (8592, lit "\leftarrow ");
   (8734, lit "\infty ")]%N.

Definition simpleTextToLatex (text : list N) : option (list N) :=
  match text with
  | [] => None
  | _ =>
      if negb (existsb (fun c => contains [c] text) strong) then None
      else Some (strip (foldl (fun s kv => replace_char kv.1 kv.2 s) text repl))
  end.

Definition ocr_default : OcrResult :=
  mkOcr None JNull JNull JNull JNull 0 None.

(** The body of the outer [try] of [_extractFormula]; a [Raise] is what
    the outer [except Exception] catches. *)
Definition _extractFormula_try (h : Handler) (imageBytes : list N) : result OcrResult :=
  match llm h with
  | None => Raise AttributeError
  | Some l =>
      response ← chat l (DescribeFormula imageBytes);
      match reply_json response with
      | None => Ok (mkOcr None JNull JNull JNull JNull 0 (Some "json_parse_error"))
      | Some parsed =>
          latex ← get (lit "latex") JNull parsed;
          confidence ←
            (if truthy latex then
               match latex with
               | JStr s => Ok (if nonempty (Some (strip s)) then 0.95%Q else 0%Q)
               | _ => Raise AttributeError
               end
             else Ok 0%Q);
          raw_text ← get (lit "raw_text") JNull parsed;
          variables ← get (lit "variables") (JArr []) parsed;
          operators ← get (lit "operators") (JArr []) parsed;
          Ok (mkOcr (Some "formula") latex raw_text variables operators confidence None)
      end
  end.

Definition _extractFormula (h : Handler) (imageBytes : list N) (source : string)
  : OcrResult :=
  match _extractFormula_try h imageBytes with
  | Ok res => res
  | Raise _ => ocr_default
  end.

(** The heuristic fallback shared by both exits of
    [_extractFormulaFromText]. *)
Definition text_heuristic (text : list N) : TextResult :=
  let latexH := simpleTextToLatex text in
  mkText (of_opt latexH) (if nonempty latexH then 0.6%Q else 0%Q).

(** The [latex] variable after the inner [try/except/else]; a [Raise] is
    what the outer [except Exception] catches. *)
Definition ask_latex (h : Handler) (text : list N) : result value :=
  match llm h with
  | None => Raise AttributeError
  | Some l =>
      response ← chat l (ExtractEquationText text);
      match reply_json response with
      | None => Ok JNull
      | Some parsed => get (lit "latex") JNull parsed
      end
  end.

Definition _extractFormulaFromText (h : Handler) (text : list N) : TextResult :=
  match ask_latex h text with
  | Ok latex => if truthy latex then mkText latex 0.9%Q else text_heuristic text
  | Raise _ => text_heuristic text
  end.

(** [(getattr(shape, 'text', '') or '').strip()], then
    [_normalizeTextEquation]. *)
Definition rawText (shape : Shape) : list N :=
  _normalizeTextEquation (strip (default [] (text shape))).

(** Layer 1 of [handlePptx]. *)
Definition layer_omml (shape : Shape) : option FormulaResult :=
  let omml := _extractOmml shape in
  match omml with
  | Some ((_ :: _) as o) =>
      let '(latex, mathml) := _ommlToLatex o in
      if nonempty latex || nonempty mathml then
        Some (mkResult (Some "formula") (of_opt latex) mathml omml "omml"
                (if nonempty latex then 1 else 0.8)%Q NoError)
      else None
  | _ => None
  end.

(** Layer 2a of [handlePptx]. *)
Definition layer_omml_slide (shape : Shape) (slideNum : Z) (filePath : list N)
  : option FormulaResult :=
  if negb (nonempty (_extractOmml shape)) && nonempty (Some filePath)
     && negb (slideNum =? 0)%Z then
    let ommlSlide := _extractOmmlFromSlide filePath slideNum in
    match ommlSlide with
    | Some ((_ :: _) as o) =>
        let '(latex, mathml) := _ommlToLatex o in
        if nonempty latex || nonempty mathml then
          Some (mkResult (Some "formula") (of_opt latex) mathml ommlSlide "omml_slide"
                  (if nonempty latex then 1 else 0.8)%Q NoError)
        else None
    | _ => None
    end
  else None.

(** Layer 2b of [handlePptx]; [None] also covers the exception caught by
    its [except Exception] (the preview [latex[:80]] printed in verbose
    mode fails on a value that cannot be sliced). *)
Definition layer_text (h : Handler) (shape : Shape) : option FormulaResult :=
  if has_text_frame shape && bool_decide (is_Some (llm h)) then
    match rawText shape with
    | [] => None
    | (_ :: _) as txt =>
        let textRes := _extractFormulaFromText h txt in
        if truthy (text_latex textRes) then
          if verbose h && negb (sliceable (text_latex textRes)) then None
          else
            Some (mkResult (Some "formula") (text_latex textRes) None None
                    "text_llm" (text_confidence textRes) NoError)
        else None
    end
  else None.

(** The record built from the OCR result by [handlePptx] and [handlePdf]. *)
Definition ocr_record (res : OcrResult) : FormulaResult :=
  mkResult (Some "formula") (ocr_latex res) None None "ocr" (ocr_confidence res)
    (if truthy (ocr_latex res) then NoError else ErrorMsg "no_latex").

(** Layer 2c of [handlePptx]. *)
Definition layer_ocr (h : Handler) (shape : Shape) : option FormulaResult :=
  match llm h with
  | Some _ =>
      match image_blob shape with
      | Ok imageBytes => Some (ocr_record (_extractFormula h imageBytes "ocr_pptx"))
      | Raise _ => None
      end
  | None => None
  end.

Definition failed_record : FormulaResult :=
  mkResult None JNull None None "failed" 0 (ErrorMsg "No extraction method succeeded").

Definition handlePptx (h : Handler) (shape : Shape) (slideNum : Z) (filePath : list N)
  : FormulaResult :=
  match layer_omml shape with
  | Some r => r
  | None =>
  match layer_omml_slide shape slideNum filePath with
  | Some r => r
  | None =>
  match layer_text h shape with
  | Some r => r
  | None =>
  match layer_ocr h shape with
  | Some r => r
  | None => failed_record
  end end end end.

Definition handlePdf (h : Handler) (page : Page) (bbox : NmsProcessor.Box) (scale : Q)
  : FormulaResult :=
  match render_png page (scaled_rect bbox scale) with
  | Ok imgBytes =>
      match llm h with
      | None => mkResult None JNull None None "ocr_no_llm" 0 NoError
      | Some _ => ocr_record (_extractFormula h imgBytes "ocr_pdf")
      end
  | Raise e => mkResult None JNull None None "pdf_error" 0 (ErrorOf e)
  end.

End FormulaHandler.

(** ** extractor/content_extractor.py *)

Module ContentExtractor.
Import NmsProcessor Doc.

(** [l[i]] with Python's negative indices. *)
Definition py_index {A : Type} (l : list A) (i : Z) : result A :=
  let j := if (i <? 0)%Z then (i + Z.of_nat (length l))%Z else i in
  if (j <? 0)%Z then Raise IndexError
  else match l !! Z.to_nat j with
       | Some x => Ok x
       | None => Raise IndexError
       end.

(** [int(x)] truncates towards zero. *)
Definition pyint (q : Q) : Z := Z.quot (Qnum q) (Zpos (Qden q)).

(** A loop whose body may raise. *)
Fixpoint foldM {A S : Type} (body : S -> A -> result S) (st : S) (l : list A)
  : result S :=
  match l with
  | [] => Ok st
  | x :: l' => st' ← body st x; foldM body st' l'
  end.

Fixpoint forM {A B : Type} (body : A -> result B) (l : list A) : result (list B) :=
  match l with
  | [] => Ok []
  | x :: l' => y ← body x; ys ← forM body l'; Ok (y :: ys)
  end.

(** The [Future] objects created so far, by identity: the outcome of each
    and whether it is resolved yet. *)
Abbreviation Futures Content := (list (result Content * bool)).

Section Futures.
Context {Content : Type}.
Local Abbreviation Futures := (Futures Content).

(** What [handlePptxAsync] / [handlePdfAsync] hand back: a future that is
    already resolved ([Future(); set_result(v)]: cache hit or error
    text), or a future whose coordinator task went to the worker pool;
    [outcome] is what that task sets on the future when it runs
    ([set_result] or [set_exception]). *)
Inductive AsyncStart : Type :=
  | Ready (v : Content)
  | Spawned (outcome : result Content).

Definition new_future (start : AsyncStart) (futs : Futures) : nat * Futures :=
  (length futs,
   futs ++ [match start with
            | Ready v => (Ok v, true)
            | Spawned outcome => (outcome, false)
            end]).

(** A worker finishes the task of future [c]. *)
Definition complete (c : nat) (futs : Futures) : Futures :=
  alter (fun f => (f.1, true)) c futs.

(** [future.result()]: blocks until the future is resolved.  [sched] is
    the order in which the workers finish their tasks from now on; the
    answer is [None] when the future never gets resolved. *)
Fixpoint future_result (f : nat) (futs : Futures) (sched : list nat)
  : option (result Content * Futures * list nat) :=
  match futs !! f with
  | Some (outcome, true) => Some (outcome, futs, sched)
  | _ =>
      match sched with
      | [] => None
      | c :: sched' => future_result f (complete c futs) sched'
      end
  end.

(** *** The three passes shared by [extractFromPptx] and [extractFromPdf]

    The two functions run the same three passes and differ in how a
    page/slide is entered, how an element is described, and which handler
    methods are called; those are the section variables.  [Meta] is the
    [elemData] dict without its ['content'] entry. *)

Context {PageIn ElemIn Ctx Meta : Type}.
Variable number : PageIn -> Z.
Variable enter : PageIn -> result Ctx.
Variable elements : PageIn -> list ElemIn.
(** [None]: the loop body hits [continue] *)
Variable describe : Ctx -> ElemIn -> option Meta.
Variable is_image : Meta -> bool.
(** [hasattr(self.imageHandler, 'handle...Async')] *)
Variable has_async : bool.
Variable submit : Meta -> result AsyncStart.
Variable run_sync : Z -> Meta -> result Content.

(** [elemData]: the static entries and ['content'] ([None] at first). *)
Local Abbreviation Elem := (Meta * option Content)%type.

(** State of the first pass: [(futures, imageFutures, elementsMetadata)]. *)
Record Pass1 : Type := mkPass1 {
  futs : Futures;
  imageFutures : list (Z * nat * nat);
  elementsMetadata : list (Z * list Elem)
}.

(** Body of the inner loop of the first pass. *)
Definition first_pass_elem (num : Z) (ctx : Ctx)
    (st : Futures * list (Z * nat * nat) * list Elem) (elem : ElemIn)
  : Futures * list (Z * nat * nat) * list Elem :=
  let '(fs, imgs, pageElements) := st in
  match describe ctx elem with
  | None => st
  | Some m =>
      let pageElements := pageElements ++ [(m, None)] in
      if is_image m && has_async then
        match submit m with
        | Ok start =>
            let '(future, fs) := new_future start fs in
            (fs, imgs ++ [(num, (length pageElements - 1)%nat, future)], pageElements)
        | Raise _ => (fs, imgs, pageElements)
        end
      else (fs, imgs, pageElements)
  end.

(** Body of the outer loop of the first pass. *)
Definition first_pass_page (st : Pass1) (pageData : PageIn) : result Pass1 :=
  let num := number pageData in
  ctx ← enter pageData;
  let '(fs, imgs, pageElements) :=
    foldl (first_pass_elem num ctx) (futs st, imageFutures st, []) (elements pageData) in
  Ok (mkPass1 fs imgs (elementsMetadata st ++ [(num, pageElements)])).

Definition first_pass (analyzedElements : list PageIn) : result Pass1 :=
  foldM first_pass_page (mkPass1 [] [] []) analyzedElements.

(** Second pass: every element that is not an image gets its content
    from its handler. *)
Definition second_pass_elem (num : Z) (e : Elem) : result Elem :=
  if negb (is_image e.1) then content ← run_sync num e.1; Ok (e.1, Some content)
  else Ok e.

Definition second_pass (meta : list (Z * list Elem)) : result (list (Z * list Elem)) :=
  forM (fun p => es ← forM (second_pass_elem p.1) p.2; Ok (p.1, es)) meta.

(** [for sNum, elems in elementsMetadata: if sNum == num: ... break] *)
Fixpoint has_page (num : Z) (meta : list (Z * list Elem)) : bool :=
  match meta with
  | [] => false
  | p :: rest => (p.1 =? num)%Z || has_page num rest
  end.

(** [elems[index]['content'] = value] on the first page numbered [num]. *)
Fixpoint store_content (num : Z) (index : nat) (value : Content)
    (meta : list (Z * list Elem)) : result (list (Z * list Elem)) :=
  match meta with
  | [] => Ok []
  | p :: rest =>
      if (p.1 =? num)%Z then
        match p.2 !! index with
        | Some e => Ok ((p.1, <[index := (e.1, Some value)]> p.2) :: rest)
        | None => Raise IndexError
        end
      else rest' ← store_content num index value rest; Ok (p :: rest')
  end.

(** Third pass: wait for the futures in the order of submission.  The
    outer [option] is [None] when a [future.result()] never returns. *)
Fixpoint third_pass (imgs : list (Z * nat * nat)) (meta : list (Z * list Elem))
    (fs : Futures) (sched : list nat) : option (result (list (Z * list Elem))) :=
  match imgs with
  | [] => Some (Ok meta)
  | (num, index, future) :: imgs' =>
      if has_page num meta then
        match future_result future fs sched with
        | None => None
        | Some (Raise e, _, _) => Some (Raise e)
        | Some (Ok value, fs', sched') =>
            match store_content num index value meta with
            | Ok meta' => third_pass imgs' meta' fs' sched'
            | Raise e => Some (Raise e)
            end
        end
      else third_pass imgs' meta fs sched
  end.

Definition dispatch (analyzedElements : list PageIn) (sched : list nat)
  : option (result (list (Z * list Elem))) :=
  match first_pass analyzedElements with
  | Raise e => Some (Raise e)
  | Ok st =>
      match second_pass (elementsMetadata st) with
      | Raise e => Some (Raise e)
      | Ok meta => third_pass (imageFutures st) meta (futs st) sched
      end
  end.

End Futures.
Arguments AsyncStart : clear implicits.

Section Extractor.
Context {Content : Type}.

(** A handler object; a method that the class does not define is [None]
    (looking it up raises [AttributeError]). *)
Record Handler : Type := mkHandler {
  handlePptx : option (Shape -> list N -> Z -> result Content);
  handlePdf : option (Page -> Box -> Q -> result Content);
  handle : option (result Content);
  handlePptxAsync : option (Shape -> result (AsyncStart Content));
  handlePdfAsync : option (Page -> Box -> Q -> result (AsyncStart Content))
}.

Record Extractor : Type := mkExtractor {
  textHandler : Handler;
  tableHandler : Handler;
  formulaHandler : Handler;
  imageHandler : Handler;
  defaultHandler : Handler
}.

Definition _getHandler (self : Extractor) (elemType : string) : Handler :=
  if bool_decide (elemType ∈ ["text"; "plain text"; "title"]) then textHandler self
  else if bool_decide (elemType ∈ ["image"; "figure"]) then imageHandler self
  else if bool_decide (elemType = "table") then tableHandler self
  else if bool_decide (elemType ∈ ["equation"; "isolate_formula"]) then formulaHandler self
  else defaultHandler self.

(** [try: content = handler.method(...) except AttributeError: content =
    handler.handle()]; [call] is the method applied to its arguments. *)
Definition call_or_handle (h : Handler) (call : option (result Content)) : result Content :=
  match call with
  | Some (Ok content) => Ok content
  | Some (Raise AttributeError) | None =>
      match handle h with
      | Some r => r
      | None => Raise AttributeError
      end
  | Some (Raise e) => Raise e
  end.

(** The "build final results" loop; [out] picks the entries of an
    [elemData] that go to the output. *)
Definition build_results {M O : Type} (out : M * option Content -> O)
    (r : option (result (list (Z * list (M * option Content)))))
  : option (result (list (Z * list O))) :=
  match r with
  | None => None
  | Some (Raise e) => Some (Raise e)
  | Some (Ok meta) => Some (Ok (map (fun p => (p.1, map out p.2)) meta))
  end.

(** *** PPTX *)

(** An analysed element, as far as [extractFromPptx] reads it. *)
Record PptxElement : Type := mkPptxElement {
  classified_type : string;
  position : Z * Z;
  size : Z * Z
}.

Record SlideData : Type := mkSlideData {
  slide_number : Z;
  slide_elements : list PptxElement
}.

(** [elemData] of the PPTX path, without ['content']. *)
Record PptxMeta : Type := mkPptxMeta {
  pm_type : string;
  pm_position : Z * Z;
  pm_size : Z * Z;
  pm_shape : Shape;
  pm_handler : Handler
}.

(** An element of the PPTX output. *)
Record PptxOut : Type := mkPptxOut {
  po_type : string;
  po_position : Z * Z;
  po_size : Z * Z;
  po_content : option Content
}.

Fixpoint _findShape (slide : list Shape) (position : Z * Z) : option Shape :=
  match slide with
  | [] => None
  | shape :: rest =>
      if (top shape =? position.1)%Z && (left shape =? position.2)%Z then Some shape
      else _findShape rest position
  end.

Definition pptx_describe (self : Extractor) (slide : list Shape) (elem : PptxElement)
  : option PptxMeta :=
  match _findShape slide (position elem) with
  | None => None
  | Some shape =>
      Some (mkPptxMeta (classified_type elem) (position elem) (size elem) shape
              (_getHandler self (classified_type elem)))
  end.

Definition pptx_submit (self : Extractor) (m : PptxMeta) : result (AsyncStart Content) :=
  match handlePptxAsync (imageHandler self) with
  | Some f => f (pm_shape m)
  | None => Raise AttributeError
  end.

Definition pptx_sync (filePath : list N) (slideNum : Z) (m : PptxMeta) : result Content :=
  call_or_handle (pm_handler m)
    ((fun f => f (pm_shape m) filePath slideNum) <$> handlePptx (pm_handler m)).

Definition pptx_out (e : PptxMeta * option Content) : PptxOut :=
  mkPptxOut (pm_type e.1) (pm_position e.1) (pm_size e.1) e.2.

(** [prs] is the opened presentation: its slides, each a list of shapes. *)
Definition extractFromPptx (self : Extractor) (prs : list (list Shape))
    (filePath : list N) (analyzedElements : list SlideData) (sched : list nat)
  : option (result (list (Z * list PptxOut))) :=
  build_results pptx_out
    (dispatch slide_number
       (fun slideData => py_index prs (slide_number slideData - 1))
       slide_elements
       (pptx_describe self)
       (fun m => bool_decide (pm_type m = "image"))
       (bool_decide (is_Some (handlePptxAsync (imageHandler self))))
       (pptx_submit self)
       (pptx_sync filePath)
       analyzedElements sched).

(** *** PDF *)

Record PageData : Type := mkPageData {
  page_number : Z;
  detections : list Detection
}.

(** [elemData] of the PDF path, without ['content']. *)
Record PdfMeta : Type := mkPdfMeta {
  dm_type : string;
  dm_bbox : Box;
  dm_confidence : Q;
  dm_handler : Handler;
  dm_page : Page;
  dm_scale : Q
}.

(** An element of the PDF output. *)
Record PdfOut : Type := mkPdfOut {
  do_type : string;
  do_bbox : Box;
  do_confidence : Q;
  do_content : option Content
}.

(** The page and the scale factor between detector and PDF coordinates. *)
Definition pdf_enter (doc : list Page) (dpi : Q) (pageData : PageData)
  : result (Page * Q) :=
  page ← py_index doc (page_number pageData - 1);
  let detectionW := pyint (rect_width page * dpi / 72) in
  let detectionH := pyint (rect_height page * dpi / 72) in
  a ← truediv (rect_width page) (inject_Z detectionW);
  b ← truediv (rect_height page) (inject_Z detectionH);
  Ok (page, ((a + b) / 2)%Q).

Definition pdf_describe (self : Extractor) (ctx : Page * Q) (det : Detection)
  : option PdfMeta :=
  Some (mkPdfMeta (class_name det) (bbox det) (conf det)
          (_getHandler self (class_name det)) ctx.1 ctx.2).

Definition pdf_submit (self : Extractor) (m : PdfMeta) : result (AsyncStart Content) :=
  match handlePdfAsync (imageHandler self) with
  | Some f => f (dm_page m) (dm_bbox m) (dm_scale m)
  | None => Raise AttributeError
  end.

Definition pdf_sync (pageNum : Z) (m : PdfMeta) : result Content :=
  call_or_handle (dm_handler m)
    ((fun f => f (dm_page m) (dm_bbox m) (dm_scale m)) <$> handlePdf (dm_handler m)).

Definition pdf_out (e : PdfMeta * option Content) : PdfOut :=
  mkPdfOut (dm_type e.1) (dm_bbox e.1) (dm_confidence e.1) e.2.

(** [doc] is the opened document: its pages. *)
Definition extractFromPdf (self : Extractor) (doc : list Page)
    (analyzedElements : list PageData) (dpi : Q) (sched : list nat)
  : option (result (list (Z * list PdfOut))) :=
  build_results pdf_out
    (dispatch page_number
       (pdf_enter doc dpi)
       detections
       (pdf_describe self)
       (fun m => bool_decide (dm_type m ∈ ["image"; "figure"]))
       (bool_decide (is_Some (handlePdfAsync (imageHandler self))))
       (pdf_submit self)
       pdf_sync
       analyzedElements sched).

End Extractor.
Arguments Handler : clear implicits.
Arguments Extractor : clear implicits.
Arguments PptxOut : clear implicits.
Arguments PdfOut : clear implicits.
Arguments PptxMeta : clear implicits.
Arguments PdfMeta : clear implicits.

End ContentExtractor.

(** ** analyzers/pdf_analyzer.py *)

Module PdfAnalyzer.
Import NmsProcessor ContentExtractor.

(** The loop of [analyze] from page [pageNum] on; [predictions] holds,
    for every remaining page, the boxes predicted by the detector. *)
Fixpoint analyze_from (pageNum : nat) (predictions : list (list Detection))
    (iouThreshold : Q) : result (list (@PageData)) :=
  match predictions with
  | [] => Ok []
  | boxes :: rest =>
      let detections :=
        List.filter (fun d => negb (String.eqb (class_name d) "abandon")) boxes in
      detections ← removeDuplicates detections iouThreshold;
      results ← analyze_from (S pageNum) rest iouThreshold;
      Ok (mkPageData (Z.of_nat pageNum + 1) detections :: results)
  end.

Definition analyze (predictions : list (list Detection)) (iouThreshold : Q)
  : result (list PageData) :=
  analyze_from 0 predictions iouThreshold.

End PdfAnalyzer.

(** ** The JSON text written by [json.dump] and read by [json.load] *)

Module JsonText.
Import PyStr.

(** [json.dump(d, f, indent=2, ensure_ascii=False)] for a dict of strings.
    Inside a string the quote, the backslash and the control characters
    are escaped; everything else is written as it is. *)
Definition hex_digit (d : N) : N := (if d <? 10 then 48 + d else 87 + d)%N.

Definition escape (c : N) : list N :=
  (if c =? 34 then [92; 34]
   else if c =? 92 then [92; 92]
   else if c =? 10 then [92; 110]
   else if c =? 13 then [92; 114]
   else if c =? 9 then [92; 116]
   else if c =? 8 then [92; 98]
   else if c =? 12 then [92; 102]
   else if c <? 32 then [92; 117; 48; 48; hex_digit (c / 16); hex_digit (c mod 16)]
   else [c])%N.

Definition quote (s : list N) : list N := [34%N] ++ flat_map escape s ++ [34%N].

Definition entry_text (kv : list N * list N) : list N :=
  lit "  " ++ quote kv.1 ++ lit ": " ++ quote kv.2.

(** The entries are written in the order in which the map lists them
    (Python writes them in insertion order). *)
Definition dump_entries (entries : list (list N * list N)) : list N :=
  match entries with
  | [] => lit "{}"
  | _ => lit "{" ++ [10%N] ++ join (lit "," ++ [10%N]) (entry_text <$> entries)
           ++ [10%N] ++ lit "}"
  end.

Definition json_dump (d : gmap (list N) (list N)) : list N :=
  dump_entries (map_to_list d).

(** [json.dump] does not hand this text to [f.write] in one piece: the
    encoder yields it chunk by chunk, and every chunk is written by a
    call of its own.  The chunks are the two braces, the line breaks
    with their indentation, the separators, and every quoted key and
    every quoted value. *)
Definition entry_chunks (kv : list N * list N) : list (list N) :=
  [quote kv.1; lit ": "; quote kv.2].

Definition dump_chunks (entries : list (list N * list N)) : list (list N) :=
  match entries with
  | [] => [lit "{}"]
  | kv :: rest =>
      [lit "{"; [10%N] ++ lit "  "] ++ entry_chunks kv ++
      flat_map (fun kv' => (lit "," ++ [10%N] ++ lit "  ") :: entry_chunks kv') rest ++
      [[10%N]; lit "}"]
  end.

(** [json.load] on an object whose values are strings, which is what
    [_saveCache] writes.  White space may separate the tokens; a repeated
    key keeps its last value.  The answer is [None] on any other text:
    [json.load] raises on malformed text, and well-formed JSON of another
    shape is outside the model. *)
Definition is_ws (c : N) : bool := ((c =? 32) || (c =? 9) || (c =? 10) || (c =? 13))%N.

Fixpoint skip_ws (t : list N) : list N :=
  match t with
  | c :: t' => if is_ws c then skip_ws t' else t
  | [] => []
  end.

Definition hex_value (c : N) : option N :=
  (if (48 <=? c) && (c <=? 57) then Some (c - 48)
   else if (97 <=? c) && (c <=? 102) then Some (c - 87)
   else if (65 <=? c) && (c <=? 70) then Some (c - 55)
   else None)%N.

Definition hex4 (a b c d : N) : option N :=
  x ← hex_value a; y ← hex_value b; z ← hex_value c; w ← hex_value d;
  Some (((x * 16 + y) * 16 + z) * 16 + w)%N.

Definition unescape (e : N) : option N :=
  (if e =? 34 then Some 34
   else if e =? 92 then Some 92
   else if e =? 47 then Some 47
   else if e =? 98 then Some 8
   else if e =? 102 then Some 12
   else if e =? 110 then Some 10
   else if e =? 114 then Some 13
   else if e =? 116 then Some 9
   else None)%N.

(** The characters of a string up to its closing quote, and the rest of
    the text.  A [\uXXXX] high surrogate followed by a [\uXXXX] low
    surrogate makes one character. *)
Fixpoint parse_string_body (t : list N) : option (list N * list N) :=
  match t with
  | [] => None
  | c :: t' =>
      if (c =? 34)%N then Some ([], t')
      else if (c =? 92)%N then
        match t' with
        | [] => None
        | e :: t'' =>
            if (e =? 117)%N then
              match t'' with
              | h1 :: h2 :: h3 :: h4 :: t3 =>
                  match hex4 h1 h2 h3 h4 with
                  | None => None
                  | Some hi =>
                      let single := '(s, r) ← parse_string_body t3; Some (hi :: s, r) in
                      if ((55296 <=? hi) && (hi <=? 56319))%N then
                        match t3 with
                        | 92%N :: 117%N :: l1 :: l2 :: l3 :: l4 :: t4 =>
                            match hex4 l1 l2 l3 l4 with
                            | Some lo =>
                                if ((56320 <=? lo) && (lo <=? 57343))%N then
                                  '(s, r) ← parse_string_body t4;
                                  Some ((65536 + (hi - 55296) * 1024 + (lo - 56320))%N :: s, r)
                                else single
                            | None => single
                            end
                        | _ => single
                        end
                      else single
                  end
              | _ => None
              end
            else
              match unescape e with
              | Some ch => '(s, r) ← parse_string_body t''; Some (ch :: s, r)
              | None => None
              end
        end
      else if (c <? 32)%N then None
      else '(s, r) ← parse_string_body t'; Some (c :: s, r)
  end.

Definition parse_string (t : list N) : option (list N * list N) :=
  match t with
  | 34%N :: t' => parse_string_body t'
  | _ => None
  end.

(** The members of an object from the first key on, up to and including
    the closing brace. *)
Fixpoint parse_members (fuel : nat) (t : list N) (acc : list (list N * list N))
  : option (list (list N * list N) * list N) :=
  match fuel with
  | O => None
  | S fuel' =>
      '(k, t1) ← parse_string (skip_ws t);
      match skip_ws t1 with
      | 58%N :: t2 =>
          '(v, t3) ← parse_string (skip_ws t2);
          match skip_ws t3 with
          | 44%N :: t4 => parse_members fuel' t4 (acc ++ [(k, v)])
          | 125%N :: t4 => Some (acc ++ [(k, v)], t4)
          | _ => None
          end
      | _ => None
      end
  end.

Definition parse_object (t : list N) : option (list (list N * list N)) :=
  match skip_ws t with
  | 123%N :: t1 =>
      match skip_ws t1 with
      | 125%N :: t2 => match skip_ws t2 with [] => Some [] | _ => None end
      | _ =>
          '(entries, t2) ← parse_members (length t) t1 [];
          match skip_ws t2 with [] => Some entries | _ => None end
      end
  | _ => None
  end.

(** The dict built from the members, in the order read. *)
Definition to_dict (entries : list (list N * list N)) : gmap (list N) (list N) :=
  foldl (fun d kv => <[kv.1 := kv.2]> d) ∅ entries.

Definition json_load (t : list N) : option (gmap (list N) (list N)) :=
  to_dict <$> parse_object t.

End JsonText.

(** ** handlers/image_handler.py: class ImageCache *)

Module ImageCache.
Import JsonText.

(** The cache object together with the file it persists to:
    [cache] is [self.cache]; [cacheFile] is the text held by
    [descriptions.json], [None] while the file does not exist.  The file
    is opened with [encoding='utf-8']: it holds the text that could be
    encoded.  Errors of the file system ([open] failing, a full disk)
    are not part of the model. *)
Record t : Type := mkCache {
  cache : gmap (list N) (list N);
  cacheFile : option (list N)
}.

(** The characters UTF-8 cannot encode are the surrogates, which a
    Python string may hold unpaired. *)
Definition is_surrogate (c : N) : bool := ((55296 <=? c) && (c <=? 57343))%N.

Definition utf8_encodable (chunk : list N) : bool :=
  forallb (fun c => negb (is_surrogate c)) chunk.

(** [f.write(chunk)] for each chunk in turn, on a file just opened for
    writing (and so emptied).  A chunk UTF-8 cannot encode raises
    UnicodeEncodeError: nothing of it is written, nor of the chunks
    after it, and the chunks before it stay in the file.  The result is
    the text in the file and whether every chunk was written. *)
Fixpoint write_chunks (chunks : list (list N)) : list N * bool :=
  match chunks with
  | [] => ([], true)
  | chunk :: rest =>
      if utf8_encodable chunk then
        let '(text, complete) := write_chunks rest in (chunk ++ text, complete)
      else ([], false)
  end.

Definition _loadCache (file : option (list N)) : gmap (list N) (list N) :=
  match file with
  | Some text =>
      match json_load text with
      | Some d => d
      | None => ∅
      end
  | None => ∅
  end.

(** [ImageCache(cacheDir)] on a directory whose [descriptions.json] holds
    [file]. *)
Definition init (file : option (list N)) : t := mkCache (_loadCache file) file.

(** [_saveCache] runs [json.dump] inside [try: ... except Exception: pass]:
    when a write raises, the exception is dropped and the file keeps what
    had been written until then. *)
Definition _saveCache (self : t) : t :=
  mkCache (cache self)
    (Some (write_chunks (dump_chunks (map_to_list (cache self)))).1).

Definition get (self : t) (imageHash : list N) : option (list N) :=
  cache self !! imageHash.

Definition set (self : t) (imageHash description : list N) : t :=
  _saveCache (mkCache (<[imageHash := description]> (cache self)) (cacheFile self)).

(** [stats()['total_cached']] *)
Definition total_cached (self : t) : nat := size (cache self).

End ImageCache.
(** * Further models

    The code around the functions modelled above:
    - [PdfAnalyzerLimit]  : analyzers/pdf_analyzer.py (the [maxPages] argument)
    - [TextHandler]       : handlers/text_handler.py
    - [TableText]         : handlers/table_handler.py ([_extractBalanced])
    - [ImageHandler]      : handlers/image_handler.py (class ImageHandler)
    - [ShapeClassifier]   : core/shape_classifier.py
    - [PptxAnalyzer]      : analyzers/pptx_analyzer.py
    - [Router]            : core/router.py, with [ContentExtractor.extract]

    Objects of the libraries (shapes, pages, the AI client) are records
    of what the code observes of them. *)

(** ** analyzers/pdf_analyzer.py: the page limit *)

Module PdfAnalyzerLimit.
Import NmsProcessor ContentExtractor.

(** [totalPages] of [analyze]: [len(doc)], lowered to [maxPages] when
    [maxPages] is truthy (neither [None] nor 0). *)
Definition totalPages (numPages : nat) (maxPages : option Z) : Z :=
  match maxPages with
  | Some m => if (m =? 0)%Z then Z.of_nat numPages else Z.min (Z.of_nat numPages) m
  | None => Z.of_nat numPages
  end.

(** [analyze(filePath, maxPages)]: the loop runs over
    [range(totalPages)], which is empty for a negative bound.
    [predictions] holds what the detector predicts for each page of the
    document; the detector is only run on the pages the loop reaches. *)
Definition analyze (predictions : list (list Detection)) (maxPages : option Z)
    (iouThreshold : Q) : result (list PageData) :=
  PdfAnalyzer.analyze
    (take (Z.to_nat (totalPages (length predictions) maxPages)) predictions)
    iouThreshold.

End PdfAnalyzerLimit.

(** ** handlers/text_handler.py *)

Module TextHandler.
Import PyStr Doc.

(** [s.split()] with no separator: the maximal runs of characters that
    are not white space, found by one scan; [word] is the run in
    progress. *)
Fixpoint split_from (word : list N) (s : list N) : list (list N) :=
  match s with
  | [] => match word with [] => [] | _ => [word] end
  | c :: s' =>
      if is_space c then
        match word with
        | [] => split_from [] s'
        | _ => word :: split_from [] s'
        end
      else split_from (word ++ [c]) s'
  end.

Definition split (s : list N) : list (list N) := split_from [] s.

(** [handlePptx(shape, **kwargs)]; [shape.text.strip()] raises
    [AttributeError] on a shape whose [text] is missing or [None]. *)
Definition handlePptx (shape : Shape) : result (list N) :=
  if negb (has_text_frame shape) then Ok []
  else match text shape with
       | Some s => Ok (strip s)
       | None => Raise AttributeError
       end.

(** [handlePdf(page, bbox, scale)]; [get_text] is
    [page.get_text("text", clip=rect)]. *)
Definition handlePdf (get_text : NmsProcessor.Box -> list N)
    (bbox : NmsProcessor.Box) (scale : Q) : list N :=
  let text := get_text (scaled_rect bbox scale) in
  strip (join (lit " ") (split text)).

End TextHandler.

(** ** handlers/table_handler.py: [_extractBalanced] *)

Module TableText.
Import PyStr.

(** [s.find(sub)]: the lowest index at which [sub] occurs; [None] stands
    for -1. *)
Fixpoint find (sub s : list N) : option nat :=
  if is_prefix sub s then Some 0
  else match s with
       | [] => None
       | _ :: s' => S <$> find sub s'
       end.

(** One iteration of the loop on [depth]; [ch == openCh] compares the
    one-character string [ch] with the whole of [openCh]. *)
Definition step_depth (openCh closeCh : list N) (depth : Z) (ch : N) : Z :=
  if bool_decide ([ch] = openCh) then (depth + 1)%Z
  else if bool_decide ([ch] = closeCh) then (depth - 1)%Z
  else depth.

(** The [for i in range(start, len(s))] loop: [taken] is [s[start:i]],
    [rest] is [s[i:]]. *)
Fixpoint scan (openCh closeCh : list N) (depth : Z) (taken rest : list N)
  : option (list N) :=
  match rest with
  | [] => None
  | ch :: rest' =>
      let depth := step_depth openCh closeCh depth ch in
      if (depth =? 0)%Z then Some (taken ++ [ch])
      else scan openCh closeCh depth (taken ++ [ch]) rest'
  end.

Definition _extractBalanced (s openCh closeCh : list N) : option (list N) :=
  match find openCh s with
  | None => None
  | Some start => scan openCh closeCh 0 [] (drop start s)
  end.

End TableText.

(** ** handlers/image_handler.py: class ImageHandler *)

Module ImageHandler.
Import PyStr Json Doc.

(** The prompts of the [prompts] module that the handler sends. *)
Inductive Prompt : Type :=
  | CATEGORIZE_IMAGE_PROMPT
  | DESCRIBE_CHART_PROMPT
  | DESCRIBE_DIAGRAM_PROMPT
  | DESCRIBE_FLOWCHART_PROMPT
  | DESCRIBE_PHOTO_PROMPT
  | DESCRIBE_TEXT_IMAGE_PROMPT.

(** The collaborators of the handler, fixed at construction. *)
Record Handler : Type := mkHandler {
  (** [self.llm.chat] for a prompt and an image: the reply text with
      what [json.loads] makes of it, or the exception raised *)
  chat : Prompt -> list N -> result ChatReply;
  (** [str.lower] *)
  lower : list N -> list N;
  (** [ImageCache.getImageHash]: the SHA-256 digest in hexadecimal *)
  getImageHash : list N -> list N;
  (** [json.dumps(self.tableHandler.handleImage(imageBytes))];
      [None] when no table handler was given *)
  tableHandler : option (list N -> result (list N));
  (** the same for [self.formulaHandler] *)
  formulaHandler : option (list N -> result (list N))
}.

(** What the handler mutates: [self.cache] ([None] when [enableCache]
    is false) and the two counters. *)
Record State : Type := mkState {
  cache : option ImageCache.t;
  apiCallCount : nat;
  cacheHitCount : nat
}.

(** [ImageHandler(..., enableCache, cacheDir)] on a cache directory
    whose [descriptions.json] holds [file]. *)
Definition init (enableCache : bool) (file : option (list N)) : State :=
  mkState (if enableCache then Some (ImageCache.init file) else None) 0 0.

Definition count_api_call (st : State) : State :=
  mkState (cache st) (S (apiCallCount st)) (cacheHitCount st).

(** [_categorize]: the counter is incremented before the request is
    sent; a reply that is not JSON, or not a JSON object, gives
    ["Photo"]; a failing [chat] raises out of the method. *)
Definition _categorize (self : Handler) (imageBytes : list N) (st : State)
  : result value * State :=
  let st := count_api_call st in
  match chat self CATEGORIZE_IMAGE_PROMPT imageBytes with
  | Raise e => (Raise e, st)
  | Ok resp =>
      (Ok match reply_json resp with
          | Some (JObj fields) => obj_get (lit "type") (JStr (lit "Photo")) fields
          | _ => JStr (lit "Photo")
          end, st)
  end.

Definition _generateDescription (self : Handler) (imageBytes : list N)
    (prompt : Prompt) (st : State) : result (list N) * State :=
  (reply_text <$> chat self prompt imageBytes, count_api_call st).

(** [_dispatch]; [category.lower()] raises [AttributeError] when the
    category is not a string.  The [context] argument is not used. *)
Definition _dispatch (self : Handler) (imageBytes : list N) (category : value)
    (st : State) : result (list N) * State :=
  match category with
  | JStr c =>
      let cat := lower self c in
      if contains (lit "table") cat then
        match tableHandler self with
        | Some handleImage => (handleImage imageBytes, st)
        | None => _generateDescription self imageBytes DESCRIBE_TEXT_IMAGE_PROMPT st
        end
      else if contains (lit "math") cat || contains (lit "formula") cat then
        match formulaHandler self with
        | Some handleImage => (handleImage imageBytes, st)
        | None => _generateDescription self imageBytes DESCRIBE_TEXT_IMAGE_PROMPT st
        end
      else if contains (lit "chart") cat || contains (lit "graph") cat then
        _generateDescription self imageBytes DESCRIBE_CHART_PROMPT st
      else if contains (lit "diagram") cat || contains (lit "technical") cat then
        _generateDescription self imageBytes DESCRIBE_DIAGRAM_PROMPT st
      else if contains (lit "flowchart") cat then
        _generateDescription self imageBytes DESCRIBE_FLOWCHART_PROMPT st
      else if contains (lit "text") cat then
        _generateDescription self imageBytes DESCRIBE_TEXT_IMAGE_PROMPT st
      else _generateDescription self imageBytes DESCRIBE_PHOTO_PROMPT st
  | _ => (Raise AttributeError, st)
  end.

(** The [coordinator] closure of [_processImageAsync], run by a worker:
    the outcome it sets on the future ([set_result] or [set_exception])
    and the state it leaves. *)
Definition coordinator (self : Handler) (imageBytes : list N) (st : State)
  : result (list N) * State :=
  match _categorize self imageBytes st with
  | (Raise e, st) => (Raise e, st)
  | (Ok category, st) =>
      match _dispatch self imageBytes category st with
      | (Raise e, st) => (Raise e, st)
      | (Ok description, st) =>
          (Ok description,
           match cache st with
           | Some c =>
               mkState (Some (ImageCache.set c (getImageHash self imageBytes) description))
                 (apiCallCount st) (cacheHitCount st)
           | None => st
           end)
      end
  end.

(** What [_processImageAsync] hands back: a future already resolved with
    the cached description, or a future whose [coordinator] went to the
    worker pool. *)
Inductive Started : Type :=
  | Cached (description : list N)
  | Submitted (task : State -> result (list N) * State).

(** [_processImageAsync]: [if cached:] takes a cached empty string for
    a miss. *)
Definition _processImageAsync (self : Handler) (imageBytes : list N) (st : State)
  : Started * State :=
  match cache st with
  | Some c =>
      match ImageCache.get c (getImageHash self imageBytes) with
      | Some ((_ :: _) as cached) =>
          (Cached cached, mkState (cache st) (apiCallCount st) (S (cacheHitCount st)))
      | _ => (Submitted (coordinator self imageBytes), st)
      end
  | None => (Submitted (coordinator self imageBytes), st)
  end.

(** [getStats()]: ['api_calls'], ['cache_hits'], ['total_requests'] and,
    with a cache, ['total_cached']. *)
Definition getStats (st : State) : nat * nat * nat * option nat :=
  (apiCallCount st, cacheHitCount st, apiCallCount st + cacheHitCount st,
   ImageCache.total_cached <$> cache st).

End ImageHandler.

(** ** core/shape_classifier.py *)

Module ShapeClassifier.
Import PyStr Doc.

(** The members of python-pptx's [MSO_SHAPE_TYPE] that the classifier
    names, by their integer values; 15 and 17 are written as numbers in
    the source. *)
Definition CHART : Z := 3.
Definition GROUP : Z := 6.
Definition EMBEDDED_OLE_OBJECT : Z := 7.
Definition PICTURE : Z := 13.
Definition PLACEHOLDER : Z := 14.
Definition TABLE : Z := 19.

(** A python-pptx shape as the analyser sees it: the part the handlers
    read ([shape]) and what the classifier observes besides. *)
Record PptxShape : Type := mkPptxShape {
  shape : Shape;
  (** [shape.shape_type]; [None] for a shape of no known type *)
  shape_type : option Z;
  width : Z;
  height : Z;
  (** whether the shape has an XML element ([_element] or [element]) *)
  has_element : bool;
  (** whether the XPath query for [m:oMath | m:oMathPara] finds a node;
      [None] when the element has no [xpath] or the query raises *)
  xpath_omml : option bool;
  (** the same for [p:oleObj] *)
  xpath_ole : option bool;
  (** [r._r.xml] of the runs of the text frame, as far as the iteration
      gets ([None]: not a string); empty without text frame *)
  run_xmls : list (option (list N));
  (** reading [shape.image]: fine, or the exception raised *)
  image : result unit
}.

Definition mentions (needle : string) (xml : option (list N)) : bool :=
  match xml with
  | Some x => contains (lit needle) x
  | None => false
  end.

Definition _hasOmml (s : PptxShape) : bool :=
  if negb (has_element s) then false
  else if bool_decide (xpath_omml s = Some true) then true
  else if mentions "oMath" (element_xml (shape s))
          || mentions "oMathPara" (element_xml (shape s)) then true
  else existsb (fun rxml => mentions "oMath" rxml || mentions "oMathPara" rxml)
         (run_xmls s).

Definition _hasOle (s : PptxShape) : bool :=
  if negb (has_element s) then false
  else if bool_decide (xpath_ole s = Some true) then true
  else mentions "oleObj" (element_xml (shape s)).

(** [classifyShape]; the [try ... except Exception: pass] around the
    OMML tests have nothing to catch.  In the placeholder branch only
    [AttributeError] from [shape.image] is caught, and [shape.text] is
    read without protection. *)
Definition classifyShape (s : PptxShape) : result string :=
  let t := shape_type s in
  if bool_decide (t = Some PICTURE) then Ok "image"
  else if bool_decide (t = Some TABLE) then Ok "table"
  else if bool_decide (t = Some CHART) then Ok "chart"
  else if bool_decide (t = Some EMBEDDED_OLE_OBJECT) then Ok "equation"
  else if _hasOmml s then Ok "equation"
  else if bool_decide (t = Some 15%Z) then Ok "diagram"
  else if bool_decide (t = Some GROUP) then
    Ok (if _hasOmml s || _hasOle s then "equation" else "group")
  else if bool_decide (t = Some 17%Z) then Ok "text"
  else if bool_decide (t = Some PLACEHOLDER) then
    match image s with
    | Ok _ => Ok "image"
    | Raise AttributeError =>
        if _hasOmml s then Ok "equation"
        else if has_text_frame (shape s) then
          match text (shape s) with
          | Some txt => Ok (match strip txt with [] => "unknown" | _ => "text" end)
          | None => Raise AttributeError
          end
        else Ok "unknown"
    | Raise e => Raise e
    end
  else if has_text_frame (shape s) then
    Ok (if _hasOmml s then "equation" else "text")
  else Ok "unknown".

End ShapeClassifier.

(** ** analyzers/pptx_analyzer.py *)

Module PptxAnalyzer.
Import PyStr Doc ContentExtractor ShapeClassifier.

(** The element dict built for a shape: the entries the extractor
    reads ([element]) and the others. *)
Record Element : Type := mkElement {
  slide_number : Z;
  raw_type : option Z;
  element : PptxElement;
  content : list N
}.

(** [elemType.upper()]; the labels are ASCII. *)
Definition upper (label : string) : list N :=
  (fun c => if (97 <=? c) && (c <=? 122) then c - 32 else c)%N <$> lit label.

(** The body of the loop over [slide.shapes]. *)
Definition analyze_shape (slideNum : nat) (s : PptxShape) : result Element :=
  elemType ← classifyShape s;
  content ←
    (if bool_decide (elemType = "text") && has_text_frame (shape s) then
       match text (shape s) with
       | Some txt => Ok (take 100 txt)
       | None => Raise AttributeError
       end
     else Ok (lit "<" ++ upper elemType ++ lit ">"));
  Ok (mkElement (Z.of_nat slideNum + 1) (shape_type s)
        (mkPptxElement elemType (top (shape s), left (shape s)) (width s, height s))
        content).

(** The order of the sort key [(position[0], position[1])]. *)
Definition key_lt (a b : Z * Z) : bool :=
  (a.1 <? b.1)%Z || ((a.1 =? b.1)%Z && (a.2 <? b.2)%Z).

(** [elements.sort(key=...)]: a stable sort by ascending position. *)
Fixpoint insert_asc (x : Element) (l : list Element) : list Element :=
  match l with
  | [] => [x]
  | y :: l' =>
      if key_lt (position (element y)) (position (element x))
      then y :: insert_asc x l' else x :: l
  end.

Definition sort_asc (l : list Element) : list Element := foldr insert_asc [] l.

(** The loop over [enumerate(prs.slides)] from slide [slideNum] on. *)
Fixpoint analyze_from (slideNum : nat) (slides : list (list PptxShape))
  : result (list (Z * list Element)) :=
  match slides with
  | [] => Ok []
  | slide :: rest =>
      elements ← ContentExtractor.forM (analyze_shape slideNum) slide;
      results ← analyze_from (S slideNum) rest;
      Ok ((Z.of_nat slideNum + 1, sort_asc elements)%Z :: results)
  end.

(** [analyze(filePath)] on the presentation that [Presentation(filePath)]
    opens. *)
Definition analyze (prs : list (list PptxShape)) : result (list (Z * list Element)) :=
  analyze_from 0 prs.

(** The analysed slides as [extractFromPptx] reads them. *)
Definition as_input (analyzed : list (Z * list Element)) : list SlideData :=
  (fun p => mkSlideData p.1 (element <$> p.2)) <$> analyzed.

End PptxAnalyzer.

(** ** core/router.py, with the entry point of the extractor and the
    converter's output path *)

Module Router.
Import PyStr.

(** [s.split(".")[-1]]: what follows the last dot, or all of [s]. *)
Fixpoint after_last_dot (s : list N) : list N :=
  match s with
  | [] => []
  | c :: s' =>
      if contains [46%N] s' then after_last_dot s'
      else if (c =? 46)%N then s' else s
  end.

(** [s.endswith(suffix)] *)
Definition endswith (suffix s : list N) : bool :=
  is_prefix (reverse suffix) (reverse s).

(** How [process] can fail: the two [ValueError]s ("No analyzer for
    ... files." of [process], "Unsupported file type: ..." of
    [ContentExtractor.extract]), the [RuntimeError] that wraps whatever
    is raised on the PPTX path, and an exception of a collaborator. *)
Inductive Error : Type :=
  | NoAnalyzer (ext : list N)
  | UnsupportedFileType (filePath : list N)
  | ConversionFailed (cause : Error)
  | Raised (e : exn).

Inductive outcome (A : Type) : Type :=
  | Done (a : A)
  | Failed (err : Error).
Arguments Done {A} a.
Arguments Failed {A} err.

Definition lift {A : Type} (r : result A) : outcome A :=
  match r with
  | Ok a => Done a
  | Raise e => Failed (Raised e)
  end.

Section Router.
Context {Analyzed Extracted : Type}.

(** The collaborators. *)
Record Parts : Type := mkParts {
  (** [str.lower] *)
  lower : list N -> list N;
  (** [PdfAnalyzer.analyze(path, maxPages)] *)
  analyze_pdf : list N -> option Z -> result Analyzed;
  (** [PptxToPdfConverter.convert] up to the name of the output: the
      output directory joined with the stem of the source *)
  convert_stem : list N -> result (list N);
  (** [ContentExtractor.extractFromPptx] and [extractFromPdf] *)
  extractFromPptx : list N -> Analyzed -> result Extracted;
  extractFromPdf : list N -> Analyzed -> result Extracted;
  (** the loop that gives every element a fresh [uuid4] id *)
  assign_ids : Extracted -> Extracted
}.

(** [PptxToPdfConverter.convert]: the path returned is
    [outRoot / (src.stem + ".pdf")]. *)
Definition convert (parts : Parts) (pptxPath : list N) : result (list N) :=
  base ← convert_stem parts pptxPath;
  Ok (base ++ lit ".pdf").

(** [ContentExtractor.extract] *)
Definition extract (parts : Parts) (filePath : list N) (analyzed : Analyzed)
  : outcome Extracted :=
  if endswith (lit ".pptx") filePath then lift (extractFromPptx parts filePath analyzed)
  else if endswith (lit ".pdf") filePath then lift (extractFromPdf parts filePath analyzed)
  else Failed (UnsupportedFileType filePath).

(** Analysis and extraction of a PDF, as both branches of [process] run
    them. *)
Definition run_pdf (parts : Parts) (path : list N) (maxPages : option Z)
  : outcome Extracted :=
  match analyze_pdf parts path maxPages with
  | Raise e => Failed (Raised e)
  | Ok analyzed =>
      match extract parts path analyzed with
      | Done extracted => Done (assign_ids parts extracted)
      | Failed err => Failed err
      end
  end.

(** [Router.process]; [self.analyzers] has the keys ".pptx" and
    ".pdf". *)
Definition process (parts : Parts) (filePath : list N) (maxPages : option Z)
  : outcome Extracted :=
  let ext := lit "." ++ lower parts (after_last_dot filePath) in
  if negb (bool_decide (ext ∈ [lit ".pptx"; lit ".pdf"]))
     && negb (bool_decide (ext = lit ".pptx"))
  then Failed (NoAnalyzer ext)
  else if bool_decide (ext = lit ".pptx") then
    match convert parts filePath with
    | Raise e => Failed (ConversionFailed (Raised e))
    | Ok pdfPath =>
        match run_pdf parts pdfPath maxPages with
        | Done extracted => Done extracted
        | Failed err => Failed (ConversionFailed err)
        end
    end
  else run_pdf parts filePath maxPages.

End Router.
Arguments Parts : clear implicits.

End Router.


(** * Properties *)

(** ** Duplicate suppression (core/nms_processor.py) *)

Module NmsFacts.
Import NmsProcessor.

Lemma Qle_bool_false (x y : Q) : Qle_bool x y = false -> (y < x)%Q.
Proof.
  intros H. apply Qnot_le_lt. intros Hle.
  apply Qle_bool_iff in Hle. congruence.
Qed.

Lemma Qltb_true (x y : Q) : Qltb x y = true -> (x < y)%Q.
Proof.
  unfold Qltb. intros H. apply negb_true_iff in H. now apply Qle_bool_false.
Qed.

Lemma Qltb_false (x y : Q) : Qltb x y = false -> (y <= x)%Q.
Proof.
  unfold Qltb. intros H. apply negb_false_iff in H. now apply Qle_bool_iff.
Qed.

Lemma Qltb_comp (x x' y y' : Q) :
  (x == x')%Q -> (y == y')%Q -> Qltb x y = Qltb x' y'.
Proof. intros Hx Hy. unfold Qltb. now rewrite Hx, Hy. Qed.

Ltac case_ltb :=
  repeat match goal with
  | |- context [Qltb ?a ?b] =>
      let E := fresh "E" in
      destruct (Qltb a b) eqn:E;
      [apply Qltb_true in E | apply Qltb_false in E]
  end.

Lemma pymax_comm (a b : Q) : (pymax a b == pymax b a)%Q.
Proof. unfold pymax. case_ltb; lra. Qed.

Lemma pymin_comm (a b : Q) : (pymin a b == pymin b a)%Q.
Proof. unfold pymin. case_ltb; lra. Qed.

Lemma pymax_bounds (a b : Q) : (a <= pymax a b /\ b <= pymax a b)%Q.
Proof. unfold pymax. case_ltb; lra. Qed.

Lemma pymin_bounds (a b : Q) : (pymin a b <= a /\ pymin a b <= b)%Q.
Proof. unfold pymin. case_ltb; lra. Qed.

(** Two results agree: the same exception, or [Qeq]-equal values. *)
Definition agree (r r' : result Q) : Prop :=
  match r, r' with
  | Ok v, Ok v' => (v == v')%Q
  | Raise e, Raise e' => e = e'
  | _, _ => False
  end.

Lemma truediv_comp (a a' b b' : Q) :
  (a == a')%Q -> (b == b')%Q -> agree (truediv a b) (truediv a' b').
Proof.
  intros Ha Hb. unfold truediv. rewrite <- Hb.
  destruct (Qeq_bool b 0); simpl; [reflexivity|].
  now rewrite Ha, Hb.
Qed.

(** [computeIou] does not depend on the order of its arguments. *)
Lemma computeIou_sym (b1 b2 : Box) : agree (computeIou b1 b2) (computeIou b2 b1).
Proof.
  unfold computeIou; cbv zeta.
  pose proof (pymax_comm (xMin b1) (xMin b2)) as HxMin.
  pose proof (pymax_comm (yMin b1) (yMin b2)) as HyMin.
  pose proof (pymin_comm (xMax b1) (xMax b2)) as HxMax.
  pose proof (pymin_comm (yMax b1) (yMax b2)) as HyMax.
  rewrite (Qltb_comp _ _ _ _ HxMax HxMin), (Qltb_comp _ _ _ _ HyMax HyMin).
  destruct (_ || _); simpl; [reflexivity|].
  apply truediv_comp.
  - now rewrite HxMin, HyMin, HxMax, HyMax.
  - rewrite HxMin, HyMin, HxMax, HyMax. ring.
Qed.

Lemma computeIou_sym_le (b1 b2 : Box) (v thr : Q) :
  computeIou b1 b2 = Ok v -> (v <= thr)%Q ->
  exists v', computeIou b2 b1 = Ok v' /\ (v' <= thr)%Q.
Proof.
  intros H Hle. pose proof (computeIou_sym b1 b2) as Hs. rewrite H in Hs.
  destruct (computeIou b2 b1) as [v'|e]; simpl in Hs; [|contradiction].
  exists v'. split; [reflexivity|]. now rewrite <- Hs.
Qed.

(** When the division is reached the intersection is contained in both
    boxes and the union area is at least the intersection area. *)
Lemma computeIou_cases (b1 b2 : Box) :
  computeIou b1 b2 = Ok 0%Q \/
  exists i u : Q,
    (0 <= i)%Q /\ (i <= u)%Q /\ computeIou b1 b2 = truediv i u /\
    (u == (xMax b1 - xMin b1) * (yMax b1 - yMin b1)
        + (xMax b2 - xMin b2) * (yMax b2 - yMin b2) - i)%Q /\
    (i <= (xMax b1 - xMin b1) * (yMax b1 - yMin b1))%Q /\
    (i <= (xMax b2 - xMin b2) * (yMax b2 - yMin b2))%Q.
Proof.
  unfold computeIou; cbv zeta.
  destruct (pymax_bounds (xMin b1) (xMin b2)) as [Hx1 Hx2].
  destruct (pymax_bounds (yMin b1) (yMin b2)) as [Hy1 Hy2].
  destruct (pymin_bounds (xMax b1) (xMax b2)) as [HX1 HX2].
  destruct (pymin_bounds (yMax b1) (yMax b2)) as [HY1 HY2].
  set (ixm := pymax (xMin b1) (xMin b2)) in *.
  set (iym := pymax (yMin b1) (yMin b2)) in *.
  set (ixM := pymin (xMax b1) (xMax b2)) in *.
  set (iyM := pymin (yMax b1) (yMax b2)) in *.
  destruct (Qltb ixM ixm) eqn:Ex; simpl; [now left|].
  destruct (Qltb iyM iym) eqn:Ey; simpl; [now left|].
  apply Qltb_false in Ex, Ey. right.
  eexists _, _. split; [|split; [|split; [reflexivity|split; [reflexivity|]]]].
  - nra.
  - assert ((ixM - ixm) * (iyM - iym) <= (xMax b1 - xMin b1) * (yMax b1 - yMin b1))%Q by nra.
    assert ((ixM - ixm) * (iyM - iym) <= (xMax b2 - xMin b2) * (yMax b2 - yMin b2))%Q by nra.
    assert (0 <= (ixM - ixm) * (iyM - iym))%Q by nra.
    lra.
  - split; nra.
Qed.

(** Whenever [computeIou] returns, the value lies in [[0, 1]]. *)
Lemma computeIou_range (b1 b2 : Box) (v : Q) :
  computeIou b1 b2 = Ok v -> (0 <= v <= 1)%Q.
Proof.
  destruct (computeIou_cases b1 b2) as [H0|(i & u & Hi & Hu & Hd & _)].
  - rewrite H0. intros [= <-]. lra.
  - rewrite Hd. unfold truediv.
    destruct (Qeq_bool u 0) eqn:E; [discriminate|]. intros [= <-].
    assert (Hne : ~ (u == 0)%Q) by (intros Hz; apply Qeq_bool_iff in Hz; congruence).
    assert (Hpos : (0 < u)%Q) by (destruct (Qlt_le_dec 0 u); [assumption|exfalso; apply Hne; lra]).
    split.
    + apply Qle_shift_div_l; [assumption|lra].
    + apply Qle_shift_div_r; [assumption|lra].
Qed.

(** *** The suppression loop *)

Lemma nms_loop_cons thr keep best rest :
  nms_loop thr keep (best :: rest) =
  match survivors thr best rest with
  | Ok rest' => nms_loop thr (keep ++ [best]) rest'
  | Raise e => Raise e
  end.
Proof.
  simp nms_loop.
  destruct (inspect (survivors thr best rest)) as [[rest'|e] H];
    simp nms_loop; now rewrite H.
Qed.

(** [passes thr best d]: [d] gets through the filter run for [best]. *)
Definition passes (thr : Q) (best d : Detection) : Prop :=
  survives thr best d = Ok true.

Lemma passes_iou thr best d :
  passes thr best d -> class_name d = class_name best ->
  exists v, computeIou (bbox d) (bbox best) = Ok v /\ (v <= thr)%Q.
Proof.
  unfold passes, survives. intros H Hc.
  rewrite Hc, String.eqb_refl in H. simpl in H.
  destruct (computeIou (bbox d) (bbox best)) as [v|e]; simpl in H; [|discriminate].
  exists v. split; [reflexivity|]. apply Qle_bool_iff. congruence.
Qed.

Lemma iou_passes thr best d :
  (class_name d = class_name best ->
   exists v, computeIou (bbox d) (bbox best) = Ok v /\ (v <= thr)%Q) ->
  passes thr best d.
Proof.
  unfold passes, survives. intros H.
  destruct (String.eqb (class_name d) (class_name best)) eqn:E; simpl; [|reflexivity].
  apply String.eqb_eq in E. destruct (H E) as (v & -> & Hv). simpl.
  apply Qle_bool_iff in Hv. now rewrite Hv.
Qed.

(** Every detection is suppressed against the ones before it. *)
Inductive Suppressed (thr : Q) : list Detection -> Prop :=
  | Suppressed_nil : Suppressed thr []
  | Suppressed_cons best l :
      Forall (passes thr best) l -> Suppressed thr l -> Suppressed thr (best :: l).

Lemma survivors_inv thr best ds out :
  survivors thr best ds = Ok out ->
  Forall (passes thr best) out /\ sublist out ds.
Proof.
  revert out. induction ds as [|d ds IH]; intros out; simpl.
  - intros [= <-]. split; constructor.
  - destruct (survives thr best d) as [k|e] eqn:Ek; simpl; [|discriminate].
    destruct (survivors thr best ds) as [rest|e]; simpl; [|discriminate].
    intros [= <-]. destruct (IH rest eq_refl) as [Hf Hs].
    destruct k; split.
    + constructor; assumption.
    + now constructor.
    + assumption.
    + now constructor.
Qed.

Lemma survivors_all thr best ds :
  Forall (passes thr best) ds -> survivors thr best ds = Ok ds.
Proof.
  induction 1 as [|d ds Hd _ IH]; simpl; [reflexivity|].
  unfold passes in Hd. rewrite Hd, IH. reflexivity.
Qed.

Lemma nms_loop_inv thr n :
  forall keep l out, length l <= n ->
  nms_loop thr keep l = Ok out ->
  exists kept, out = keep ++ kept /\ Suppressed thr kept /\ sublist kept l.
Proof.
  induction n as [|n IH]; intros keep l out Hn.
  - destruct l; [|simpl in Hn; lia]. simp nms_loop. intros [= <-].
    exists []. rewrite app_nil_r. repeat split; constructor.
  - destruct l as [|best rest].
    + simp nms_loop. intros [= <-].
      exists []. rewrite app_nil_r. repeat split; constructor.
    + rewrite nms_loop_cons.
      destruct (survivors thr best rest) as [rest'|e] eqn:Es; [|discriminate].
      destruct (survivors_inv _ _ _ _ Es) as [Hf Hs].
      pose proof (survivors_length _ _ _ _ Es) as Hlen.
      intros H. apply IH in H; [|simpl in Hn; lia].
      destruct H as (kept & -> & Hsup & Hsub).
      exists (best :: kept). rewrite <- app_assoc. simpl.
      split; [reflexivity|]. split.
      * constructor; [|assumption].
        apply Forall_forall. intros d Hd.
        eapply (proj1 (Forall_forall _ _)) in Hf; [exact Hf|].
        eapply elem_of_sublist; eassumption.
      * constructor. etransitivity; eassumption.
Qed.

Lemma nms_loop_all thr l :
  forall keep, Suppressed thr l -> nms_loop thr keep l = Ok (keep ++ l).
Proof.
  intros keep H. revert keep.
  induction H as [|best l Hf _ IH]; intros keep.
  - simp nms_loop. now rewrite app_nil_r.
  - rewrite nms_loop_cons, (survivors_all _ _ _ Hf), IH, <- app_assoc. reflexivity.
Qed.

Lemma removeDuplicates_eq dets thr :
  removeDuplicates dets thr = nms_loop thr [] (sort_desc dets).
Proof. destruct dets; [now simp nms_loop|reflexivity]. Qed.

Lemma Suppressed_lookup thr l :
  Suppressed thr l ->
  forall i j a b, (i < j)%nat -> l !! i = Some a -> l !! j = Some b -> passes thr a b.
Proof.
  induction 1 as [|best l Hf _ IH]; intros i j a b Hij Ha Hb.
  - rewrite lookup_nil in Ha. discriminate.
  - destruct j as [|j]; [lia|]. simpl in Hb. destruct i as [|i]; simpl in Ha.
    + injection Ha as <-. eapply (proj1 (Forall_forall _ _)); [exact Hf|].
      eapply list_elem_of_lookup_2; eassumption.
    + eapply IH; [|eassumption..]. lia.
Qed.

(** *** The stable sort by descending confidence *)

(** Confidences never increase along the list. *)
Definition sorted_desc (l : list Detection) : Prop :=
  StronglySorted (fun a b => (conf b <= conf a)%Q) l.

Lemma insert_desc_perm x l : insert_desc x l ≡ₚ x :: l.
Proof.
  induction l as [|y l IH]; simpl; [reflexivity|].
  destruct (Qltb (conf x) (conf y)); [|reflexivity].
  rewrite IH. apply perm_swap.
Qed.

Lemma sort_desc_perm l : sort_desc l ≡ₚ l.
Proof.
  induction l as [|x l IH]; simpl; [reflexivity|].
  unfold sort_desc in *. simpl. rewrite insert_desc_perm. now rewrite IH.
Qed.

Lemma insert_desc_sorted x l : sorted_desc l -> sorted_desc (insert_desc x l).
Proof.
  unfold sorted_desc. induction 1 as [|y l Hs IH Hf]; simpl.
  - repeat constructor.
  - destruct (Qltb (conf x) (conf y)) eqn:E.
    + apply Qltb_true in E. constructor; [assumption|].
      rewrite insert_desc_perm. constructor; [lra|assumption].
    + apply Qltb_false in E. constructor; [now constructor|].
      constructor; [assumption|].
      eapply Forall_impl; [exact Hf|]. simpl. intros z Hz. lra.
Qed.

Lemma sort_desc_sorted l : sorted_desc (sort_desc l).
Proof.
  induction l as [|x l IH]; [constructor|].
  change (sort_desc (x :: l)) with (insert_desc x (sort_desc l)).
  now apply insert_desc_sorted.
Qed.

Lemma insert_desc_front x l :
  Forall (fun y => (conf y <= conf x)%Q) l -> insert_desc x l = x :: l.
Proof.
  destruct 1 as [|y l Hy _]; simpl; [reflexivity|].
  destruct (Qltb (conf x) (conf y)) eqn:E; [|reflexivity].
  apply Qltb_true in E. lra.
Qed.

Lemma sort_desc_id l : sorted_desc l -> sort_desc l = l.
Proof.
  unfold sorted_desc. induction 1 as [|x l _ IH Hf]; [reflexivity|].
  change (sort_desc (x :: l)) with (insert_desc x (sort_desc l)).
  rewrite IH. now apply insert_desc_front.
Qed.

(** *** Detections that do not overlap *)

(** Same-class detections at different positions have a defined IoU that
    does not exceed the threshold. *)
Definition non_overlapping (dets : list Detection) (thr : Q) : Prop :=
  forall (i j : nat) (a b : Detection),
    i <> j -> dets !! i = Some a -> dets !! j = Some b ->
    class_name a = class_name b ->
    exists v, computeIou (bbox a) (bbox b) = Ok v /\ (v <= thr)%Q.

(** The same, as a predicate on the list structure: every element passes
    the filter of every other one. *)
Inductive Apart (thr : Q) : list Detection -> Prop :=
  | Apart_nil : Apart thr []
  | Apart_cons d l :
      Forall (fun e => passes thr d e /\ passes thr e d) l ->
      Apart thr l -> Apart thr (d :: l).

Lemma non_overlapping_Apart dets thr : non_overlapping dets thr -> Apart thr dets.
Proof.
  induction dets as [|d dets IH]; intros H; constructor.
  - apply Forall_forall. intros e He.
    apply list_elem_of_lookup_1 in He as [j Hj].
    split; apply iou_passes; intros Hc.
    + apply (H (S j) 0%nat e d); [lia|exact Hj|reflexivity|exact Hc].
    + apply (H 0%nat (S j) d e); [lia|reflexivity|exact Hj|exact Hc].
  - apply IH. intros i j a b Hij Ha Hb. apply (H (S i) (S j)); [lia|assumption..].
Qed.

Lemma Apart_insert_desc thr x l : Apart thr (x :: l) -> Apart thr (insert_desc x l).
Proof.
  induction l as [|y l IH]; simpl; [trivial|].
  destruct (Qltb (conf x) (conf y)); [|trivial].
  intros H. inversion H as [|? ? Hx Hyl]; subst.
  inversion Hx as [|? ? [Hxy Hyx] Hxl]; subst.
  inversion Hyl as [|? ? Hy Hl]; subst.
  constructor.
  - rewrite insert_desc_perm. constructor; [split; assumption|assumption].
  - apply IH. now constructor.
Qed.

Lemma Apart_sort_desc thr l : Apart thr l -> Apart thr (sort_desc l).
Proof.
  induction 1 as [|d l Hf Hl IH]; [constructor|].
  change (sort_desc (d :: l)) with (insert_desc d (sort_desc l)).
  apply Apart_insert_desc. constructor; [|assumption].
  now rewrite sort_desc_perm.
Qed.

Lemma Apart_Suppressed thr l : Apart thr l -> Suppressed thr l.
Proof.
  induction 1 as [|d l Hf _ IH]; constructor; [|assumption].
  eapply Forall_impl; [exact Hf|]. simpl. tauto.
Qed.

(** *** Sample detections (the example of the design document) *)

Definition detA : Detection := mkDet "text" (mkBox 0 0 10 10) 0.9.
Definition detB : Detection := mkDet "text" (mkBox 1 1 9 9) 0.8.
Definition detC : Detection := mkDet "figure" (mkBox 1 1 9 9) 0.95.
Definition detLow : Detection := mkDet "text" (mkBox 0 0 10 10) 0.5.
Definition detHigh : Detection := mkDet "text" (mkBox 20 20 30 30) 0.9.

(** C2. In the list returned by [removeDuplicates], two kept detections
    of the same class label always have an IoU that is defined and does
    not exceed the threshold; detections of different classes are not
    constrained. *)
Theorem removeDuplicates_same_class_iou_le
    (dets keep : list Detection) (thr : Q) :
  removeDuplicates dets thr = Ok keep ->
  forall (i j : nat) (a b : Detection),
    i <> j -> keep !! i = Some a -> keep !! j = Some b ->
    class_name a = class_name b ->
    exists v, computeIou (bbox a) (bbox b) = Ok v /\ (v <= thr)%Q.
Proof.
  rewrite removeDuplicates_eq. intros H.
  apply (nms_loop_inv thr (length (sort_desc dets))) in H; [|lia].
  destruct H as (kept & -> & Hsup & _). simpl.
  intros i j a b Hij Ha Hb Hc.
  destruct (Nat.lt_total i j) as [Hlt|[Heq|Hgt]]; [|contradiction|].
  - pose proof (Suppressed_lookup _ _ Hsup i j a b Hlt Ha Hb) as Hp.
    destruct (passes_iou _ _ _ Hp (eq_sym Hc)) as (v & Hv & Hle).
    eapply computeIou_sym_le; eassumption.
  - pose proof (Suppressed_lookup _ _ Hsup j i b a Hgt Hb Ha) as Hp.
    exact (passes_iou _ _ _ Hp Hc).
Qed.

Lemma removeDuplicates_same_class_iou_le_witness :
  exists v, computeIou (bbox detA) (bbox detB) = Ok v /\ (v <= 0.7)%Q.
Proof.
  apply (removeDuplicates_same_class_iou_le
           [detA; detB; detC] [detC; detA; detB] 0.7 eq_refl 1%nat 2%nat detA detB);
    [lia|reflexivity|reflexivity|reflexivity].
Defined.

(** C3 (failing input). [computeIou] on two copies of the degenerate
    box [[0, 0, 0, 0]] divides by a zero union area and raises
    [ZeroDivisionError]. *)
Theorem computeIou_degenerate_raises :
  computeIou (mkBox 0 0 0 0) (mkBox 0 0 0 0) = Raise ZeroDivisionError.
Proof. reflexivity. Qed.

(** What does hold of [computeIou]: it raises exactly when the
    intersection test passes and the union area is zero; otherwise it
    returns a value in [[0, 1]]; an inverted box always gives 0. *)
Lemma computeIou_inverted_zero (b1 b2 : Box) :
  (xMax b1 < xMin b1)%Q \/ (yMax b1 < yMin b1)%Q ->
  computeIou b1 b2 = Ok 0%Q /\ computeIou b2 b1 = Ok 0%Q.
Proof.
  intros H.
  destruct (pymax_bounds (xMin b1) (xMin b2)) as [Hx1 Hx2].
  destruct (pymax_bounds (yMin b1) (yMin b2)) as [Hy1 Hy2].
  destruct (pymin_bounds (xMax b1) (xMax b2)) as [HX1 HX2].
  destruct (pymin_bounds (yMax b1) (yMax b2)) as [HY1 HY2].
  destruct (pymax_bounds (xMin b2) (xMin b1)) as [Hx1' Hx2'].
  destruct (pymax_bounds (yMin b2) (yMin b1)) as [Hy1' Hy2'].
  destruct (pymin_bounds (xMax b2) (xMax b1)) as [HX1' HX2'].
  destruct (pymin_bounds (yMax b2) (yMax b1)) as [HY1' HY2'].
  unfold computeIou; cbv zeta. split.
  - destruct (Qltb (pymin (xMax b1) (xMax b2)) (pymax (xMin b1) (xMin b2))) eqn:Ex;
      [reflexivity|].
    destruct (Qltb (pymin (yMax b1) (yMax b2)) (pymax (yMin b1) (yMin b2))) eqn:Ey;
      [reflexivity|].
    apply Qltb_false in Ex, Ey. exfalso. destruct H; lra.
  - destruct (Qltb (pymin (xMax b2) (xMax b1)) (pymax (xMin b2) (xMin b1))) eqn:Ex;
      [reflexivity|].
    destruct (Qltb (pymin (yMax b2) (yMax b1)) (pymax (yMin b2) (yMin b1))) eqn:Ey;
      [reflexivity|].
    apply Qltb_false in Ex, Ey. exfalso. destruct H; lra.
Qed.

(** A box of positive area: [xMin < xMax] and [yMin < yMax]. *)
Definition proper_box (b : Box) : Prop :=
  (xMin b < xMax b)%Q /\ (yMin b < yMax b)%Q.

Lemma computeIou_proper_returns (b1 b2 : Box) :
  proper_box b1 -> exists v, computeIou b1 b2 = Ok v.
Proof.
  intros [Hx Hy].
  destruct (computeIou_cases b1 b2) as [H0|(i & u & Hi & Hu & Hd & Hueq & H1 & H2)].
  - eauto.
  - rewrite Hd. unfold truediv.
    destruct (Qeq_bool u 0) eqn:E; [|eauto].
    apply Qeq_bool_iff in E. exfalso.
    assert (0 < (xMax b1 - xMin b1) * (yMax b1 - yMin b1))%Q by nra.
    lra.
Qed.

Lemma survivors_proper_returns thr best ds :
  Forall (fun d => proper_box (bbox d)) ds -> exists out, survivors thr best ds = Ok out.
Proof.
  induction 1 as [|d ds Hd _ [out IH]]; simpl; [eauto|].
  unfold survives.
  destruct (negb (String.eqb (class_name d) (class_name best))); simpl.
  - rewrite IH. simpl. eauto.
  - destruct (computeIou_proper_returns (bbox d) (bbox best) Hd) as [v ->]. simpl.
    rewrite IH. simpl. eauto.
Qed.

Lemma nms_loop_proper_returns thr n :
  forall keep l, length l <= n ->
  Forall (fun d => proper_box (bbox d)) l -> exists out, nms_loop thr keep l = Ok out.
Proof.
  induction n as [|n IH]; intros keep l Hn Hl.
  - destruct l; [|simpl in Hn; lia]. simp nms_loop. eauto.
  - destruct l as [|best rest]; [simp nms_loop; eauto|].
    rewrite nms_loop_cons. inversion Hl as [|? ? _ Hrest]; subst.
    destruct (survivors_proper_returns thr best rest Hrest) as [rest' Es]. rewrite Es.
    apply IH.
    + apply survivors_length in Es. simpl in Hn. lia.
    + apply survivors_inv in Es as [_ Hs].
      apply Forall_forall. intros d Hd.
      apply (proj1 (Forall_forall _ _) Hrest).
      eapply elem_of_sublist; eassumption.
Qed.

(** On boxes of positive area no division by zero can occur, and
    [removeDuplicates] returns. *)
Lemma removeDuplicates_proper_returns (dets : list Detection) (thr : Q) :
  Forall (fun d => proper_box (bbox d)) dets ->
  exists keep, removeDuplicates dets thr = Ok keep.
Proof.
  intros H. rewrite removeDuplicates_eq.
  apply (nms_loop_proper_returns thr (length (sort_desc dets))); [lia|].
  now rewrite sort_desc_perm.
Qed.

(** C9 (as stated, refuted). Two detections that do not overlap at all
    are returned in a different order when the second one is the more
    confident. *)
Lemma removeDuplicates_reorders_input :
  non_overlapping [detLow; detHigh] 0.7 /\
  removeDuplicates [detLow; detHigh] 0.7 = Ok [detHigh; detLow] /\
  removeDuplicates [detLow; detHigh] 0.7 <> Ok [detLow; detHigh].
Proof.
  split; [|split; [reflexivity|discriminate]].
  intros i j a b Hij Ha Hb _.
  destruct i as [|[|i]]; destruct j as [|[|j]]; try lia; try discriminate;
    injection Ha as <-; injection Hb as <-;
    (exists 0%Q; split; [reflexivity|lra]).
Qed.

(** C9 (amended). On detections that do not overlap, [removeDuplicates]
    removes nothing: it returns all the input detections, stably sorted
    by descending confidence.  The result is the input list itself
    exactly when the input is already in non-increasing confidence
    order. *)
Theorem removeDuplicates_non_overlapping (dets : list Detection) (thr : Q) :
  non_overlapping dets thr ->
  removeDuplicates dets thr = Ok (sort_desc dets) /\
  sort_desc dets ≡ₚ dets /\
  (sort_desc dets = dets <-> sorted_desc dets).
Proof.
  intros H. split; [|split].
  - rewrite removeDuplicates_eq.
    apply (nms_loop_all thr (sort_desc dets) []).
    now apply Apart_Suppressed, Apart_sort_desc, non_overlapping_Apart.
  - apply sort_desc_perm.
  - split.
    + intros <-. apply sort_desc_sorted.
    + apply sort_desc_id.
Qed.

Lemma removeDuplicates_non_overlapping_witness :
  removeDuplicates [detLow; detHigh] 0.7 = Ok (sort_desc [detLow; detHigh]) /\
  sort_desc [detLow; detHigh] ≡ₚ [detLow; detHigh] /\
  (sort_desc [detLow; detHigh] = [detLow; detHigh] <-> sorted_desc [detLow; detHigh]).
Proof.
  apply (removeDuplicates_non_overlapping [detLow; detHigh] 0.7).
  intros i j a b Hij Ha Hb _.
  destruct i as [|[|i]]; destruct j as [|[|j]]; try lia; try discriminate;
    injection Ha as <-; injection Hb as <-;
    (exists 0%Q; split; [reflexivity|lra]).
Defined.

End NmsFacts.

(** ** Table normalisation (handlers/table_handler.py) *)

Module TableFacts.
Import PyStr TableHandler.

Lemma scan_rows (input : list Row) :
  forall (maxCols : nat) (cleaned : list (list (list N))),
  foldl scan_row (maxCols, cleaned) input =
  (maxCols `max` max_list (length <$> (clean_row <$> input)),
   cleaned ++ (clean_row <$> input)).
Proof.
  induction input as [|r input IH]; intros maxCols cleaned; simpl.
  - now rewrite Nat.max_0_r, app_nil_r.
  - destruct (maxCols <? length (clean_row r)) eqn:E; rewrite IH, <- app_assoc; simpl.
    + apply Nat.ltb_lt in E. f_equal. unfold fmap. lia.
    + apply Nat.ltb_ge in E. f_equal. unfold fmap. lia.
Qed.

Lemma max_list_bound (l : list nat) (n : nat) : n ∈ l -> n <= max_list l.
Proof.
  induction 1 as [n l|n m l _ IH]; simpl; lia.
Qed.

Lemma max_list_const (l : list nat) (w : nat) :
  l <> [] -> Forall (eq w) l -> max_list l = w.
Proof.
  intros Hne H. induction H as [|n l <- Hl IH]; [contradiction|].
  simpl. destruct l as [|m l]; [simpl; lia|].
  rewrite IH; [lia|discriminate].
Qed.

Lemma pad_row_length (w : nat) (row : list (list N)) :
  length row <= w -> length (pad_row w row) = w.
Proof. intros H. unfold pad_row. rewrite length_app, length_replicate. lia. Qed.

(** [_normalizeData] cleans every row and pads it to the widest one. *)
Lemma normalizeData_eq (input : list Row) :
  _normalizeData input =
  pad_row (max_list (length <$> (clean_row <$> input))) <$> (clean_row <$> input).
Proof.
  destruct input as [|r input]; [reflexivity|].
  unfold _normalizeData. rewrite scan_rows. rewrite Nat.max_0_l, app_nil_l.
  set (cleaned := clean_row <$> (r :: input)).
  destruct (max_list (length <$> cleaned) =? 0) eqn:E; [|reflexivity].
  apply Nat.eqb_eq in E. rewrite E.
  symmetry. rewrite <- (list_fmap_id cleaned) at 2.
  apply list_fmap_ext. intros i row Hrow. simpl.
  assert (length row <= 0) as Hlen.
  { rewrite <- E. apply max_list_bound.
    apply list_elem_of_fmap. exists row. split; [reflexivity|].
    eapply list_elem_of_lookup_2; eassumption. }
  destruct row; [reflexivity|simpl in Hlen; lia].
Qed.

Lemma normalizeData_width (input : list Row) :
  max_list (length <$> _normalizeData input) =
  max_list (length <$> (clean_row <$> input)).
Proof.
  rewrite normalizeData_eq.
  set (cleaned := clean_row <$> input).
  set (w := max_list (length <$> cleaned)).
  destruct (decide (cleaned = [])) as [Hnil|Hne].
  - subst w. now rewrite Hnil.
  - apply max_list_const.
    + intros H. apply fmap_nil_inv, fmap_nil_inv in H. contradiction.
    + apply Forall_fmap, Forall_fmap, Forall_forall. intros row Hrow. simpl.
      symmetry. apply pad_row_length, max_list_bound.
      apply list_elem_of_fmap. eauto.
Qed.

(** C8. For every list of rows, [_buildResult] reports as row count the
    number of rows and as column count the maximum row length, and its
    grid holds every row (cells trimmed, non-string cells emptied)
    right-padded with empty strings to that width; in particular rows
    [[[a,b,c],[d]]] of trimmed strings give 2 rows, 3 columns and the
    grid [[[a,b,c],[d,'','']]]. *)
Theorem buildResult_pads_ragged_rows
    {B : Type} (input : list (list Cell)) (bbox : B) (src : string) :
  let r := _buildResult (RowList <$> input) bbox src in
  let width := max_list (length <$> input) in
  rows r = length input /\
  columns r = width /\
  data r = (fun row => (clean_cell <$> row) ++ replicate (width - length row) []) <$> input /\
  Forall (fun row => length row = width) (data r) /\
  (forall a b c d : list N,
      input = [[CellStr a; CellStr b; CellStr c]; [CellStr d]] ->
      strip a = a -> strip b = b -> strip c = c -> strip d = d ->
      rows r = 2 /\ columns r = 3 /\ data r = [[a; b; c]; [d; []; []]]).
Proof.
  cbv zeta.
  assert (Hclean : clean_row <$> (RowList <$> input) = (fmap clean_cell) <$> input).
  { rewrite <- list_fmap_compose. reflexivity. }
  assert (Hlen : length <$> (clean_row <$> (RowList <$> input)) = length <$> input).
  { rewrite Hclean, <- list_fmap_compose. apply list_fmap_ext.
    intros i row _. simpl. apply length_fmap. }
  assert (Hdata :
    _normalizeData (RowList <$> input) =
    (fun row => (clean_cell <$> row) ++
                replicate (max_list (length <$> input) - length row) []) <$> input).
  { rewrite normalizeData_eq, Hlen, Hclean, <- list_fmap_compose.
    apply list_fmap_ext. intros i row _. simpl. unfold pad_row.
    now rewrite length_fmap. }
  assert (Hcols : columns (_buildResult (RowList <$> input) bbox src)
                  = max_list (length <$> input)).
  { simpl. now rewrite normalizeData_width, Hlen. }
  split; [|split; [|split; [|split]]].
  - simpl. now rewrite Hdata, length_fmap.
  - exact Hcols.
  - exact Hdata.
  - simpl. rewrite Hdata. apply Forall_fmap, Forall_forall. intros row Hrow. simpl.
    rewrite length_app, length_fmap, length_replicate.
    assert (length row <= max_list (length <$> input)); [|lia].
    apply max_list_bound, list_elem_of_fmap. eauto.
  - intros a b c d -> Ha Hb Hc Hd. simpl. unfold pad_row. simpl.
    now rewrite Ha, Hb, Hc, Hd.
Qed.

Lemma buildResult_pads_ragged_rows_witness :
  let r := _buildResult
             [RowList [CellStr (lit "a"); CellStr (lit "b"); CellStr (lit "c")];
              RowList [CellStr (lit "d")]] tt "pdfplumber" in
  rows r = 2 /\ columns r = 3 /\
  data r = [[lit "a"; lit "b"; lit "c"]; [lit "d"; []; []]].
Proof.
  apply (buildResult_pads_ragged_rows
           [[CellStr (lit "a"); CellStr (lit "b"); CellStr (lit "c")];
            [CellStr (lit "d")]] tt "pdfplumber");
    reflexivity.
Defined.

End TableFacts.

(** ** Formula fallback chain (handlers/formula_handler.py) *)

Module FormulaFacts.
Import PyStr Json Doc FormulaHandler.

(** Sample collaborators. *)
Definition plainShape : Shape :=
  mkShape 0 0 None true (Some (lit "x^2 + y = 5")) (Raise AttributeError).

Definition pictureShape : Shape :=
  mkShape 0 0 None false None (Ok [137; 80; 78; 71]%N).

Definition blankPage : Page :=
  mkPage 612 792 (fun _ => Ok [137; 80; 78; 71]%N).

Definition unitBox : NmsProcessor.Box := NmsProcessor.mkBox 0 0 1 1.

(** An AI client that answers every request with a JSON object whose
    [latex] entry is [null]. *)
Definition silentLLM : LLM :=
  mkLLM (fun _ => Ok (mkReply (lit "{'latex': null}") (Some (JObj [(lit "latex", JNull)])))).

(** An AI client that answers every request with the LaTeX [x^2]. *)
Definition helpfulLLM : LLM :=
  mkLLM (fun _ => Ok (mkReply (lit "{'latex': 'x^2'}")
                        (Some (JObj [(lit "latex", JStr (lit "x^2"))])))).

(** The two OMML layers never produce a result: [_ommlToLatex] and
    [_extractOmmlFromSlide] are stubs. *)
Lemma layer_omml_none (shape : Shape) : layer_omml shape = None.
Proof.
  unfold layer_omml. destruct (_extractOmml shape) as [[|c o]|]; reflexivity.
Qed.

Lemma layer_omml_slide_none (shape : Shape) (slideNum : Z) (filePath : list N) :
  layer_omml_slide shape slideNum filePath = None.
Proof.
  unfold layer_omml_slide. destruct (_ && _); reflexivity.
Qed.

Lemma handlePptx_eq (h : Handler) (shape : Shape) (slideNum : Z) (filePath : list N) :
  handlePptx h shape slideNum filePath =
  match layer_text h shape with
  | Some r => r
  | None => match layer_ocr h shape with
            | Some r => r
            | None => failed_record
            end
  end.
Proof.
  unfold handlePptx. now rewrite layer_omml_none, layer_omml_slide_none.
Qed.

Lemma layer_text_inv (h : Handler) (shape : Shape) (r : FormulaResult) :
  layer_text h shape = Some r ->
  r = mkResult (Some "formula")
        (text_latex (_extractFormulaFromText h (rawText shape))) None None "text_llm"
        (text_confidence (_extractFormulaFromText h (rawText shape))) NoError /\
  truthy (latex r) = true /\ rawText shape <> [] /\ is_Some (llm h).
Proof.
  unfold layer_text.
  destruct (has_text_frame shape); simpl; [|discriminate].
  destruct (bool_decide (is_Some (llm h))) eqn:El; [|discriminate].
  apply bool_decide_eq_true in El.
  destruct (rawText shape) as [|c txt] eqn:Et; [discriminate|].
  destruct (truthy (text_latex _)) eqn:Etr; [|discriminate].
  destruct (verbose h && _); [discriminate|].
  intros [= <-]. simpl.
  split; [reflexivity|split; [exact Etr|split; [discriminate|exact El]]].
Qed.

Lemma text_heuristic_truthy (txt : list N) :
  truthy (text_latex (text_heuristic txt)) = true ->
  exists s, simpleTextToLatex txt = Some s /\
            text_latex (text_heuristic txt) = JStr s /\
            text_confidence (text_heuristic txt) = 0.6%Q.
Proof.
  unfold text_heuristic. simpl.
  destruct (simpleTextToLatex txt) as [[|c s]|]; simpl; try discriminate.
  intros _. eauto.
Qed.

(** The OCR result has confidence 0 whenever its LaTeX is falsy. *)
Lemma extractFormula_falsy (h : Handler) (imageBytes : list N) (src : string) :
  truthy (ocr_latex (_extractFormula h imageBytes src)) = false ->
  ocr_confidence (_extractFormula h imageBytes src) = 0%Q.
Proof.
  unfold _extractFormula, _extractFormula_try.
  destruct (llm h) as [l|]; [|reflexivity].
  destruct (chat l (DescribeFormula imageBytes)) as [resp|e]; simpl; [|reflexivity].
  destruct (reply_json resp) as [parsed|]; [|reflexivity].
  destruct parsed; simpl; try reflexivity.
  destruct (truthy (obj_get (lit "latex") JNull fields)) eqn:Et; simpl.
  - destruct (obj_get (lit "latex") JNull fields); simpl; try reflexivity.
    simpl in Et. intros H. simpl in H. congruence.
  - reflexivity.
Qed.

(** The result records no formula: neither LaTeX nor MathML. *)
Definition no_formula (r : FormulaResult) : Prop :=
  truthy (latex r) = false /\ nonempty (mathml r) = false.

(** C6 (as stated, refuted). A PDF formula region handled without an AI
    client, and a picture shape whose OCR reply carries no LaTeX: no
    layer yields a formula, yet the record is not the ["failed"] one and,
    for the PDF region, has a null error. *)
Lemma formula_failure_not_always_failed_record :
  let r := handlePdf (mkHandler None true) blankPage unitBox 1 in
  let r' := handlePptx (mkHandler (Some silentLLM) true) pictureShape 1 (lit "deck.pptx") in
  (no_formula r /\ source r = "ocr_no_llm" /\ source r <> "failed" /\ error r = NoError) /\
  (no_formula r' /\ source r' = "ocr" /\ source r' <> "failed").
Proof.
  cbv zeta. repeat split; try reflexivity; discriminate.
Qed.

(** C6 (amended). When no layer yields a formula the record has
    confidence 0.0 and a null or empty LaTeX.  [handlePptx] returns the
    ["failed"] record (null LaTeX, error "No extraction method
    succeeded") exactly when the OCR layer cannot run, i.e. there is no
    AI client or reading the shape's image raises; when the OCR layer
    runs the record has source ["ocr"] and error ["no_latex"].
    [handlePdf] never returns source ["failed"]: it returns
    ["ocr_no_llm"] with a null error when there is no AI client,
    ["ocr"] with error ["no_latex"] when the OCR reply has no LaTeX, and
    ["pdf_error"] with the exception text when rendering raises. *)
Theorem formula_failure_records (h : Handler) :
  (forall (shape : Shape) (slideNum : Z) (filePath : list N),
     let r := handlePptx h shape slideNum filePath in
     no_formula r ->
     confidence r = 0%Q /\
     ((r = failed_record /\ (llm h = None \/ exists e, image_blob shape = Raise e)) \/
      (source r = "ocr" /\ error r = ErrorMsg "no_latex" /\
       is_Some (llm h) /\ exists bytes, image_blob shape = Ok bytes))) /\
  (forall (page : Page) (bbox : NmsProcessor.Box) (scale : Q),
     let r := handlePdf h page bbox scale in
     no_formula r ->
     confidence r = 0%Q /\ source r <> "failed" /\
     ((source r = "ocr_no_llm" /\ latex r = JNull /\ error r = NoError /\ llm h = None) \/
      (source r = "ocr" /\ error r = ErrorMsg "no_latex" /\ is_Some (llm h)) \/
      (exists e, source r = "pdf_error" /\ latex r = JNull /\ error r = ErrorOf e /\
                 render_png page (scaled_rect bbox scale) = Raise e))).
Proof.
  split.
  - intros shape slideNum filePath. cbv zeta. rewrite handlePptx_eq.
    destruct (layer_text h shape) as [r|] eqn:Et.
    { apply layer_text_inv in Et as (_ & Htr & _). intros [Hf _]. congruence. }
    unfold layer_ocr. destruct (llm h) as [l|] eqn:El.
    + destruct (image_blob shape) as [bytes|e] eqn:Ei.
      * intros [Hf _]. simpl in Hf. split.
        -- simpl. now apply extractFormula_falsy.
        -- right. simpl. rewrite Hf. repeat split; eauto.
      * intros _. split; [reflexivity|]. left. split; [reflexivity|]. right. eauto.
    + intros _. split; [reflexivity|]. left. split; [reflexivity|]. now left.
  - intros page bbox scale. cbv zeta. unfold handlePdf.
    destruct (render_png page (scaled_rect bbox scale)) as [bytes|e] eqn:Er.
    + destruct (llm h) as [l|] eqn:El.
      * intros [Hf _]. simpl in Hf. split; [|split].
        -- simpl. now apply extractFormula_falsy.
        -- discriminate.
        -- right. left. simpl. rewrite Hf. repeat split; eauto.
      * intros _. split; [reflexivity|]. split; [discriminate|]. left. repeat split.
    + intros _. split; [reflexivity|]. split; [discriminate|]. right. right.
      exists e. repeat split.
Qed.

Lemma formula_failure_records_witness :
  let r := handlePptx (mkHandler None true) pictureShape 1 (lit "deck.pptx") in
  let r' := handlePdf (mkHandler None true) blankPage unitBox 1 in
  (no_formula r /\ confidence r = 0%Q /\ r = failed_record) /\
  (no_formula r' /\ confidence r' = 0%Q /\ source r' <> "failed").
Proof.
  cbv zeta.
  destruct (formula_failure_records (mkHandler None true)) as [Hpptx Hpdf].
  split.
  - assert (Hno : no_formula (handlePptx (mkHandler None true) pictureShape 1 (lit "deck.pptx")))
      by (split; reflexivity).
    destruct (Hpptx pictureShape 1%Z (lit "deck.pptx") Hno) as [Hc _].
    split; [exact Hno|]. split; [exact Hc|reflexivity].
  - assert (Hno : no_formula (handlePdf (mkHandler None true) blankPage unitBox 1))
      by (split; reflexivity).
    destruct (Hpdf blankPage unitBox 1%Q Hno) as (Hc & Hs & _).
    split; [exact Hno|]. split; [exact Hc|exact Hs].
Defined.

(** C7 (as stated, refuted). The shape carries the text [x^2 + y = 5],
    an AI client is available but its reply has no LaTeX; the local
    heuristic supplies it and the record has source ["text_llm"] with
    confidence 0.6. *)
Lemma text_llm_with_heuristic_confidence :
  let r := handlePptx (mkHandler (Some silentLLM) true) plainShape 1 (lit "deck.pptx") in
  source r = "text_llm" /\ latex r = JStr (lit "x^2 + y = 5") /\
  confidence r = 0.6%Q /\ ~ (confidence r == 0.9)%Q.
Proof.
  cbv zeta. repeat split. discriminate.
Qed.

(** C7 (amended). A record with source ["text_llm"] has confidence 0.9
    when the AI client's reply supplied the LaTeX, and confidence 0.6
    when the reply supplied none (or the call failed) and the LaTeX comes
    from [simpleTextToLatex]. *)
Theorem text_llm_confidence
    (h : Handler) (shape : Shape) (slideNum : Z) (filePath : list N) :
  let r := handlePptx h shape slideNum filePath in
  source r = "text_llm" ->
  truthy (latex r) = true /\
  ((ask_latex h (rawText shape) = Ok (latex r) /\ confidence r = 0.9%Q) \/
   ((forall v, ask_latex h (rawText shape) = Ok v -> truthy v = false) /\
    (exists s, simpleTextToLatex (rawText shape) = Some s /\ latex r = JStr s) /\
    confidence r = 0.6%Q)).
Proof.
  cbv zeta. rewrite handlePptx_eq.
  destruct (layer_text h shape) as [r|] eqn:Et.
  - intros _. apply layer_text_inv in Et as (-> & Htr & _ & _). simpl in *.
    split; [assumption|].
    unfold _extractFormulaFromText in *.
    destruct (ask_latex h (rawText shape)) as [v|e] eqn:Ea.
    + destruct (truthy v) eqn:Ev.
      * left. simpl. split; reflexivity.
      * right. apply text_heuristic_truthy in Htr as (s & Hs & Hl & Hc).
        split; [|split; [eauto|assumption]].
        intros v' [= <-]. assumption.
    + right. apply text_heuristic_truthy in Htr as (s & Hs & Hl & Hc).
      split; [|split; [eauto|assumption]].
      intros v' [=].
  - unfold layer_ocr. destruct (llm h); [destruct (image_blob shape)|]; discriminate.
Qed.

Lemma text_llm_confidence_witness :
  let r := handlePptx (mkHandler (Some helpfulLLM) true) plainShape 1 (lit "deck.pptx") in
  truthy (latex r) = true /\
  ((ask_latex (mkHandler (Some helpfulLLM) true) (rawText plainShape) = Ok (latex r) /\
    confidence r = 0.9%Q) \/
   ((forall v, ask_latex (mkHandler (Some helpfulLLM) true) (rawText plainShape) = Ok v ->
               truthy v = false) /\
    (exists s, simpleTextToLatex (rawText plainShape) = Some s /\ latex r = JStr s) /\
    confidence r = 0.6%Q)).
Proof.
  apply (text_llm_confidence (mkHandler (Some helpfulLLM) true) plainShape 1 (lit "deck.pptx")).
  reflexivity.
Defined.

End FormulaFacts.

(** ** Extraction dispatcher (extractor/content_extractor.py) *)

Module ExtractorFacts.
Import NmsProcessor Doc ContentExtractor.

Lemma forM_fmap {A B : Type} (f : A -> B) (l : list A) :
  forM (fun x => Ok (f x)) l = Ok (f <$> l).
Proof. induction l as [|x l IH]; simpl; [reflexivity|]. now rewrite IH. Qed.

Lemma forM_length {A B : Type} (body : A -> result B) (l : list A) (out : list B) :
  forM body l = Ok out -> length out = length l.
Proof.
  revert out. induction l as [|x l IH]; intros out; simpl.
  - now intros [= <-].
  - destruct (body x) as [y|e]; simpl; [|discriminate].
    destruct (forM body l) as [ys|e]; simpl; [|discriminate].
    intros [= <-]. simpl. f_equal. now apply IH.
Qed.

Lemma forM_Forall2 {A B : Type} (body : A -> result B) (l : list A) (out : list B) :
  forM body l = Ok out -> Forall2 (fun x y => body x = Ok y) l out.
Proof.
  revert out. induction l as [|x l IH]; intros out; simpl.
  - intros [= <-]. constructor.
  - destruct (body x) as [y|e] eqn:E; simpl; [|discriminate].
    destruct (forM body l) as [ys|e]; simpl; [|discriminate].
    intros [= <-]. constructor; [assumption|]. now apply IH.
Qed.

Section FuturesFacts.
Context {Content : Type}.
Implicit Types (fs : Futures Content) (sched : list nat).

(** The outcome that future [f] has or will have. *)
Definition outcome_of fs (f : nat) : option (result Content) := fst <$> fs !! f.

(** Every task that is still running finishes at some point of [sched]. *)
Definition covering fs sched : Prop :=
  forall (f : nat) (o : result Content), fs !! f = Some (o, false) -> f ∈ sched.

Lemma complete_outcome fs (c f : nat) : outcome_of (complete c fs) f = outcome_of fs f.
Proof.
  unfold outcome_of, complete.
  destruct (decide (c = f)) as [->|Hne].
  - rewrite list_lookup_alter_eq. now destruct (fs !! f).
  - now rewrite list_lookup_alter_ne.
Qed.

Lemma complete_pending fs (c f : nat) (o : result Content) :
  complete c fs !! f = Some (o, false) -> c <> f /\ fs !! f = Some (o, false).
Proof.
  unfold complete. destruct (decide (c = f)) as [->|Hne].
  - rewrite list_lookup_alter_eq. destruct (fs !! f) as [[o' b]|]; simpl; discriminate.
  - rewrite list_lookup_alter_ne by assumption. auto.
Qed.

Lemma covering_complete fs (c : nat) sched :
  covering fs (c :: sched) -> covering (complete c fs) sched.
Proof.
  intros H f o Hf. apply complete_pending in Hf as [Hne Hf].
  apply H in Hf. apply elem_of_cons in Hf as [->|Hf]; [contradiction|assumption].
Qed.

(** [future.result()] returns the outcome of the future whatever the
    order in which the workers finish, as long as they finish. *)
Lemma future_result_outcome (f : nat) (o : result Content) sched :
  forall fs,
  outcome_of fs f = Some o -> covering fs sched ->
  exists fs' sched',
    future_result f fs sched = Some (o, fs', sched') /\
    (forall g, outcome_of fs' g = outcome_of fs g) /\ covering fs' sched'.
Proof.
  induction sched as [|c sched IH]; intros fs Ho Hcov.
  - unfold outcome_of in Ho. destruct (fs !! f) as [[o' b]|] eqn:Ef; [|discriminate].
    injection Ho as ->. destruct b.
    + exists fs, []. simpl. rewrite Ef. auto.
    + apply Hcov in Ef. inversion Ef.
  - simpl. pose proof Ho as Ho'. unfold outcome_of in Ho'.
    destruct (fs !! f) as [[o' b]|] eqn:Ef; [|discriminate].
    injection Ho' as ->. destruct b.
    + exists fs, (c :: sched). auto.
    + destruct (IH (complete c fs)) as (fs' & sched' & Hr & Hout & Hcov').
      * now rewrite complete_outcome.
      * now apply covering_complete.
      * exists fs', sched'. split; [assumption|]. split; [|assumption].
        intros g. now rewrite Hout, complete_outcome.
Qed.

End FuturesFacts.

(** *** The three passes *)

Section DispatchFacts.
Context {Content PageIn ElemIn Ctx Meta : Type}.
Variable number : PageIn -> Z.
Variable enter : PageIn -> result Ctx.
Variable elements : PageIn -> list ElemIn.
Variable describe : Ctx -> ElemIn -> option Meta.
Variable is_image : Meta -> bool.
Variable has_async : bool.
Variable submit : Meta -> result (AsyncStart Content).
Variable run_sync : Z -> Meta -> result Content.

Local Abbreviation Elem := (Meta * option Content)%type.
Local Abbreviation step := (first_pass_elem describe is_image has_async submit).
Local Abbreviation page_step :=
  (first_pass_page number enter elements describe is_image has_async submit).
Local Abbreviation pass1 :=
  (first_pass number enter elements describe is_image has_async submit).
Local Abbreviation pass2 := (second_pass (Meta := Meta) is_image run_sync).
Local Abbreviation run :=
  (dispatch number enter elements describe is_image has_async submit run_sync).

Implicit Types (meta : list (Z * list Elem)) (fs : Futures Content)
  (imgs : list (Z * nat * nat)) (acc es : list Elem).

(** The pages and elements that reach the output, in document order:
    every page in turn, and of each page the elements that the first
    pass does not skip. *)
Definition described (pages : list PageIn) : result (list (Z * list Meta)) :=
  forM (fun p : PageIn =>
          ctx ← enter p; Ok (number p, omap (describe ctx) (elements p))) pages.

(** The page numbers and static entries of the metadata. *)
Definition skeleton (meta : list (Z * list Elem)) : list (Z * list Meta) :=
  (fun p : Z * list Elem => (p.1, fst <$> p.2)) <$> meta.

(** The element list that the third pass finds for page number [n]. *)
Fixpoint lookup_page (n : Z) (meta : list (Z * list Elem)) : option (list Elem) :=
  match meta with
  | [] => None
  | p :: rest => if (p.1 =? n)%Z then Some p.2 else lookup_page n rest
  end.

Lemma step_skeleton (num : Z) (ctx : Ctx) (elems : list ElemIn) :
  forall fs imgs acc,
  fst <$> (foldl (step num ctx) (fs, imgs, acc) elems).2 =
  (fst <$> acc) ++ omap (describe ctx) elems.
Proof.
  induction elems as [|elem elems IH]; intros fs imgs acc; simpl.
  - now rewrite app_nil_r.
  - destruct (describe ctx elem) as [m|]; [|apply IH].
    destruct (is_image m && has_async).
    + destruct (submit m) as [start|e]; rewrite IH, fmap_app, <- app_assoc; reflexivity.
    + rewrite IH, fmap_app, <- app_assoc; reflexivity.
Qed.

Lemma page_step_eq (st : Pass1) (p : PageIn) :
  page_step st p =
  match enter p with
  | Raise e => Raise e
  | Ok ctx =>
      let r := foldl (step (number p) ctx) (futs st, imageFutures st, []) (elements p) in
      Ok (mkPass1 r.1.1 r.1.2 (elementsMetadata st ++ [(number p, r.2)]))
  end.
Proof.
  unfold first_pass_page. destruct (enter p) as [ctx|e]; simpl; [|reflexivity].
  destruct (foldl _ _ (elements p)) as [[fs imgs] acc]. reflexivity.
Qed.

Lemma pass1_skeleton (pages : list PageIn) :
  forall st : Pass1,
  (fun st' => skeleton (elementsMetadata st')) <$> foldM page_step st pages =
  (fun d => skeleton (elementsMetadata st) ++ d) <$> described pages.
Proof.
  induction pages as [|p pages IH]; intros st.
  - simpl. now rewrite app_nil_r.
  - cbn [foldM]. rewrite page_step_eq. unfold described. cbn [forM].
    destruct (enter p) as [ctx|e]; simpl; [|reflexivity].
    rewrite IH. simpl. unfold skeleton at 1. rewrite fmap_app. simpl.
    rewrite step_skeleton. simpl.
    fold (described pages). destruct (described pages) as [d|e]; simpl; [|reflexivity].
    now rewrite <- app_assoc.
Qed.

Lemma pass2_elem_meta (n : Z) (e e2 : Elem) :
  second_pass_elem is_image run_sync n e = Ok e2 -> e2.1 = e.1.
Proof.
  unfold second_pass_elem. destruct (negb (is_image e.1)); [|now intros [= <-]].
  destruct (run_sync n e.1); simpl; [|discriminate]. now intros [= <-].
Qed.

Lemma pass2_Forall2 meta meta2 :
  pass2 meta = Ok meta2 ->
  Forall2 (fun p p2 : Z * list Elem =>
             p2.1 = p.1 /\
             Forall2 (fun e e2 => second_pass_elem is_image run_sync p.1 e = Ok e2) p.2 p2.2)
    meta meta2.
Proof.
  unfold second_pass. intros H. apply forM_Forall2 in H.
  eapply Forall2_impl; [exact H|]. intros p p2 Hp. simpl in Hp.
  destruct (forM (second_pass_elem is_image run_sync p.1) p.2) as [es|e] eqn:E;
    simpl in Hp; [|discriminate].
  injection Hp as <-. simpl. split; [reflexivity|]. now apply forM_Forall2.
Qed.

Lemma pass2_skeleton meta meta2 : pass2 meta = Ok meta2 -> skeleton meta2 = skeleton meta.
Proof.
  intros H. apply pass2_Forall2 in H. unfold skeleton.
  induction H as [|p p2 meta meta2 [Hn Hp] _ IH]; [reflexivity|].
  rewrite !fmap_cons. f_equal; [|exact IH]. rewrite Hn. f_equal.
  clear -Hp. induction Hp as [|e e2 es es2 He _ IH]; [reflexivity|].
  rewrite !fmap_cons. f_equal; [|exact IH]. eapply pass2_elem_meta; eassumption.
Qed.

Lemma store_content_skeleton (n : Z) (i : nat) (v : Content) meta meta' :
  store_content n i v meta = Ok meta' -> skeleton meta' = skeleton meta.
Proof.
  revert meta'. induction meta as [|p meta IH]; intros meta'; simpl.
  - now intros [= <-].
  - destruct (p.1 =? n)%Z.
    + destruct (p.2 !! i) as [e|] eqn:Ei; [|discriminate].
      intros [= <-]. unfold skeleton. simpl. f_equal. f_equal.
      rewrite list_fmap_insert. simpl. apply list_insert_id.
      rewrite list_lookup_fmap, Ei. reflexivity.
    + destruct (store_content n i v meta) as [rest|e]; simpl; [|discriminate].
      intros [= <-]. unfold skeleton in *. simpl. f_equal. now apply IH.
Qed.

Lemma pass3_skeleton imgs :
  forall meta fs sched out,
  third_pass imgs meta fs sched = Some (Ok out) -> skeleton out = skeleton meta.
Proof.
  induction imgs as [|[[n i] f] imgs IH]; intros meta fs sched out; simpl.
  - now intros [= <-].
  - destruct (has_page n meta); [|apply IH].
    destruct (future_result f fs sched) as [[[[v|e] fs'] sched']|]; try discriminate.
    destruct (store_content n i v meta) as [meta'|e] eqn:Es; [|discriminate].
    intros H. apply IH in H. rewrite H. eapply store_content_skeleton; eassumption.
Qed.

(** The output of the dispatcher has the pages and the elements of the
    input in document order, whatever the schedule. *)
Lemma dispatch_skeleton (pages : list PageIn) (sched : list nat)
    (out : list (Z * list Elem)) :
  run pages sched = Some (Ok out) -> described pages = Ok (skeleton out).
Proof.
  unfold dispatch, first_pass.
  pose proof (pass1_skeleton pages (mkPass1 [] [] [])) as H1.
  destruct (foldM page_step _ pages) as [st|e]; [|discriminate].
  destruct (pass2 (elementsMetadata st)) as [meta|e] eqn:E2; [|discriminate].
  intros H3. apply pass3_skeleton in H3. apply pass2_skeleton in E2.
  destruct (described pages) as [d|e]; cbv [fmap result_fmap] in H1; [|discriminate H1].
  injection H1 as H1. simpl in H1. congruence.
Qed.

(** *** Which future belongs to which element *)

Definition start_outcome (start : AsyncStart Content) : result Content :=
  match start with
  | Ready v => Ok v
  | Spawned outcome => outcome
  end.

(** The entry [(n, i, f)] of [imageFutures] points at an image element
    (element [i] of the page found for number [n]) and [f] is the future
    that was started for that very element. *)
Definition valid_entry fs meta (entry : Z * nat * nat) : Prop :=
  exists es m start,
    lookup_page entry.1.1 meta = Some es /\ es !! entry.1.2 = Some (m, None) /\
    is_image m = true /\ has_async = true /\ submit m = Ok start /\
    outcome_of fs entry.2 = Some (start_outcome start).

(** Every element is still without content, and every image element whose
    task could be started has an entry. *)
Definition all_submitted imgs meta : Prop :=
  forall n es i m c,
    lookup_page n meta = Some es -> es !! i = Some (m, c) ->
    c = None /\
    (is_image m = true -> has_async = true ->
     forall start, submit m = Ok start -> exists f, (n, i, f) ∈ imgs).

Definition Inv fs imgs meta : Prop :=
  Forall (valid_entry fs meta) imgs /\ all_submitted imgs meta.

Lemma lookup_page_Some (n : Z) meta es : lookup_page n meta = Some es -> n ∈ meta.*1.
Proof.
  induction meta as [|p meta IH]; simpl; [discriminate|].
  destruct (p.1 =? n)%Z eqn:E.
  - apply Z.eqb_eq in E. intros _. rewrite <- E. apply elem_of_cons. now left.
  - intros H. apply elem_of_cons. right. now apply IH.
Qed.

Lemma lookup_page_snoc (n num : Z) meta acc :
  lookup_page n (meta ++ [(num, acc)]) =
  match lookup_page n meta with
  | Some es => Some es
  | None => if (num =? n)%Z then Some acc else None
  end.
Proof.
  induction meta as [|p meta IH]; simpl; [reflexivity|].
  destruct (p.1 =? n)%Z; [reflexivity|exact IH].
Qed.

Lemma lookup_page_NoDup (n : Z) meta es :
  NoDup meta.*1 -> (n, es) ∈ meta -> lookup_page n meta = Some es.
Proof.
  induction meta as [|p meta IH]; intros Hnd Hin; [inversion Hin|].
  rewrite fmap_cons in Hnd. apply NoDup_cons in Hnd as [Hp Hnd].
  apply elem_of_cons in Hin as [<-|Hin]; simpl.
  - now rewrite Z.eqb_refl.
  - destruct (p.1 =? n)%Z eqn:E; [|now apply IH].
    apply Z.eqb_eq in E. exfalso. apply Hp. rewrite E.
    apply list_elem_of_fmap. exists (n, es). auto.
Qed.

Lemma outcome_of_app fs (x : result Content * bool) (f : nat) (o : result Content) :
  outcome_of fs f = Some o -> outcome_of (fs ++ [x]) f = Some o.
Proof.
  unfold outcome_of. intros H.
  destruct (fs !! f) as [y|] eqn:E; [|discriminate].
  now rewrite (lookup_app_l_Some _ _ _ _ E).
Qed.

Lemma outcome_of_new fs (start : AsyncStart Content) :
  outcome_of (new_future start fs).2 (new_future start fs).1 = Some (start_outcome start).
Proof.
  unfold outcome_of, new_future. simpl.
  rewrite lookup_app_r by lia. rewrite Nat.sub_diag. simpl. now destruct start.
Qed.

(** Appending an element to the page under construction keeps the
    entries valid. *)
Lemma valid_entry_grow fs fs' meta (num : Z) acc (e : Elem) (entry : Z * nat * nat) :
  (forall f o, outcome_of fs f = Some o -> outcome_of fs' f = Some o) ->
  valid_entry fs (meta ++ [(num, acc)]) entry ->
  valid_entry fs' (meta ++ [(num, acc ++ [e])]) entry.
Proof.
  intros Hfs (es & m & start & Hl & Hi & Him & Has & Hs & Ho).
  rewrite lookup_page_snoc in Hl.
  destruct (lookup_page entry.1.1 meta) as [es'|] eqn:El.
  - injection Hl as ->. exists es, m, start.
    rewrite lookup_page_snoc, El. auto 10.
  - destruct (num =? entry.1.1)%Z eqn:E; [|discriminate]. injection Hl as ->.
    exists (es ++ [e]), m, start. rewrite lookup_page_snoc, El, E.
    split; [reflexivity|]. split; [now apply lookup_app_l_Some|]. auto.
Qed.

Lemma step_inv (num : Z) (ctx : Ctx) meta (elem : ElemIn) fs imgs acc :
  num ∉ meta.*1 ->
  Inv fs imgs (meta ++ [(num, acc)]) ->
  let st' := step num ctx (fs, imgs, acc) elem in
  Inv st'.1.1 st'.1.2 (meta ++ [(num, st'.2)]).
Proof.
  intros Hnum [Hval Hall]. cbv zeta. unfold first_pass_elem.
  destruct (describe ctx elem) as [m|]; [|split; assumption].
  assert (Hnone : lookup_page num meta = None).
  { destruct (lookup_page num meta) eqn:E; [|reflexivity].
    apply lookup_page_Some in E. contradiction. }
  (* the element list of any page after the append *)
  assert (Hgrow : forall n es i m' c imgs',
    (forall x, x ∈ imgs -> x ∈ imgs') ->
    (is_image m = true -> has_async = true -> forall start, submit m = Ok start ->
       exists f, (num, length acc, f) ∈ imgs') ->
    lookup_page n (meta ++ [(num, acc ++ [(m, None)])]) = Some es ->
    es !! i = Some (m', c) ->
    c = None /\
    (is_image m' = true -> has_async = true ->
     forall start, submit m' = Ok start -> exists f, (n, i, f) ∈ imgs')).
  { intros n es i m' c imgs' Hsub Hnew Hl Hi.
    rewrite lookup_page_snoc in Hl.
    destruct (lookup_page n meta) as [es'|] eqn:El.
    - injection Hl as ->.
      destruct (Hall n es i m' c) as [Hc Hf]; [now rewrite lookup_page_snoc, El|assumption|].
      split; [assumption|]. intros H1 H2 start H3.
      destruct (Hf H1 H2 start H3) as [f Hf']. eauto.
    - destruct (num =? n)%Z eqn:E; [|discriminate]. injection Hl as <-.
      apply Z.eqb_eq in E. subst n.
      destruct (decide (i < length acc)%nat) as [Hlt|Hge].
      + rewrite lookup_app_l in Hi by assumption.
        destruct (Hall num acc i m' c) as [Hc Hf];
          [now rewrite lookup_page_snoc, El, Z.eqb_refl|assumption|].
        split; [assumption|]. intros H1 H2 start H3.
        destruct (Hf H1 H2 start H3) as [f Hf']. eauto.
      + rewrite lookup_app_r in Hi by lia.
        destruct (i - length acc)%nat as [|k] eqn:Ek; [|destruct k; discriminate].
        injection Hi as <- <-. split; [reflexivity|].
        assert (i = length acc) as -> by lia. assumption. }
  destruct (is_image m && has_async) eqn:Ea.
  - apply andb_true_iff in Ea as [Him Has].
    destruct (submit m) as [start|e] eqn:Es.
    + pose proof (outcome_of_new fs start) as Hnew.
      destruct (new_future start fs) as [future fs'] eqn:Enf. simpl in *.
      assert (Hfs : forall f o, outcome_of fs f = Some o -> outcome_of fs' f = Some o).
      { intros f o Ho. unfold new_future in Enf. injection Enf as _ <-.
        now apply outcome_of_app. }
      rewrite length_app. simpl. replace (length acc + 1 - 1)%nat with (length acc) by lia.
      split.
      * apply Forall_app. split.
        -- eapply Forall_impl; [exact Hval|]. intros entry. now apply valid_entry_grow.
        -- constructor; [|constructor].
           exists (acc ++ [(m, None)]), m, start. simpl.
           rewrite lookup_page_snoc, Hnone, Z.eqb_refl.
           split; [reflexivity|]. split; [|auto].
           rewrite lookup_app_r by lia. now rewrite Nat.sub_diag.
      * intros n es i m' c. apply Hgrow.
        -- intros x Hx. apply elem_of_app. now left.
        -- intros _ _ _ _. exists future. apply elem_of_app. right.
           apply list_elem_of_singleton. reflexivity.
    + simpl. split.
      * eapply Forall_impl; [exact Hval|]. intros entry. now apply valid_entry_grow.
      * intros n es i m' c. apply Hgrow; [auto|].
        intros _ _ start Hs. congruence.
  - simpl. split.
    + eapply Forall_impl; [exact Hval|]. intros entry. now apply valid_entry_grow.
    + intros n es i m' c. apply Hgrow; [auto|].
      intros H1 H2. rewrite H1, H2 in Ea. discriminate.
Qed.

Lemma elems_inv (num : Z) (ctx : Ctx) meta (elems : list ElemIn) :
  forall fs imgs acc,
  num ∉ meta.*1 ->
  Inv fs imgs (meta ++ [(num, acc)]) ->
  let r := foldl (step num ctx) (fs, imgs, acc) elems in
  Inv r.1.1 r.1.2 (meta ++ [(num, r.2)]).
Proof.
  induction elems as [|elem elems IH]; intros fs imgs acc Hnum HI; [exact HI|].
  cbn [foldl]. pose proof (step_inv num ctx meta elem fs imgs acc Hnum HI) as Hstep.
  cbv zeta in Hstep. destruct (step num ctx (fs, imgs, acc) elem) as [[fs' imgs'] acc'].
  now apply IH.
Qed.

Lemma Inv_open fs imgs meta (num : Z) : Inv fs imgs meta -> Inv fs imgs (meta ++ [(num, [])]).
Proof.
  intros [Hval Hall]. split.
  - eapply Forall_impl; [exact Hval|].
    intros entry (es & m & start & Hl & Hrest). exists es, m, start.
    rewrite lookup_page_snoc, Hl. auto.
  - intros n es i m c Hl Hi. rewrite lookup_page_snoc in Hl.
    destruct (lookup_page n meta) as [es'|] eqn:El.
    + injection Hl as ->. eapply Hall; eassumption.
    + destruct (num =? n)%Z; [|discriminate]. injection Hl as <-.
      rewrite lookup_nil in Hi. discriminate.
Qed.

Lemma page_inv (st st' : Pass1) (p : PageIn) :
  page_step st p = Ok st' ->
  number p ∉ (elementsMetadata st).*1 ->
  Inv (futs st) (imageFutures st) (elementsMetadata st) ->
  Inv (futs st') (imageFutures st') (elementsMetadata st') /\
  (elementsMetadata st').*1 = (elementsMetadata st).*1 ++ [number p].
Proof.
  rewrite page_step_eq. destruct (enter p) as [ctx|e]; [|discriminate].
  cbv zeta. intros [= <-] Hnum HI. simpl. split.
  - apply (elems_inv (number p) ctx (elementsMetadata st) (elements p)); [assumption|].
    now apply Inv_open.
  - now rewrite fmap_app.
Qed.

Lemma pass1_inv (pages : list PageIn) :
  forall st st' : Pass1,
  foldM page_step st pages = Ok st' ->
  NoDup ((elementsMetadata st).*1 ++ (number <$> pages)) ->
  Inv (futs st) (imageFutures st) (elementsMetadata st) ->
  Inv (futs st') (imageFutures st') (elementsMetadata st') /\
  (elementsMetadata st').*1 = (elementsMetadata st).*1 ++ (number <$> pages).
Proof.
  induction pages as [|p pages IH]; intros st st' Hrun Hnd HI.
  - injection Hrun as <-. simpl. now rewrite app_nil_r.
  - cbn [foldM] in Hrun.
    destruct (page_step st p) as [st1|e] eqn:E1; [|discriminate]. simpl in Hrun.
    rewrite fmap_cons in Hnd.
    assert (Hp : number p ∉ (elementsMetadata st).*1).
    { apply NoDup_app in Hnd as (_ & Hdis & _). intros Hin.
      apply (Hdis _ Hin). apply elem_of_cons. now left. }
    destruct (page_inv st st1 p E1 Hp HI) as [HI1 Hn1].
    destruct (IH st1 st' Hrun) as [HI' Hn'].
    + rewrite Hn1, <- app_assoc. exact Hnd.
    + exact HI1.
    + split; [exact HI'|]. rewrite Hn', Hn1, <- app_assoc, fmap_cons. reflexivity.
Qed.

(** *** After the second pass *)

Definition Inv2 fs imgs meta : Prop :=
  Forall (valid_entry fs meta) imgs /\
  forall n es i m c,
    lookup_page n meta = Some es -> es !! i = Some (m, c) ->
    if is_image m then
      c = None /\
      (has_async = true -> forall start, submit m = Ok start -> exists f, (n, i, f) ∈ imgs)
    else exists v, run_sync n m = Ok v /\ c = Some v.

Lemma pass2_lookup meta meta2 (n : Z) :
  pass2 meta = Ok meta2 ->
  match lookup_page n meta, lookup_page n meta2 with
  | Some es, Some es2 =>
      Forall2 (fun e e2 => second_pass_elem is_image run_sync n e = Ok e2) es es2
  | None, None => True
  | _, _ => False
  end.
Proof.
  intros H. apply pass2_Forall2 in H.
  induction H as [|p p2 meta meta2 [Hn Hp] _ IH]; simpl; [trivial|].
  rewrite Hn. destruct (p.1 =? n)%Z eqn:E; [|exact IH].
  apply Z.eqb_eq in E. now rewrite <- E.
Qed.

Lemma pass2_inv fs imgs meta meta2 :
  Inv fs imgs meta -> pass2 meta = Ok meta2 -> Inv2 fs imgs meta2.
Proof.
  intros [Hval Hall] H2. split.
  - eapply Forall_impl; [exact Hval|].
    intros entry (es & m & start & Hl & Hi & Him & Hrest).
    pose proof (pass2_lookup meta meta2 entry.1.1 H2) as Hp. rewrite Hl in Hp.
    destruct (lookup_page entry.1.1 meta2) as [es2|] eqn:El2; [|contradiction].
    destruct (Forall2_lookup_l _ _ _ _ _ Hp Hi) as (e2 & Hi2 & He2).
    unfold second_pass_elem in He2. simpl in He2. rewrite Him in He2. simpl in He2.
    injection He2 as <-. exists es2, m, start.
    split; [exact El2|]. split; [exact Hi2|]. split; [exact Him|exact Hrest].
  - intros n es2 i m c Hl2 Hi2.
    pose proof (pass2_lookup meta meta2 n H2) as Hp. rewrite Hl2 in Hp.
    destruct (lookup_page n meta) as [es|] eqn:El; [|contradiction].
    destruct (Forall2_lookup_r _ _ _ _ _ Hp Hi2) as ([m0 c0] & Hi & He).
    destruct (Hall n es i m0 c0 El Hi) as [-> Hf].
    unfold second_pass_elem in He. simpl in He.
    destruct (is_image m0) eqn:Him; simpl in He.
    + injection He as <- <-. rewrite Him. split; [reflexivity|]. now apply Hf.
    + destruct (run_sync n m0) as [v|e] eqn:Er; simpl in He; [|discriminate].
      injection He as <- <-. rewrite Him. eauto.
Qed.

(** *** The third pass *)

(** The third pass with every [future.result()] replaced by the outcome
    of the future: no schedule is involved. *)
Fixpoint join_all imgs meta fs : result (list (Z * list Elem)) :=
  match imgs with
  | [] => Ok meta
  | (n, i, f) :: imgs' =>
      if has_page n meta then
        match outcome_of fs f with
        | Some (Ok v) =>
            match store_content n i v meta with
            | Ok meta' => join_all imgs' meta' fs
            | Raise e => Raise e
            end
        | Some (Raise e) => Raise e
        | None => Raise IndexError
        end
      else join_all imgs' meta fs
  end.

Lemma join_all_ext imgs fs fs' :
  (forall g, outcome_of fs' g = outcome_of fs g) ->
  forall meta, join_all imgs meta fs' = join_all imgs meta fs.
Proof.
  intros Hext. induction imgs as [|[[n i] f] imgs IH]; intros meta; simpl; [reflexivity|].
  rewrite Hext. destruct (has_page n meta); [|apply IH].
  destruct (outcome_of fs f) as [[v|e]|]; try reflexivity.
  destruct (store_content n i v meta); [apply IH|reflexivity].
Qed.

(** Whatever the order in which the workers finish, the third pass
    returns, and returns what [join_all] computes. *)
Lemma third_pass_join imgs :
  forall meta fs sched,
  Forall (fun entry : Z * nat * nat => is_Some (outcome_of fs entry.2)) imgs ->
  covering fs sched ->
  third_pass imgs meta fs sched = Some (join_all imgs meta fs).
Proof.
  induction imgs as [|[[n i] f] imgs IH]; intros meta fs sched Hout Hcov; simpl;
    [reflexivity|].
  apply Forall_cons in Hout as [[o Ho] Hout]. simpl in Ho.
  destruct (has_page n meta); [|now apply IH].
  destruct (future_result_outcome f o sched fs Ho Hcov) as (fs' & sched' & -> & Hext & Hcov').
  rewrite Ho. destruct o as [v|e]; [|reflexivity].
  destruct (store_content n i v meta) as [meta'|e]; [|reflexivity].
  rewrite <- (join_all_ext imgs fs fs' Hext). apply IH; [|assumption].
  eapply Forall_impl; [exact Hout|]. intros entry. simpl. now rewrite Hext.
Qed.

Lemma has_page_lookup (n : Z) meta : has_page n meta = false -> lookup_page n meta = None.
Proof.
  induction meta as [|p meta IH]; simpl; [reflexivity|].
  destruct (p.1 =? n)%Z; simpl; [discriminate|exact IH].
Qed.

Lemma store_content_lookup (n0 : Z) (i0 : nat) (v : Content) meta meta' (n : Z) :
  store_content n0 i0 v meta = Ok meta' ->
  lookup_page n meta' =
  match lookup_page n meta with
  | Some es =>
      if (n =? n0)%Z then
        Some (match es !! i0 with
              | Some e => <[i0 := (e.1, Some v)]> es
              | None => es
              end)
      else Some es
  | None => None
  end.
Proof.
  revert meta'. induction meta as [|p meta IH]; intros meta'; simpl.
  - now intros [= <-].
  - destruct (p.1 =? n0)%Z eqn:E0.
    + apply Z.eqb_eq in E0.
      destruct (p.2 !! i0) as [e|] eqn:Ei; [|discriminate].
      intros [= <-]. simpl. destruct (p.1 =? n)%Z eqn:E.
      * apply Z.eqb_eq in E. rewrite <- E, E0, Z.eqb_refl, Ei. reflexivity.
      * destruct (lookup_page n meta); [|reflexivity].
        destruct (n =? n0)%Z eqn:E'; [|reflexivity].
        apply Z.eqb_eq in E'. apply Z.eqb_neq in E. congruence.
    + destruct (store_content n0 i0 v meta) as [rest|e]; simpl; [|discriminate].
      intros [= <-]. simpl. destruct (p.1 =? n)%Z eqn:E.
      * apply Z.eqb_eq in E. rewrite <- E, E0. reflexivity.
      * now apply IH.
Qed.

(** Which content each element has after the third pass: the value of
    a future recorded for its position, or what it had before. *)
Lemma join_all_content imgs fs :
  forall meta meta3,
  join_all imgs meta fs = Ok meta3 ->
  forall n es3 i m c,
    lookup_page n meta3 = Some es3 -> es3 !! i = Some (m, c) ->
    exists es c0,
      lookup_page n meta = Some es /\ es !! i = Some (m, c0) /\
      ((exists f v, (n, i, f) ∈ imgs /\ outcome_of fs f = Some (Ok v) /\ c = Some v) \/
       ((forall f, (n, i, f) ∉ imgs) /\ c = c0)).
Proof.
  induction imgs as [|[[n0 i0] f0] imgs IH]; intros meta meta3; simpl.
  - intros [= <-] n es3 i m c Hl Hi. exists es3, c. split; [assumption|].
    split; [assumption|]. right. split; [|reflexivity]. intros f Hf. inversion Hf.
  - destruct (has_page n0 meta) eqn:Ehp.
    + destruct (outcome_of fs f0) as [[v|e]|] eqn:Eo; try discriminate.
      destruct (store_content n0 i0 v meta) as [meta'|e] eqn:Es; [|discriminate].
      intros Hj n es3 i m c Hl Hi.
      destruct (IH meta' meta3 Hj n es3 i m c Hl Hi) as (es' & c' & Hl' & Hi' & Hc).
      rewrite (store_content_lookup n0 i0 v meta meta' n Es) in Hl'.
      destruct (lookup_page n meta) as [es|] eqn:El; [|discriminate].
      assert (Hcase :
        (n = n0 /\ i = i0 /\ c' = Some v /\ exists c0, es !! i = Some (m, c0)) \/
        ((n, i) <> (n0, i0) /\ es !! i = Some (m, c'))).
      { destruct (n =? n0)%Z eqn:En.
        - apply Z.eqb_eq in En. injection Hl' as <-.
          destruct (es !! i0) as [e0|] eqn:Ei0.
          + destruct (decide (i = i0)) as [->|Hne].
            * rewrite list_lookup_insert_eq in Hi' by (eapply lookup_lt_Some; eassumption).
              injection Hi' as <- <-. left. destruct e0 as [m0 c0]. eauto 10.
            * rewrite list_lookup_insert_ne in Hi' by auto.
              right. split; [congruence|assumption].
          + right. split; [|assumption]. intros [= _ ->]. congruence.
        - apply Z.eqb_neq in En. injection Hl' as <-. right.
          split; [congruence|assumption]. }
      destruct Hcase as [(-> & -> & -> & c0 & Hi0)|[Hne Hi0]].
      * exists es, c0. split; [reflexivity|]. split; [assumption|]. left.
        destruct Hc as [(f & v' & Hin & Hrest)|[Hno ->]].
        -- exists f, v'. split; [|assumption]. apply elem_of_cons. now right.
        -- exists f0, v. split; [|auto]. apply elem_of_cons. now left.
      * exists es, c'. split; [reflexivity|]. split; [assumption|].
        destruct Hc as [(f & v' & Hin & Hrest)|[Hno ->]].
        -- left. exists f, v'. split; [|assumption]. apply elem_of_cons. now right.
        -- right. split; [|reflexivity]. intros f Hin.
           apply elem_of_cons in Hin as [Heq|Hin]; [|exact (Hno f Hin)].
           apply Hne. congruence.
    + intros Hj n es3 i m c Hl Hi.
      destruct (IH meta meta3 Hj n es3 i m c Hl Hi) as (es & c0 & Hl' & Hi' & Hc).
      exists es, c0. split; [assumption|]. split; [assumption|].
      destruct Hc as [(f & v' & Hin & Hrest)|[Hno ->]].
      * left. exists f, v'. split; [|assumption]. apply elem_of_cons. now right.
      * right. split; [|reflexivity]. intros f Hin.
        apply elem_of_cons in Hin as [Heq|Hin]; [|exact (Hno f Hin)].
        injection Heq as -> -> ->. apply has_page_lookup in Ehp. congruence.
Qed.

(** *** Contents in document order *)

(** The content that the element [m] of page number [n] must end up
    with: for an image, the outcome of the future started for [m] itself
    ([None] if no task could be started); otherwise what its handler
    returns. *)
Definition expected (n : Z) (m : Meta) : result (option Content) :=
  if is_image m then
    if has_async then
      match submit m with
      | Ok start => Some <$> start_outcome start
      | Raise _ => Ok None
      end
    else Ok None
  else Some <$> run_sync n m.

Lemma final_content fs imgs meta2 meta3 :
  Inv2 fs imgs meta2 ->
  join_all imgs meta2 fs = Ok meta3 ->
  forall n es3 i m c,
    lookup_page n meta3 = Some es3 -> es3 !! i = Some (m, c) -> expected n m = Ok c.
Proof.
  intros [Hval Hall] Hj n es3 i m c Hl Hi.
  destruct (join_all_content imgs fs meta2 meta3 Hj n es3 i m c Hl Hi)
    as (es & c0 & Hl2 & Hi2 & Hc).
  specialize (Hall n es i m c0 Hl2 Hi2). unfold expected.
  destruct Hc as [(f & v & Hin & Ho & ->)|[Hno ->]].
  - apply (proj1 (Forall_forall _ _) Hval) in Hin.
    destruct Hin as (es' & m' & start & Hl' & Hi' & Him & Has & Hs & Ho'). simpl in *.
    assert (m' = m) as -> by congruence.
    rewrite Him, Has, Hs. assert (start_outcome start = Ok v) as -> by congruence.
    reflexivity.
  - destruct (is_image m).
    + destruct Hall as [-> Hf]. destruct has_async; [|reflexivity].
      destruct (submit m) as [start|e]; [|reflexivity].
      destruct (Hf eq_refl start eq_refl) as [f Hin]. exfalso. exact (Hno f Hin).
    + destruct Hall as (v & -> & ->). reflexivity.
Qed.

(** The dispatcher without schedule: [future.result()] is the outcome of
    the future. *)
Definition run_nowait (pages : list PageIn) : result (list (Z * list Elem)) :=
  match pass1 pages with
  | Raise e => Raise e
  | Ok st =>
      match pass2 (elementsMetadata st) with
      | Raise e => Raise e
      | Ok meta => join_all (imageFutures st) meta (futs st)
      end
  end.

(** The output lists the described elements in order, each with the
    content expected for it. *)
Definition in_document_order (metas : list (Z * list Meta)) (out : list (Z * list Elem))
  : Prop :=
  Forall2 (fun (pm : Z * list Meta) (po : Z * list Elem) =>
             po.1 = pm.1 /\
             Forall2 (fun (m : Meta) (e : Elem) => e.1 = m /\ expected pm.1 m = Ok e.2)
               pm.2 po.2)
    metas out.

Lemma in_document_order_intro (out : list (Z * list Elem)) :
  (forall p e, p ∈ out -> e ∈ p.2 -> expected p.1 e.1 = Ok e.2) ->
  in_document_order (skeleton out) out.
Proof.
  unfold in_document_order, skeleton.
  induction out as [|p out IH]; intros H; [constructor|].
  rewrite fmap_cons. constructor.
  - simpl. split; [reflexivity|].
    assert (Hp : forall e, e ∈ p.2 -> expected p.1 e.1 = Ok e.2).
    { intros e He. apply H; [apply elem_of_cons; now left|assumption]. }
    clear -Hp. induction p.2 as [|e es IHes]; [constructor|].
    rewrite fmap_cons. constructor.
    + split; [reflexivity|]. apply Hp. apply elem_of_cons. now left.
    + apply IHes. intros e' He'. apply Hp. apply elem_of_cons. now right.
  - apply IH. intros p' e Hp' He. apply H; [apply elem_of_cons; now right|assumption].
Qed.

Lemma described_numbers (pages : list PageIn) (metas : list (Z * list Meta)) :
  described pages = Ok metas -> metas.*1 = number <$> pages.
Proof.
  unfold described. intros H. apply forM_Forall2 in H.
  induction H as [|p pm pages metas Hp _ IH]; [reflexivity|].
  rewrite !fmap_cons, IH. f_equal.
  destruct (enter p); simpl in Hp; [|discriminate]. now injection Hp as <-.
Qed.

(** The dispatcher is insensitive to the completion order of the futures
    and re-associates every result with the element it was started for. *)
Theorem dispatch_document_order (pages : list PageIn) (sched : list nat) :
  NoDup (number <$> pages) ->
  (forall st, pass1 pages = Ok st -> covering (futs st) sched) ->
  run pages sched = Some (run_nowait pages) /\
  forall out, run_nowait pages = Ok out ->
    exists metas, described pages = Ok metas /\ in_document_order metas out.
Proof.
  intros Hnd Hcov.
  assert (Hrun : run pages sched = Some (run_nowait pages)).
  { unfold dispatch, run_nowait.
    destruct (pass1 pages) as [st|e] eqn:E1; [|reflexivity].
    destruct (pass2 (elementsMetadata st)) as [meta|e] eqn:E2; [|reflexivity].
    apply third_pass_join; [|now apply Hcov].
    destruct (pass1_inv pages (mkPass1 [] [] []) st E1) as [[Hval _] _].
    { exact Hnd. }
    { split; [constructor|]. intros n es i m c Hl. discriminate. }
    eapply Forall_impl; [exact Hval|].
    intros entry (es & m & start & _ & _ & _ & _ & _ & Ho). rewrite Ho. eauto. }
  split; [exact Hrun|].
  intros out Hout. rewrite Hout in Hrun.
  exists (skeleton out). split; [eapply dispatch_skeleton; exact Hrun|].
  apply in_document_order_intro. intros [n es3] [m c] Hp He. simpl in *.
  unfold run_nowait in Hout.
  destruct (pass1 pages) as [st|e] eqn:E1; [|discriminate].
  destruct (pass2 (elementsMetadata st)) as [meta|e] eqn:E2; [|discriminate].
  destruct (pass1_inv pages (mkPass1 [] [] []) st E1) as [HI Hnum].
  { exact Hnd. }
  { split; [constructor|]. intros n' es i m' c' Hl. discriminate. }
  pose proof (pass2_inv _ _ _ _ HI E2) as HI2.
  apply list_elem_of_lookup_1 in He as [i Hi].
  eapply (final_content _ _ _ _ HI2 Hout n es3 i m c); [|exact Hi].
  apply lookup_page_NoDup; [|exact Hp].
  assert (Hsk : (skeleton out).*1 = out.*1).
  { unfold skeleton. rewrite <- list_fmap_compose. reflexivity. }
  rewrite <- Hsk.
  rewrite (described_numbers pages (skeleton out) (dispatch_skeleton pages sched out Hrun)).
  exact Hnd.
Qed.

(** *** The dispatcher returns when nothing raises *)

Lemma forM_ok {A B : Type} (body : A -> result B) (l : list A) :
  (forall x, x ∈ l -> exists y, body x = Ok y) -> exists out, forM body l = Ok out.
Proof.
  induction l as [|x l IH]; intros H; simpl; [eauto|].
  destruct (H x) as [y ->]; [apply elem_of_cons; now left|].
  destruct IH as [ys ->]; [intros x' Hx'; apply H, elem_of_cons; now right|].
  simpl. eauto.
Qed.

Lemma lookup_page_elem (n : Z) meta es : lookup_page n meta = Some es -> (n, es) ∈ meta.
Proof.
  induction meta as [|[n' es'] meta IH]; simpl; [discriminate|].
  destruct (n' =? n)%Z eqn:E.
  - apply Z.eqb_eq in E. intros [= <-]. subst. apply elem_of_cons. now left.
  - intros H. apply elem_of_cons. right. now apply IH.
Qed.

Lemma has_page_true (n : Z) meta es : lookup_page n meta = Some es -> has_page n meta = true.
Proof.
  destruct (has_page n meta) eqn:E; [reflexivity|].
  apply has_page_lookup in E. congruence.
Qed.

Lemma store_content_ok (n : Z) (i : nat) (v : Content) meta es :
  lookup_page n meta = Some es -> (i < length es)%nat ->
  exists meta', store_content n i v meta = Ok meta'.
Proof.
  intros Hl Hi. induction meta as [|p meta IHm]; simpl in *; [discriminate|].
  destruct (p.1 =? n)%Z.
  - injection Hl as ->. apply lookup_lt_is_Some_2 in Hi as [e0 He0].
    rewrite He0. eauto.
  - destruct (IHm Hl) as [rest ->]. simpl. eauto.
Qed.

Lemma join_all_ok imgs fs :
  forall meta,
  Forall (fun entry : Z * nat * nat =>
            exists es v, lookup_page entry.1.1 meta = Some es /\
                         (entry.1.2 < length es)%nat /\
                         outcome_of fs entry.2 = Some (Ok v)) imgs ->
  exists out, join_all imgs meta fs = Ok out.
Proof.
  induction imgs as [|[[n i] f] imgs IH]; intros meta H; simpl; [eauto|].
  apply Forall_cons in H as [(es & v & Hl & Hi & Ho) H]. simpl in *.
  rewrite (has_page_true n meta es Hl), Ho.
  destruct (store_content_ok n i v meta es Hl Hi) as [meta' Es]. rewrite Es.
  apply IH. eapply Forall_impl; [exact H|].
  intros [[n' i'] f'] (es' & v' & Hl' & Hi' & Ho'). simpl in *.
  rewrite (store_content_lookup n i v meta meta' n' Es), Hl'.
  destruct (n' =? n)%Z; [|eauto].
  destruct (es' !! i) as [e0|]; [|eauto].
  eexists _, v'. split; [reflexivity|]. rewrite length_insert. auto.
Qed.

Lemma run_nowait_returns (pages : list PageIn) (metas : list (Z * list Meta)) :
  NoDup (number <$> pages) ->
  described pages = Ok metas ->
  (forall pm m, pm ∈ metas -> m ∈ pm.2 -> exists c, expected pm.1 m = Ok c) ->
  exists out, run_nowait pages = Ok out.
Proof.
  intros Hnd Hd Hexp. unfold run_nowait.
  pose proof (pass1_skeleton pages (mkPass1 [] [] [])) as H1.
  fold (pass1 pages) in H1. rewrite Hd in H1.
  destruct (pass1 pages) as [st|e] eqn:E1; cbv [fmap result_fmap] in H1; [|discriminate H1].
  injection H1 as H1. simpl in H1.
  destruct (pass1_inv pages (mkPass1 [] [] []) st E1) as [HI _].
  { exact Hnd. }
  { split; [constructor|]. intros n' es i m' c' Hl. discriminate. }
  assert (Hmem : forall meta n es i m c,
            skeleton meta = metas -> lookup_page n meta = Some es ->
            es !! i = Some (m, c) -> exists c', expected n m = Ok c').
  { intros meta n es i m c Hsk Hl Hi.
    apply (Hexp (n, fst <$> es) m).
    - rewrite <- Hsk. unfold skeleton. apply list_elem_of_fmap.
      exists (n, es). split; [reflexivity|]. now apply lookup_page_elem.
    - simpl. apply list_elem_of_fmap. exists (m, c). split; [reflexivity|].
      eapply list_elem_of_lookup_2; eassumption. }
  destruct (forM_ok
    (fun p : Z * list Elem =>
       es ← forM (second_pass_elem is_image run_sync p.1) p.2; Ok (p.1, es))
    (elementsMetadata st)) as [meta2 E2].
  { intros [n es] Hp. simpl.
    destruct (forM_ok (second_pass_elem is_image run_sync n) es) as [es2 ->]; [|simpl; eauto].
    intros [m c] He. unfold second_pass_elem. simpl.
    destruct (is_image m) eqn:Him; simpl; [eauto|].
    destruct (Hexp (n, fst <$> es) m) as [c' Hc'].
    - rewrite <- H1. unfold skeleton. apply list_elem_of_fmap. exists (n, es). auto.
    - simpl. apply list_elem_of_fmap. exists (m, c). auto.
    - unfold expected in Hc'. simpl in Hc'. rewrite Him in Hc'.
      destruct (run_sync n m) as [v|e]; simpl; [eauto|discriminate]. }
  fold (pass2 (elementsMetadata st)) in E2. rewrite E2.
  pose proof (pass2_inv _ _ _ _ HI E2) as [Hval _].
  pose proof (pass2_skeleton _ _ E2) as Hsk2.
  apply join_all_ok. eapply Forall_impl; [exact Hval|].
  intros entry (es & m & start & Hl & Hi & Him & Has & Hs & Ho).
  destruct (Hmem meta2 entry.1.1 es entry.1.2 m None) as [c Hc];
    [congruence|assumption|assumption|].
  unfold expected in Hc. rewrite Him, Has, Hs in Hc.
  destruct (start_outcome start) as [v|e] eqn:Ev; [|discriminate].
  exists es, v. split; [assumption|]. split; [|assumption].
  eapply lookup_lt_Some; eassumption.
Qed.

(** *** Skipped elements leave no trace *)

Lemma step_filter (num : Z) (ctx : Ctx) (elems : list ElemIn) :
  forall st,
  foldl (step num ctx) st (filter (fun elem => is_Some (describe ctx elem)) elems) =
  foldl (step num ctx) st elems.
Proof.
  induction elems as [|elem elems IH]; intros st; [reflexivity|].
  rewrite filter_cons. destruct (decide (is_Some (describe ctx elem))) as [Hs|Hn].
  - simpl. apply IH.
  - rewrite IH. simpl. f_equal. destruct st as [[fs imgs] acc]. unfold first_pass_elem.
    destruct (describe ctx elem) as [m|]; [|reflexivity].
    exfalso. apply Hn. eauto.
Qed.

Lemma pass1_filter (drop : PageIn -> PageIn) :
  (forall p, number (drop p) = number p) ->
  (forall p, enter (drop p) = enter p) ->
  (forall p ctx, enter p = Ok ctx ->
     elements (drop p) = filter (fun elem => is_Some (describe ctx elem)) (elements p)) ->
  forall pages st, foldM page_step st (drop <$> pages) = foldM page_step st pages.
Proof.
  intros Hn He Hel. induction pages as [|p pages IH]; intros st; [reflexivity|].
  rewrite fmap_cons. cbn [foldM]. rewrite !page_step_eq, He, Hn.
  destruct (enter p) as [ctx|e] eqn:E; [|reflexivity].
  rewrite (Hel p ctx E). cbv zeta. rewrite step_filter. simpl. apply IH.
Qed.

Lemma dispatch_filter (drop : PageIn -> PageIn) (pages : list PageIn) (sched : list nat) :
  (forall p, number (drop p) = number p) ->
  (forall p, enter (drop p) = enter p) ->
  (forall p ctx, enter p = Ok ctx ->
     elements (drop p) = filter (fun elem => is_Some (describe ctx elem)) (elements p)) ->
  run (drop <$> pages) sched = run pages sched.
Proof.
  intros Hn He Hel. unfold dispatch, first_pass.
  now rewrite (pass1_filter drop Hn He Hel).
Qed.

(** The described elements of a page are the elements that are not
    skipped, in the order of the input. *)
Lemma omap_filter_Forall2 {A B : Type} (f : A -> option B) (l : list A) :
  Forall2 (fun x y => f x = Some y) (filter (fun x => is_Some (f x)) l) (omap f l).
Proof.
  induction l as [|x l IH]; [constructor|].
  rewrite filter_cons. simpl. destruct (f x) as [y|] eqn:E.
  - destruct (decide (is_Some (Some y))) as [_|Hn]; [|exfalso; apply Hn; eauto].
    constructor; assumption.
  - destruct (decide (is_Some (@None B))) as [[y Hy]|_]; [discriminate|assumption].
Qed.

(** A schedule that finishes every future in turn. *)
Lemma covering_seq fs : covering fs (seq 0 (length fs)).
Proof.
  intros f o Hf. apply elem_of_seq. apply lookup_lt_Some in Hf. lia.
Qed.

Lemma run_nowait_document_order (pages : list PageIn) (out : list (Z * list Elem)) :
  NoDup (number <$> pages) ->
  run_nowait pages = Ok out ->
  exists metas, described pages = Ok metas /\ in_document_order metas out.
Proof.
  intros Hnd Hout.
  set (sched := match pass1 pages with
                | Ok st => seq 0 (length (futs st))
                | Raise _ => []
                end).
  destruct (dispatch_document_order pages sched Hnd) as [_ H].
  - intros st Hst. subst sched. rewrite Hst. apply covering_seq.
  - now apply H.
Qed.

Lemma described_Forall2 (pages : list PageIn) (metas : list (Z * list Meta)) :
  described pages = Ok metas ->
  Forall2 (fun p pm => exists ctx, enter p = Ok ctx /\
                         pm = (number p, omap (describe ctx) (elements p)))
    pages metas.
Proof.
  unfold described. intros H. apply forM_Forall2 in H.
  eapply Forall2_impl; [exact H|]. intros p pm Hp. simpl in Hp.
  destruct (enter p) as [ctx|e]; simpl in Hp; [|discriminate].
  injection Hp as <-. eauto.
Qed.

Lemma described_ok (pages : list PageIn) :
  (forall p, p ∈ pages -> exists ctx, enter p = Ok ctx) ->
  exists metas, described pages = Ok metas.
Proof.
  intros H. apply forM_ok. intros p Hp. destruct (H p Hp) as [ctx ->]. simpl. eauto.
Qed.

End DispatchFacts.

(** *** [extractFromPdf] and [extractFromPptx] *)

Section ExtractorTheorems.
Context {Content : Type}.
Implicit Types (self : Extractor Content) (sched : list nat).

Local Abbreviation pdf_image :=
  (fun m : PdfMeta Content => bool_decide (dm_type m ∈ ["image"; "figure"])).
Local Abbreviation pdf_async self :=
  (bool_decide (is_Some (handlePdfAsync (imageHandler self)))).
Local Abbreviation pptx_image :=
  (fun m : PptxMeta Content => bool_decide (pm_type m = "image")).
Local Abbreviation pptx_async self :=
  (bool_decide (is_Some (handlePptxAsync (imageHandler self)))).
Local Abbreviation pptx_enter prs :=
  (fun slideData : SlideData => py_index prs (slide_number slideData - 1)).

(** The schedule lets every task started by the first pass finish. *)
Definition pdf_all_finish self (doc : list Page) (dpi : Q) (pages : list PageData) sched
  : Prop :=
  forall st,
    first_pass page_number (pdf_enter doc dpi) detections (pdf_describe self)
      pdf_image (pdf_async self) (pdf_submit self) pages = Ok st ->
    covering (futs st) sched.

Definition pptx_all_finish self (prs : list (list Shape)) (slides : list SlideData) sched
  : Prop :=
  forall st,
    first_pass slide_number (pptx_enter prs) slide_elements (pptx_describe self)
      pptx_image (pptx_async self) (pptx_submit self) slides = Ok st ->
    covering (futs st) sched.

(** The content that belongs to a detection: for an image or figure the
    outcome of the task started for it by [handlePdfAsync] ([None] when
    none could be started), otherwise what its handler returns. *)
Definition pdf_content self (page : Page) (scale : Q) (det : Detection)
  : result (option Content) :=
  if bool_decide (class_name det ∈ ["image"; "figure"]) then
    match handlePdfAsync (imageHandler self) with
    | Some start_task =>
        match start_task page (bbox det) scale with
        | Ok start => Some <$> start_outcome start
        | Raise _ => Ok None
        end
    | None => Ok None
    end
  else
    let h := _getHandler self (class_name det) in
    Some <$> call_or_handle h ((fun f => f page (bbox det) scale) <$> handlePdf h).

(** The content that belongs to a slide element placed on [shape]. *)
Definition pptx_content self (filePath : list N) (slideNum : Z)
    (elem : PptxElement) (shape : Shape) : result (option Content) :=
  if bool_decide (classified_type elem = "image") then
    match handlePptxAsync (imageHandler self) with
    | Some start_task =>
        match start_task shape with
        | Ok start => Some <$> start_outcome start
        | Raise _ => Ok None
        end
    | None => Ok None
    end
  else
    let h := _getHandler self (classified_type elem) in
    Some <$> call_or_handle h ((fun f => f shape filePath slideNum) <$> handlePptx h).

(** An output page lists the detections of the input page in order, each
    with its own content. *)
Definition pdf_page_in_order self (doc : list Page) (dpi : Q)
    (p : PageData) (o : Z * list (PdfOut Content)) : Prop :=
  o.1 = page_number p /\
  exists page scale,
    pdf_enter doc dpi p = Ok (page, scale) /\
    Forall2 (fun det e =>
               do_type e = class_name det /\ do_bbox e = bbox det /\
               do_confidence e = conf det /\
               pdf_content self page scale det = Ok (do_content e))
      (detections p) o.2.

(** The analysed elements of a slide for which [_findShape] finds a shape. *)
Definition matched (slide : list Shape) (elems : list PptxElement) : list PptxElement :=
  filter (fun elem => is_Some (_findShape slide (position elem))) elems.

(** An output slide lists the matched elements of the input slide in
    order, each with its own content. *)
Definition pptx_slide_in_order self (prs : list (list Shape)) (filePath : list N)
    (s : SlideData) (o : Z * list (PptxOut Content)) : Prop :=
  o.1 = slide_number s /\
  exists slide,
    py_index prs (slide_number s - 1) = Ok slide /\
    Forall2 (fun elem e =>
               po_type e = classified_type elem /\ po_position e = position elem /\
               po_size e = size elem /\
               exists shape, _findShape slide (position elem) = Some shape /\
                 pptx_content self filePath (slide_number s) elem shape = Ok (po_content e))
      (matched slide (slide_elements s)) o.2.

Lemma pdf_expected self (n : Z) (page : Page) (scale : Q) (det : Detection) :
  expected pdf_image (pdf_async self) (pdf_submit self) pdf_sync n
    (mkPdfMeta (class_name det) (bbox det) (conf det)
       (_getHandler self (class_name det)) page scale) =
  pdf_content self page scale det.
Proof.
  unfold expected, pdf_content, pdf_submit, pdf_sync. simpl.
  destruct (bool_decide (class_name det ∈ ["image"; "figure"])); [|reflexivity].
  destruct (handlePdfAsync (imageHandler self)) as [f|]; reflexivity.
Qed.

Lemma pptx_expected self (filePath : list N) (n : Z) (elem : PptxElement) (shape : Shape) :
  expected pptx_image (pptx_async self) (pptx_submit self) (pptx_sync filePath) n
    (mkPptxMeta (classified_type elem) (position elem) (size elem) shape
       (_getHandler self (classified_type elem))) =
  pptx_content self filePath n elem shape.
Proof.
  unfold expected, pptx_content, pptx_submit, pptx_sync. simpl.
  destruct (bool_decide (classified_type elem = "image")); [|reflexivity].
  destruct (handlePptxAsync (imageHandler self)) as [f|]; reflexivity.
Qed.

Lemma build_results_Ok {M O : Type} (out : M * option Content -> O)
    (r : option (result (list (Z * list (M * option Content)))))
    (res : list (Z * list O)) :
  build_results out r = Some (Ok res) ->
  exists meta, r = Some (Ok meta) /\
    res = (fun p : Z * list (M * option Content) => (p.1, out <$> p.2)) <$> meta.
Proof.
  unfold build_results. destruct r as [[meta|e]|]; try discriminate.
  intros [= <-]. eauto.
Qed.

Lemma omap_Some_fmap {A B : Type} (g : A -> B) (l : list A) :
  omap (fun x => Some (g x)) l = g <$> l.
Proof. induction l as [|x l IH]; simpl; [reflexivity|]. now f_equal. Qed.

Lemma Forall2_chain {A B C : Type} (R1 : A -> B -> Prop) (R2 : B -> C -> Prop)
    (R : A -> C -> Prop) (la : list A) (lb : list B) (lc : list C) :
  (forall a b c, R1 a b -> R2 b c -> R a c) ->
  Forall2 R1 la lb -> Forall2 R2 lb lc -> Forall2 R la lc.
Proof.
  intros HR H1. revert lc. induction H1 as [|a b la lb Hab _ IH]; intros lc H2.
  - inversion H2. constructor.
  - inversion H2 as [|b' c lb' lc' Hbc H2']; subst. constructor; eauto.
Qed.

Lemma pdf_in_order self (doc : list Page) (dpi : Q) (pages : list PageData)
    (metas : list (Z * list (PdfMeta Content)))
    (out : list (Z * list (PdfMeta Content * option Content))) :
  described page_number (pdf_enter doc dpi) detections (pdf_describe self) pages = Ok metas ->
  in_document_order pdf_image (pdf_async self) (pdf_submit self) pdf_sync metas out ->
  Forall2 (pdf_page_in_order self doc dpi) pages
    ((fun p : Z * list (PdfMeta Content * option Content) => (p.1, pdf_out <$> p.2)) <$> out).
Proof.
  intros Hd Ho. apply described_Forall2 in Hd. apply Forall2_fmap_r.
  eapply Forall2_chain; [|exact Hd|exact Ho].
  intros p pm po ([page scale] & He & ->) [Hn Hel]. simpl in *.
  split; [exact Hn|]. exists page, scale. split; [exact He|].
  unfold pdf_describe in Hel. rewrite omap_Some_fmap in Hel.
  apply Forall2_fmap_l in Hel. apply Forall2_fmap_r.
  eapply Forall2_impl; [exact Hel|].
  intros det [m c] [Hm Hc]. simpl in *. subst m. simpl.
  rewrite pdf_expected in Hc. auto.
Qed.

Lemma pptx_in_order self (prs : list (list Shape)) (filePath : list N)
    (slides : list SlideData) (metas : list (Z * list (PptxMeta Content)))
    (out : list (Z * list (PptxMeta Content * option Content))) :
  described slide_number (pptx_enter prs) slide_elements (pptx_describe self) slides
    = Ok metas ->
  in_document_order pptx_image (pptx_async self) (pptx_submit self) (pptx_sync filePath)
    metas out ->
  Forall2 (pptx_slide_in_order self prs filePath) slides
    ((fun p : Z * list (PptxMeta Content * option Content) => (p.1, pptx_out <$> p.2))
       <$> out).
Proof.
  intros Hd Ho. apply described_Forall2 in Hd. apply Forall2_fmap_r.
  eapply Forall2_chain; [|exact Hd|exact Ho].
  intros s pm po (slide & He & ->) [Hn Hel]. simpl in *.
  split; [exact Hn|]. exists slide. split; [exact He|].
  apply Forall2_fmap_r.
  assert (Hm : matched slide (slide_elements s) =
               filter (fun elem => is_Some (pptx_describe self slide elem)) (slide_elements s)).
  { unfold matched. apply list_filter_iff. intros elem. unfold pptx_describe.
    destruct (_findShape slide (position elem)); split; intros [x Hx]; eauto; discriminate. }
  rewrite Hm.
  eapply Forall2_chain; [|apply omap_filter_Forall2|exact Hel].
  intros elem m [m' c] Hdesc [Hm' Hc]. simpl in *. subst m'.
  unfold pptx_describe in Hdesc.
  destruct (_findShape slide (position elem)) as [shape|] eqn:Ef; [|discriminate].
  injection Hdesc as <-. simpl. rewrite pptx_expected in Hc.
  repeat split; eauto.
Qed.

Lemma described_elem {PageIn ElemIn Ctx Meta : Type} (number : PageIn -> Z)
    (enter : PageIn -> result Ctx) (elements : PageIn -> list ElemIn)
    (describe : Ctx -> ElemIn -> option Meta)
    (pages : list PageIn) (metas : list (Z * list Meta)) (pm : Z * list Meta) (m : Meta) :
  described number enter elements describe pages = Ok metas ->
  pm ∈ metas -> m ∈ pm.2 ->
  exists p ctx elem,
    p ∈ pages /\ enter p = Ok ctx /\ pm.1 = number p /\
    elem ∈ elements p /\ describe ctx elem = Some m.
Proof.
  intros Hd Hpm Hm. apply described_Forall2 in Hd.
  apply list_elem_of_lookup_1 in Hpm as [k Hk].
  destruct (Forall2_lookup_r _ _ _ _ _ Hd Hk) as (p & Hp & ctx & He & ->).
  simpl in Hm. apply list_elem_of_omap in Hm as (elem & Hel & Hdesc).
  exists p, ctx, elem. split; [eapply list_elem_of_lookup_2; eassumption|]. auto.
Qed.

(** C1. For every analysed document whose pages (slides) carry distinct
    numbers, the dispatcher returns the same result for every order in
    which the image futures complete; the returned list has the pages
    in input order and, within each page, the input elements in their
    original order (for PPTX: those for which a shape is found), each
    carrying its own content: an image element holds the result of the
    future that was started for that very element, written back at the
    index recorded on submission.  The dispatcher returns a list
    whenever no page lookup, handler or future raises. *)
Theorem extraction_preserves_document_order self :
  (forall (doc : list Page) (pages : list PageData) (dpi : Q),
     NoDup (page_number <$> pages) ->
     exists r,
       (forall sched, pdf_all_finish self doc dpi pages sched ->
          extractFromPdf self doc pages dpi sched = Some r) /\
       (forall out, r = Ok out -> Forall2 (pdf_page_in_order self doc dpi) pages out) /\
       ((forall p, p ∈ pages ->
           exists page scale, pdf_enter doc dpi p = Ok (page, scale) /\
             forall det, det ∈ detections p ->
               exists c, pdf_content self page scale det = Ok c) ->
        exists out, r = Ok out)) /\
  (forall (prs : list (list Shape)) (filePath : list N) (slides : list SlideData),
     NoDup (slide_number <$> slides) ->
     exists r,
       (forall sched, pptx_all_finish self prs slides sched ->
          extractFromPptx self prs filePath slides sched = Some r) /\
       (forall out, r = Ok out ->
          Forall2 (pptx_slide_in_order self prs filePath) slides out) /\
       ((forall s, s ∈ slides ->
           exists slide, py_index prs (slide_number s - 1) = Ok slide /\
             forall elem shape, elem ∈ slide_elements s ->
               _findShape slide (position elem) = Some shape ->
               exists c, pptx_content self filePath (slide_number s) elem shape = Ok c) ->
        exists out, r = Ok out)).
Proof.
  split.
  - intros doc pages dpi Hnd.
    set (r0 := run_nowait page_number (pdf_enter doc dpi) detections (pdf_describe self)
                 pdf_image (pdf_async self) (pdf_submit self) pdf_sync pages).
    exists (match r0 with
            | Ok meta => Ok (map (fun p => (p.1, map pdf_out p.2)) meta)
            | Raise e => Raise e
            end).
    split; [|split].
    + intros sched Hfin. unfold extractFromPdf.
      destruct (dispatch_document_order page_number (pdf_enter doc dpi) detections
                  (pdf_describe self) pdf_image (pdf_async self) (pdf_submit self) pdf_sync
                  pages sched Hnd Hfin) as [-> _].
      fold r0. unfold build_results. destruct r0; reflexivity.
    + intros out Hout. destruct r0 as [meta|e] eqn:E0; [|discriminate].
      injection Hout as <-.
      destruct (run_nowait_document_order _ _ _ _ _ _ _ _ pages meta Hnd E0)
        as (metas & Hd & Ho).
      exact (pdf_in_order self doc dpi pages metas meta Hd Ho).
    + intros Hok.
      destruct (described_ok page_number (pdf_enter doc dpi) detections (pdf_describe self)
                  pages) as [metas Hd].
      { intros p Hp. destruct (Hok p Hp) as (page & scale & -> & _). eauto. }
      destruct (run_nowait_returns page_number (pdf_enter doc dpi) detections
                  (pdf_describe self) pdf_image (pdf_async self) (pdf_submit self) pdf_sync
                  pages metas Hnd Hd) as [meta Hmeta].
      { intros pm m Hpm Hm.
        destruct (described_elem _ _ _ _ pages metas pm m Hd Hpm Hm)
          as (p & [page scale] & det & Hp & He & Hn & Hdet & Hdesc).
        destruct (Hok p Hp) as (page' & scale' & He' & Hc).
        rewrite He in He'. injection He' as <- <-.
        destruct (Hc det Hdet) as [c Hcd]. exists c.
        unfold pdf_describe in Hdesc. injection Hdesc as <-. simpl.
        now rewrite pdf_expected. }
      fold r0 in Hmeta. rewrite Hmeta. eauto.
  - intros prs filePath slides Hnd.
    set (r0 := run_nowait slide_number (pptx_enter prs) slide_elements (pptx_describe self)
                 pptx_image (pptx_async self) (pptx_submit self) (pptx_sync filePath)
                 slides).
    exists (match r0 with
            | Ok meta => Ok (map (fun p => (p.1, map pptx_out p.2)) meta)
            | Raise e => Raise e
            end).
    split; [|split].
    + intros sched Hfin. unfold extractFromPptx.
      destruct (dispatch_document_order slide_number (pptx_enter prs) slide_elements
                  (pptx_describe self) pptx_image (pptx_async self) (pptx_submit self)
                  (pptx_sync filePath) slides sched Hnd Hfin) as [-> _].
      fold r0. unfold build_results. destruct r0; reflexivity.
    + intros out Hout. destruct r0 as [meta|e] eqn:E0; [|discriminate].
      injection Hout as <-.
      destruct (run_nowait_document_order _ _ _ _ _ _ _ _ slides meta Hnd E0)
        as (metas & Hd & Ho).
      exact (pptx_in_order self prs filePath slides metas meta Hd Ho).
    + intros Hok.
      destruct (described_ok slide_number (pptx_enter prs) slide_elements
                  (pptx_describe self) slides) as [metas Hd].
      { intros s Hs. destruct (Hok s Hs) as (slide & -> & _). eauto. }
      destruct (run_nowait_returns slide_number (pptx_enter prs) slide_elements
                  (pptx_describe self) pptx_image (pptx_async self) (pptx_submit self)
                  (pptx_sync filePath) slides metas Hnd Hd) as [meta Hmeta].
      { intros pm m Hpm Hm.
        destruct (described_elem _ _ _ _ slides metas pm m Hd Hpm Hm)
          as (s & slide & elem & Hs & He & Hn & Hel & Hdesc).
        destruct (Hok s Hs) as (slide' & He' & Hc).
        simpl in He. rewrite He in He'. injection He' as <-.
        unfold pptx_describe in Hdesc.
        destruct (_findShape slide (position elem)) as [shape|] eqn:Ef; [|discriminate].
        injection Hdesc as <-.
        destruct (Hc elem shape Hel Ef) as [c Hcd]. exists c.
        rewrite Hn. now rewrite pptx_expected. }
      fold r0 in Hmeta. rewrite Hmeta. eauto.
Qed.

(** *** Elements without a shape *)

(** The analysed slide without the elements that match no shape. *)
Definition drop_unmatched (prs : list (list Shape)) (s : SlideData) : SlideData :=
  match py_index prs (slide_number s - 1) with
  | Ok slide => mkSlideData (slide_number s) (matched slide (slide_elements s))
  | Raise _ => s
  end.

Lemma describe_matched self (slide : list Shape) (elems : list PptxElement) :
  (fun m : PptxMeta Content => (pm_type m, pm_position m, pm_size m)) <$>
    omap (pptx_describe self slide) elems =
  (fun elem => (classified_type elem, position elem, size elem)) <$> matched slide elems.
Proof.
  unfold matched. induction elems as [|elem elems IH]; [reflexivity|].
  rewrite filter_cons. simpl. unfold pptx_describe at 1.
  destruct (_findShape slide (position elem)) as [shape|] eqn:E.
  - destruct (decide (is_Some (Some shape))) as [_|Hn]; [|exfalso; apply Hn; eauto].
    rewrite !fmap_cons. simpl. f_equal. exact IH.
  - destruct (decide (is_Some (@None Shape))) as [[x Hx]|_]; [discriminate|exact IH].
Qed.

(** C10. In PPTX extraction an analysed element whose position matches
    no shape of its slide is silently omitted: the dispatcher behaves
    (result, exception or blocking alike) exactly as on the input without
    these elements, and every returned slide lists exactly the matched
    elements, in order, so that it may be shorter than the analysed
    input. *)
Theorem pptx_unmatched_elements_are_omitted
    self (prs : list (list Shape)) (filePath : list N) (slides : list SlideData) sched :
  extractFromPptx self prs filePath slides sched =
    extractFromPptx self prs filePath (drop_unmatched prs <$> slides) sched /\
  forall out,
    extractFromPptx self prs filePath slides sched = Some (Ok out) ->
    Forall2 (fun (s : SlideData) (o : Z * list (PptxOut Content)) =>
               o.1 = slide_number s /\
               exists slide,
                 py_index prs (slide_number s - 1) = Ok slide /\
                 (fun e => (po_type e, po_position e, po_size e)) <$> o.2 =
                 (fun elem => (classified_type elem, position elem, size elem)) <$>
                   matched slide (slide_elements s) /\
                 length o.2 = length (matched slide (slide_elements s)) /\
                 (length o.2 <= length (slide_elements s))%nat)
      slides out.
Proof.
  split.
  - unfold extractFromPptx. f_equal. symmetry. apply dispatch_filter.
    + intros s. unfold drop_unmatched. destruct (py_index _ _); reflexivity.
    + intros s. unfold drop_unmatched.
      destruct (py_index prs (slide_number s - 1)) eqn:E; simpl; exact E.
    + intros s slide He. unfold drop_unmatched. rewrite He. simpl.
      unfold matched. apply list_filter_iff. intros elem. unfold pptx_describe.
      destruct (_findShape slide (position elem)); split; intros [x Hx]; eauto; discriminate.
  - intros out Hout. unfold extractFromPptx in Hout.
    apply build_results_Ok in Hout as (meta & Hrun & ->).
    apply dispatch_skeleton in Hrun. apply described_Forall2 in Hrun.
    apply Forall2_fmap_r.
    assert (Hsk : Forall2 (fun (pm : Z * list (PptxMeta Content))
                     (po : Z * list (PptxMeta Content * option Content)) =>
                     pm = (po.1, fst <$> po.2)) (skeleton meta) meta).
    { unfold skeleton. apply Forall2_fmap_l, Forall_Forall2_diag, Forall_forall. auto. }
    eapply Forall2_chain; [|exact Hrun|exact Hsk].
    intros s pm po (slide & He & ->) [= Hn Hel]. simpl in *.
    split; [now rewrite Hn|]. exists slide. split; [exact He|].
    assert (Hshape : (fun e => (po_type e, po_position e, po_size e)) <$> (pptx_out <$> po.2) =
                     (fun elem => (classified_type elem, position elem, size elem)) <$>
                       matched slide (slide_elements s)).
    { rewrite <- (describe_matched self), Hel, <- !list_fmap_compose. reflexivity. }
    split; [exact Hshape|].
    assert (Hlen : length (pptx_out <$> po.2) = length (matched slide (slide_elements s))).
    { pose proof (f_equal length Hshape) as HL. rewrite !length_fmap in HL.
      rewrite length_fmap. exact HL. }
    split; [exact Hlen|]. rewrite Hlen. apply length_filter.
Qed.

End ExtractorTheorems.

(** *** A sample run *)

Import PyStr.

(** Handlers returning strings: a text handler, an image handler whose
    asynchronous methods start a task that will describe the picture, and
    the default handler. *)
Definition sampleText : Handler (list N) :=
  mkHandler (Some (fun shape _ _ => Ok (strip (default [] (text shape)))))
            (Some (fun _ _ _ => Ok (lit "some text"))) None None None.

Definition sampleImage : Handler (list N) :=
  mkHandler (Some (fun _ _ _ => Raise TypeError))
            (Some (fun _ _ _ => Ok (lit "a picture"))) None
            (Some (fun _ => Ok (Spawned (Ok (lit "a picture")))))
            (Some (fun _ bbox _ =>
                     Ok (Spawned (Ok (lit "a picture at y=" ++ [Z.to_N (Qnum (yMin bbox))]))))).

Definition sampleDefault : Handler (list N) :=
  mkHandler (Some (fun _ _ _ => Ok (lit "<UNHANDLED_ELEMENT>")))
            (Some (fun _ _ _ => Ok (lit "<UNHANDLED_ELEMENT>")))
            (Some (Ok (lit "<UNHANDLED_ELEMENT>"))) None None.

Definition sampleExtractor : Extractor (list N) :=
  mkExtractor sampleText sampleDefault sampleDefault sampleImage sampleDefault.

Definition sampleDoc : list Page :=
  [mkPage 612 792 (fun _ => Ok [137; 80; 78; 71]%N)].

Definition samplePages : list PageData :=
  [mkPageData 1 [mkDet "figure" (mkBox 0 0 10 10) 0.95;
                 mkDet "text" (mkBox 0 20 10 30) 0.9;
                 mkDet "image" (mkBox 0 40 10 50) 0.8]].

Definition samplePrs : list (list Shape) :=
  [[mkShape 0 0 None true (Some (lit " Title ")) (Raise AttributeError);
    mkShape 100 0 None false None (Ok [137; 80; 78; 71]%N)]].

Definition sampleSlides : list SlideData :=
  [mkSlideData 1 [mkPptxElement "text" (0, 0)%Z (50, 10)%Z;
                  mkPptxElement "text" (7, 7)%Z (50, 10)%Z;
                  mkPptxElement "image" (100, 0)%Z (50, 50)%Z]].

Lemma extraction_preserves_document_order_witness :
  (exists out,
     extractFromPdf sampleExtractor sampleDoc samplePages 250 [1; 0]%nat = Some (Ok out) /\
     Forall2 (pdf_page_in_order sampleExtractor sampleDoc 250) samplePages out) /\
  (exists out,
     extractFromPptx sampleExtractor samplePrs (lit "deck.pptx") sampleSlides [0]%nat
       = Some (Ok out) /\
     Forall2 (pptx_slide_in_order sampleExtractor samplePrs (lit "deck.pptx"))
       sampleSlides out).
Proof.
  destruct (extraction_preserves_document_order sampleExtractor) as [Hpdf Hpptx].
  split.
  - destruct (Hpdf sampleDoc samplePages 250%Q) as (r & Hsched & Horder & _).
    { apply NoDup_singleton. }
    assert (Hrun : extractFromPdf sampleExtractor sampleDoc samplePages 250 [1; 0]%nat
                   = Some r).
    { apply Hsched. intros st Hst. vm_compute in Hst. injection Hst as <-.
      intros f o Hf. destruct f as [|[|f]]; simpl in Hf; [| |discriminate].
      - apply elem_of_cons. right. apply elem_of_cons. now left.
      - apply elem_of_cons. now left. }
    destruct r as [out|e]; [|vm_compute in Hrun; discriminate Hrun].
    exists out. split; [exact Hrun|]. now apply Horder.
  - destruct (Hpptx samplePrs (lit "deck.pptx") sampleSlides) as (r & Hsched & Horder & _).
    { apply NoDup_singleton. }
    assert (Hrun : extractFromPptx sampleExtractor samplePrs (lit "deck.pptx")
                     sampleSlides [0]%nat = Some r).
    { apply Hsched. intros st Hst. vm_compute in Hst. injection Hst as <-.
      intros f o Hf. destruct f as [|f]; simpl in Hf; [|discriminate].
      apply elem_of_cons. now left. }
    destruct r as [out|e]; [|vm_compute in Hrun; discriminate Hrun].
    exists out. split; [exact Hrun|]. now apply Horder.
Defined.

Lemma pptx_unmatched_elements_are_omitted_witness :
  exists out,
    extractFromPptx sampleExtractor samplePrs (lit "deck.pptx") sampleSlides [0]%nat
      = Some (Ok out) /\
    length <$> (snd <$> out) = [2%nat] /\
    Forall2 (fun (s : SlideData) (o : Z * list (PptxOut (list N))) =>
               o.1 = slide_number s /\
               exists slide,
                 py_index samplePrs (slide_number s - 1) = Ok slide /\
                 (fun e => (po_type e, po_position e, po_size e)) <$> o.2 =
                 (fun elem => (classified_type elem, position elem, size elem)) <$>
                   matched slide (slide_elements s) /\
                 length o.2 = length (matched slide (slide_elements s)) /\
                 (length o.2 <= length (slide_elements s))%nat)
      sampleSlides out.
Proof.
  eexists. split; [vm_compute; reflexivity|]. split; [reflexivity|].
  apply (pptx_unmatched_elements_are_omitted sampleExtractor samplePrs (lit "deck.pptx")
           sampleSlides [0]%nat).
  vm_compute. reflexivity.
Defined.

(** Why the page numbers must be distinct: the third pass looks a page up
    by its number and takes the first one, so with a repeated number the
    result of a future of the second page lands in the first page. *)
Lemma repeated_page_number_misplaces_content :
  extractFromPdf sampleExtractor sampleDoc
    [mkPageData 1 [mkDet "text" (mkBox 0 20 10 30) 0.9];
     mkPageData 1 [mkDet "image" (mkBox 0 40 10 50) 0.8]] 250 [0]%nat =
  Some (Ok [(1%Z, [mkPdfOut "text" (mkBox 0 20 10 30) 0.9
                     (Some (lit "a picture at y=" ++ [40%N]))]);
            (1%Z, [mkPdfOut "image" (mkBox 0 40 10 50) 0.8 None])]).
Proof. vm_compute. reflexivity. Qed.

End ExtractorFacts.

(** ** Content cache (handlers/image_handler.py) *)

Module CacheFacts.
Import PyStr JsonText ImageCache.

(** *** Reading back what [json.dump] wrote *)

Lemma parse_escape (c : N) (t : list N) :
  parse_string_body (escape c ++ t) =
  '(s, r) ← parse_string_body t; Some (c :: s, r).
Proof.
  destruct (N.ltb_spec c 32) as [Hlt|Hge].
  - destruct c as [|p]; [reflexivity|].
    repeat (match goal with
            | p : positive |- _ => destruct p as [p|p|]
            end; try (exfalso; lia); try reflexivity).
  - destruct (N.eqb_spec c 34) as [->|H34]; [reflexivity|].
    destruct (N.eqb_spec c 92) as [->|H92]; [reflexivity|].
    unfold escape.
    rewrite (proj2 (N.eqb_neq c 34)), (proj2 (N.eqb_neq c 92)), (proj2 (N.eqb_neq c 10)),
      (proj2 (N.eqb_neq c 13)), (proj2 (N.eqb_neq c 9)), (proj2 (N.eqb_neq c 8)),
      (proj2 (N.eqb_neq c 12)), (proj2 (N.ltb_ge c 32)) by lia.
    cbn [app parse_string_body].
    rewrite (proj2 (N.eqb_neq c 34)), (proj2 (N.eqb_neq c 92)), (proj2 (N.ltb_ge c 32)) by lia.
    reflexivity.
Qed.

Lemma parse_escaped (s t : list N) :
  parse_string_body (flat_map escape s ++ 34%N :: t) = Some (s, t).
Proof.
  induction s as [|c s IH]; [reflexivity|].
  cbn [flat_map]. rewrite <- app_assoc, parse_escape, IH. reflexivity.
Qed.

Lemma parse_quoted (s t : list N) : parse_string (quote s ++ t) = Some (s, t).
Proof.
  unfold quote. cbn [app parse_string]. rewrite <- app_assoc. apply parse_escaped.
Qed.

Lemma entry_text_app (kv : list N * list N) (t : list N) :
  entry_text kv ++ t = 32%N :: 32%N :: quote kv.1 ++ 58%N :: 32%N :: quote kv.2 ++ t.
Proof. unfold entry_text. rewrite <- !app_assoc. reflexivity. Qed.

Lemma skip_ws_quote (s t : list N) : skip_ws (quote s ++ t) = quote s ++ t.
Proof. reflexivity. Qed.

Lemma skip_ws_indent (t : list N) : skip_ws (10%N :: 32%N :: 32%N :: t) = skip_ws t.
Proof. reflexivity. Qed.

(** One member: the key, the colon, the value; then the separator
    decides. *)
Lemma parse_members_step (fuel : nat) (kv : list N * list N) (t : list N)
    (acc : list (list N * list N)) :
  parse_members (S fuel) (10%N :: entry_text kv ++ t) acc =
  match skip_ws t with
  | 44%N :: t4 => parse_members fuel t4 (acc ++ [kv])
  | 125%N :: t4 => Some (acc ++ [kv], t4)
  | _ => None
  end.
Proof.
  cbn [parse_members]. rewrite entry_text_app, skip_ws_indent, skip_ws_quote, parse_quoted.
  cbn [mbind option_bind].
  change (skip_ws (58%N :: 32%N :: quote kv.2 ++ t))
    with (58%N :: 32%N :: quote kv.2 ++ t).
  cbv iota beta.
  change (skip_ws (32%N :: quote kv.2 ++ t)) with (quote kv.2 ++ t).
  rewrite parse_quoted. cbn [mbind option_bind]. destruct kv. reflexivity.
Qed.

Lemma parse_members_dump (entries : list (list N * list N)) :
  forall (acc : list (list N * list N)) (fuel : nat) (t : list N),
  entries <> [] -> length entries <= fuel ->
  parse_members fuel
    (10%N :: join (lit "," ++ [10%N]) (entry_text <$> entries) ++ 10%N :: 125%N :: t) acc
  = Some (acc ++ entries, t).
Proof.
  induction entries as [|kv entries IH]; intros acc fuel t Hne Hfuel; [contradiction|].
  destruct fuel as [|fuel]; [simpl in Hfuel; lia|].
  destruct entries as [|kv' entries].
  - change (join (lit "," ++ [10%N]) (entry_text <$> [kv])) with (entry_text kv).
    rewrite parse_members_step. reflexivity.
  - change (join (lit "," ++ [10%N]) (entry_text <$> kv :: kv' :: entries))
      with (entry_text kv ++ 44%N :: 10%N ::
            join (lit "," ++ [10%N]) (entry_text <$> kv' :: entries)).
    rewrite <- app_assoc, parse_members_step.
    change (skip_ws ((44%N :: 10%N ::
              join (lit "," ++ [10%N]) (entry_text <$> kv' :: entries)) ++
              10%N :: 125%N :: t))
      with (44%N :: 10%N :: join (lit "," ++ [10%N]) (entry_text <$> kv' :: entries) ++
              10%N :: 125%N :: t).
    cbv iota beta.
    rewrite (IH (acc ++ [kv]) fuel t); [|discriminate|simpl in *; lia].
    now rewrite <- app_assoc.
Qed.

Lemma join_length (sep : list N) (parts : list (list N)) :
  Forall (fun p => 1 <= length p) parts -> length parts <= length (join sep parts).
Proof.
  induction 1 as [|p parts Hp Hps IH]; [simpl; lia|].
  destruct parts as [|p' parts]; [simpl; lia|].
  change (join sep (p :: p' :: parts)) with (p ++ sep ++ join sep (p' :: parts)).
  rewrite !length_app. simpl in *. lia.
Qed.

Lemma parse_dump_entries (entries : list (list N * list N)) :
  parse_object (dump_entries entries) = Some entries.
Proof.
  destruct entries as [|kv entries]; [reflexivity|].
  unfold dump_entries, parse_object.
  set (body := join (lit "," ++ [10%N]) (entry_text <$> kv :: entries)).
  assert (Hlen : S (length entries) <= length body).
  { pose proof (join_length (lit "," ++ [10%N]) (entry_text <$> kv :: entries)) as Hj.
    rewrite length_fmap in Hj. apply Hj.
    apply Forall_fmap, Forall_forall. intros e _. simpl.
    unfold entry_text. rewrite !length_app. simpl. lia. }
  change (lit "{" ++ [10%N] ++ body ++ [10%N] ++ lit "}")
    with (123%N :: 10%N :: body ++ 10%N :: 125%N :: []).
  change (skip_ws (123%N :: 10%N :: body ++ 10%N :: 125%N :: []))
    with (123%N :: 10%N :: body ++ 10%N :: 125%N :: []).
  cbv iota beta.
  assert (Hbody : exists t, skip_ws (10%N :: body ++ 10%N :: 125%N :: []) = 34%N :: t).
  { subst body. destruct entries as [|kv' entries].
    - change (join (lit "," ++ [10%N]) (entry_text <$> [kv])) with (entry_text kv).
      rewrite entry_text_app, skip_ws_indent, skip_ws_quote. unfold quote. simpl. eauto.
    - change (join (lit "," ++ [10%N]) (entry_text <$> kv :: kv' :: entries))
        with (entry_text kv ++ 44%N :: 10%N ::
              join (lit "," ++ [10%N]) (entry_text <$> kv' :: entries)).
      rewrite <- app_assoc, entry_text_app, skip_ws_indent, skip_ws_quote.
      unfold quote. simpl. eauto. }
  destruct Hbody as [t ->].
  rewrite (parse_members_dump (kv :: entries) [] _ []); [reflexivity|discriminate|].
  simpl. rewrite !length_app. simpl. lia.
Qed.

Lemma to_dict_snoc (entries : list (list N * list N)) (kv : list N * list N) :
  to_dict (entries ++ [kv]) = <[kv.1 := kv.2]> (to_dict entries).
Proof. unfold to_dict. now rewrite foldl_app. Qed.

Lemma to_dict_list_to_map (entries : list (list N * list N)) :
  to_dict entries = list_to_map (reverse entries).
Proof.
  induction entries as [|kv entries IH] using rev_ind; [reflexivity|].
  rewrite to_dict_snoc, reverse_app, IH. reflexivity.
Qed.

(** [json.load] reads back exactly the dict that [json.dump] wrote. *)
Lemma json_load_dump (d : gmap (list N) (list N)) : json_load (json_dump d) = Some d.
Proof.
  unfold json_load, json_dump. rewrite parse_dump_entries. simpl. f_equal.
  rewrite to_dict_list_to_map. symmetry. apply list_to_map_flip.
  symmetry. apply reverse_Permutation.
Qed.

(** *** What reaches the file *)

(** Text UTF-8 can encode, and a dict that holds nothing else. *)
Definition utf8_text (s : list N) : Prop := utf8_encodable s = true.

Definition storable (d : gmap (list N) (list N)) : Prop :=
  map_Forall (fun k v => utf8_text k /\ utf8_text v) d.

Definition storable_entries (entries : list (list N * list N)) : Prop :=
  Forall (fun kv => utf8_text kv.1 /\ utf8_text kv.2) entries.

Lemma storable_map_to_list (d : gmap (list N) (list N)) :
  storable d <-> storable_entries (map_to_list d).
Proof.
  unfold storable, storable_entries. rewrite map_Forall_to_list.
  apply Forall_iff. now intros [k v].
Qed.

Lemma utf8_encodable_app (s t : list N) :
  utf8_encodable (s ++ t) = utf8_encodable s && utf8_encodable t.
Proof. apply forallb_app. Qed.

Lemma escape_encodable (c : N) :
  utf8_encodable (escape c) = negb (is_surrogate c).
Proof.
  unfold escape.
  repeat match goal with
         | |- context [(c =? ?n)%N] => destruct (N.eqb_spec c n) as [->|?]; [reflexivity|]
         end.
  destruct (N.ltb_spec c 32) as [Hlt|Hge].
  - assert (Hd : forall d, (d < 16)%N -> is_surrogate (hex_digit d) = false).
    { intros d Hd. unfold hex_digit, is_surrogate.
      destruct (N.ltb_spec d 10); apply andb_false_intro1; apply N.leb_gt; lia. }
    assert (Hc : is_surrogate c = false).
    { unfold is_surrogate. apply andb_false_intro1, N.leb_gt. lia. }
    unfold utf8_encodable. cbn [forallb].
    rewrite !Hd, Hc; [reflexivity| |].
    + apply N.mod_lt. lia.
    + apply N.Div0.div_lt_upper_bound. lia.
  - unfold utf8_encodable. simpl. now rewrite andb_true_r.
Qed.

Lemma escaped_encodable (s : list N) :
  utf8_encodable (flat_map escape s) = utf8_encodable s.
Proof.
  induction s as [|c s IH]; [reflexivity|].
  cbn [flat_map]. rewrite utf8_encodable_app, escape_encodable, IH. reflexivity.
Qed.

(** A quoted string can be written exactly when the string can. *)
Lemma quote_encodable (s : list N) : utf8_encodable (quote s) = utf8_encodable s.
Proof.
  unfold quote. rewrite !utf8_encodable_app, escaped_encodable.
  change (utf8_encodable [34%N]) with true. now rewrite andb_true_r.
Qed.

(** The chunks after the first member: for every further member a
    separator and the member, then the closing brace. *)
Definition more_chunks (entries : list (list N * list N)) : list (list N) :=
  flat_map (fun kv' => (lit "," ++ [10%N] ++ lit "  ") :: entry_chunks kv') entries ++
  [[10%N]; lit "}"].

Definition more_text (entries : list (list N * list N)) : list N :=
  flat_map (fun kv' => lit "," ++ [10%N] ++ entry_text kv') entries ++ [10%N; 125%N].

Lemma write_entry (kv : list N * list N) (chunks : list (list N)) :
  write_chunks (entry_chunks kv ++ chunks) =
  if utf8_encodable kv.1 then
    if utf8_encodable kv.2 then
      ((quote kv.1 ++ lit ": " ++ quote kv.2 ++ (write_chunks chunks).1),
       (write_chunks chunks).2)
    else (quote kv.1 ++ lit ": ", false)
  else ([], false).
Proof.
  unfold entry_chunks. cbn [app write_chunks]. rewrite !quote_encodable.
  destruct (utf8_encodable kv.1); [|reflexivity].
  change (utf8_encodable (lit ": ")) with true. cbv iota.
  destruct (utf8_encodable kv.2).
  - destruct (write_chunks chunks) as [text complete]. simpl.
    now rewrite <- !app_assoc.
  - simpl. rewrite ?app_nil_r. reflexivity.
Qed.

Lemma write_more (kv : list N * list N) (entries : list (list N * list N)) :
  write_chunks (more_chunks (kv :: entries)) =
  ((lit "," ++ [10%N] ++ lit "  ") ++
     (write_chunks (entry_chunks kv ++ more_chunks entries)).1,
   (write_chunks (entry_chunks kv ++ more_chunks entries)).2).
Proof.
  unfold more_chunks. cbn [flat_map]. rewrite <- !app_comm_cons, <- app_assoc.
  cbn [write_chunks].
  change (utf8_encodable (lit "," ++ [10%N] ++ lit "  ")) with true. cbv iota.
  now destruct (write_chunks _).
Qed.

(** When every key and value can be encoded, every chunk is written. *)
Lemma write_more_storable (entries : list (list N * list N)) :
  storable_entries entries ->
  write_chunks (more_chunks entries) = (more_text entries, true).
Proof.
  induction 1 as [|kv entries [Hk Hv] _ IH]; [reflexivity|].
  rewrite write_more, write_entry, Hk, Hv, IH. cbn [fst snd]. f_equal.
  unfold more_text, entry_text. cbn [flat_map]. rewrite <- !app_assoc. reflexivity.
Qed.

Lemma join_entries_more (kv : list N * list N) (entries : list (list N * list N)) :
  join (lit "," ++ [10%N]) (entry_text <$> kv :: entries) ++ [10%N; 125%N] =
  entry_text kv ++ more_text entries.
Proof.
  revert kv. induction entries as [|kv' entries IH]; intros kv.
  - reflexivity.
  - change (join (lit "," ++ [10%N]) (entry_text <$> kv :: kv' :: entries))
      with (entry_text kv ++ (lit "," ++ [10%N]) ++
            join (lit "," ++ [10%N]) (entry_text <$> kv' :: entries)).
    rewrite <- !app_assoc. rewrite IH. unfold more_text. cbn [flat_map].
    rewrite <- !app_assoc. reflexivity.
Qed.

Lemma dump_entries_more (kv : list N * list N) (entries : list (list N * list N)) :
  dump_entries (kv :: entries) = lit "{" ++ [10%N] ++ entry_text kv ++ more_text entries.
Proof.
  unfold dump_entries. rewrite <- join_entries_more. reflexivity.
Qed.

Lemma write_dump_storable (entries : list (list N * list N)) :
  storable_entries entries ->
  write_chunks (dump_chunks entries) = (dump_entries entries, true).
Proof.
  destruct 1 as [|kv entries [Hk Hv] Hrest]; [reflexivity|].
  rewrite dump_entries_more.
  change (dump_chunks (kv :: entries))
    with (lit "{" :: ([10%N] ++ lit "  ") :: entry_chunks kv ++ more_chunks entries).
  cbn [write_chunks].
  change (utf8_encodable (lit "{")) with true.
  change (utf8_encodable ([10%N] ++ lit "  ")) with true. cbv iota.
  rewrite write_entry, Hk, Hv, write_more_storable by assumption.
  cbn [fst snd]. unfold entry_text. rewrite <- !app_assoc. reflexivity.
Qed.

(** A write that stops at a chunk leaves text [json.load] cannot read:
    the members break off before a key, or before a value. *)
Lemma parse_members_torn (entries : list (list N * list N)) :
  forall (kv : list N * list N) (fuel : nat) (acc : list (list N * list N)),
  (write_chunks (entry_chunks kv ++ more_chunks entries)).2 = false ->
  parse_members fuel
    (10%N :: 32%N :: 32%N :: (write_chunks (entry_chunks kv ++ more_chunks entries)).1) acc
  = None.
Proof.
  induction entries as [|kv' entries IH]; intros kv fuel acc;
    (destruct fuel as [|fuel]; [reflexivity|]); rewrite write_entry;
    destruct (utf8_encodable kv.1) eqn:Ek; [|reflexivity| |reflexivity];
    (destruct (utf8_encodable kv.2) eqn:Ev;
      [|intros _; cbn [fst parse_members]; rewrite skip_ws_indent, skip_ws_quote, parse_quoted;
        reflexivity]).
  - discriminate.
  - rewrite write_more. cbn [fst snd]. intros Htorn.
    change (10%N :: 32%N :: 32%N :: quote kv.1 ++ lit ": " ++ quote kv.2 ++
            (lit "," ++ [10%N] ++ lit "  ") ++
            (write_chunks (entry_chunks kv' ++ more_chunks entries)).1)
      with (10%N :: (lit "  " ++ quote kv.1 ++ lit ": " ++ quote kv.2 ++
            44%N :: 10%N :: 32%N :: 32%N ::
            (write_chunks (entry_chunks kv' ++ more_chunks entries)).1)).
    replace (lit "  " ++ quote kv.1 ++ lit ": " ++ quote kv.2 ++
             44%N :: 10%N :: 32%N :: 32%N ::
             (write_chunks (entry_chunks kv' ++ more_chunks entries)).1)
      with (entry_text kv ++ 44%N :: 10%N :: 32%N :: 32%N ::
            (write_chunks (entry_chunks kv' ++ more_chunks entries)).1)
      by (unfold entry_text; now rewrite <- !app_assoc).
    rewrite parse_members_step.
    change (skip_ws (44%N :: ?t)) with (44%N :: t). cbv iota beta.
    now apply IH.
Qed.

Lemma write_dump_torn (entries : list (list N * list N)) :
  (write_chunks (dump_chunks entries)).2 = false ->
  parse_object (write_chunks (dump_chunks entries)).1 = None.
Proof.
  destruct entries as [|kv entries]; [discriminate|].
  change (dump_chunks (kv :: entries))
    with (lit "{" :: ([10%N] ++ lit "  ") :: entry_chunks kv ++ more_chunks entries).
  cbn [write_chunks].
  change (utf8_encodable (lit "{")) with true.
  change (utf8_encodable ([10%N] ++ lit "  ")) with true. cbv iota.
  pose proof (parse_members_torn entries kv) as Hmembers.
  pose proof (write_entry kv (more_chunks entries)) as Hentry.
  destruct (write_chunks (entry_chunks kv ++ more_chunks entries)) as [text complete].
  cbn [fst snd] in *. intros ->.
  unfold parse_object.
  change (skip_ws (lit "{" ++ ([10%N] ++ lit "  ") ++ text))
    with (123%N :: 10%N :: 32%N :: 32%N :: text).
  cbv iota beta. rewrite skip_ws_indent, Hmembers by reflexivity.
  assert (Hshape : text = [] \/ exists t, text = 34%N :: t).
  { destruct (utf8_encodable kv.1); [|left; congruence].
    right. destruct (utf8_encodable kv.2); apply (f_equal fst) in Hentry;
      cbn [fst] in Hentry; subst text; unfold quote; eexists; reflexivity. }
  destruct Hshape as [->|[t ->]]; reflexivity.
Qed.

Lemma write_dump_complete (entries : list (list N * list N)) :
  (write_chunks (dump_chunks entries)).2 = true <-> storable_entries entries.
Proof.
  split; [|intros H; now rewrite write_dump_storable].
  destruct entries as [|kv entries]; [constructor|].
  change (dump_chunks (kv :: entries))
    with (lit "{" :: ([10%N] ++ lit "  ") :: entry_chunks kv ++ more_chunks entries).
  cbn [write_chunks].
  change (utf8_encodable (lit "{")) with true.
  change (utf8_encodable ([10%N] ++ lit "  ")) with true. cbv iota.
  destruct (write_chunks (entry_chunks kv ++ more_chunks entries)) as [text complete] eqn:E.
  cbn [snd]. intros ->.
  assert (H : (write_chunks (entry_chunks kv ++ more_chunks entries)).2 = true)
    by now rewrite E.
  clear E text. revert kv H.
  induction entries as [|kv' entries IH]; intros kv; rewrite write_entry;
    destruct (utf8_encodable kv.1) eqn:Ek; try discriminate;
    destruct (utf8_encodable kv.2) eqn:Ev; try discriminate; cbn [snd].
  - intros _. now repeat constructor.
  - rewrite write_more. cbn [snd]. intros H. constructor; [now split|]. now apply IH.
Qed.

(** *** The cache *)

(** What [_saveCache] leaves in the file: the whole JSON text when the
    dict is storable, and otherwise text from which a fresh cache loads
    nothing. *)
Lemma saved_storable (self : ImageCache.t) :
  storable (cache self) ->
  cacheFile (_saveCache self) = Some (json_dump (cache self)).
Proof.
  intros H. apply storable_map_to_list in H. unfold _saveCache, json_dump. simpl.
  now rewrite write_dump_storable.
Qed.

Lemma saved_torn (self : ImageCache.t) :
  ~ storable (cache self) -> _loadCache (cacheFile (_saveCache self)) = ∅.
Proof.
  intros H. unfold _saveCache, _loadCache, json_load. simpl.
  rewrite write_dump_torn; [reflexivity|].
  destruct (write_chunks _).2 eqn:E; [|reflexivity].
  exfalso. apply H, storable_map_to_list, write_dump_complete, E.
Qed.

(** A run of [set] calls, and the last value it sets for a hash. *)
Definition set_all (self : ImageCache.t) (ops : list (list N * list N)) : ImageCache.t :=
  foldl (fun c op => set c op.1 op.2) self ops.

Fixpoint last_set (ops : list (list N * list N)) (h : list N) : option (list N) :=
  match ops with
  | [] => None
  | op :: ops' =>
      match last_set ops' h with
      | Some v => Some v
      | None => if decide (op.1 = h) then Some op.2 else None
      end
  end.

Lemma get_set (self : ImageCache.t) (h v k : list N) :
  get (set self h v) k = if decide (h = k) then Some v else get self k.
Proof. unfold get, set. simpl. apply lookup_insert. Qed.

Lemma get_set_all (ops : list (list N * list N)) :
  forall (self : ImageCache.t) (k : list N),
  get (set_all self ops) k =
  match last_set ops k with
  | Some v => Some v
  | None => get self k
  end.
Proof.
  induction ops as [|op ops IH]; intros self k; [reflexivity|].
  change (set_all self (op :: ops)) with (set_all (set self op.1 op.2) ops).
  rewrite IH. simpl. destruct (last_set ops k); [reflexivity|].
  rewrite get_set. destruct (decide (op.1 = k)); reflexivity.
Qed.

(** A cache constructed on the file that [set] wrote is the cache that
    wrote it, when what that cache holds can be encoded; it is empty
    when not. *)
Lemma reload_set (self : ImageCache.t) (h v : list N) :
  storable (cache (set self h v)) ->
  init (cacheFile (set self h v)) = set self h v.
Proof.
  intros H.
  assert (Hfile : cacheFile (set self h v) = Some (json_dump (cache (set self h v))))
    by exact (saved_storable (mkCache (<[h := v]> (cache self)) (cacheFile self)) H).
  destruct (set self h v) as [c file]. simpl in Hfile. subst file.
  unfold init, _loadCache. simpl. now rewrite json_load_dump.
Qed.

Lemma reload_set_torn (self : ImageCache.t) (h v : list N) :
  ~ storable (cache (set self h v)) ->
  cache (init (cacheFile (set self h v))) = ∅.
Proof.
  intros H.
  exact (saved_torn (mkCache (<[h := v]> (cache self)) (cacheFile self)) H).
Qed.

(** C5.  After [set(h, v)], [get(h)] returns [v].  A cache freshly
    constructed on the persisted file is the cache that wrote it, so that
    its [get] returns, for every hash, the last value set for it (and
    what was cached before for the hashes never set), provided that every
    hash and every value the writing cache holds is text UTF-8 can
    encode, that is, holds no unpaired surrogate.  When one of them is
    not, the write of the file has stopped at it, and the fresh cache is
    empty. *)
Theorem cache_round_trip
    (self : ImageCache.t) (ops : list (list N * list N)) (h v : list N) :
  get (set self h v) h = Some v /\
  (let after := set (set_all self ops) h v in
   (storable (cache after) ->
    init (cacheFile after) = after /\
    forall k,
      get (init (cacheFile after)) k =
      match last_set (ops ++ [(h, v)]) k with
      | Some x => Some x
      | None => get self k
      end) /\
   (~ storable (cache after) ->
    forall k, get (init (cacheFile after)) k = None)).
Proof.
  split.
  - rewrite get_set. now destruct (decide (h = h)).
  - cbv zeta. split.
    + intros Hs. split; [now apply reload_set|].
      intros k. rewrite reload_set by exact Hs.
      change (set (set_all self ops) h v) with (set_all (set_all self ops) [(h, v)]).
      unfold set_all. rewrite <- foldl_app. apply get_set_all.
    + intros Hs k. unfold get. rewrite reload_set_torn by exact Hs.
      apply lookup_empty.
Qed.

(** A cache with two entries, the second value holding a tab, a Greek
    letter, a line feed, a backslash, a quote and a control character. *)
Definition sampleCache : ImageCache.t :=
  set (set (init None) (lit "ab12") (lit "a chart"))
      (lit "cd34") [9; 955; 10; 92; 34; 1]%N.

Lemma sampleCache_storable : storable (cache sampleCache).
Proof.
  apply storable_map_to_list. vm_compute. repeat constructor.
Qed.

(** The same cache after a third [set] whose value is an unpaired
    surrogate, as a reply decoded from a JSON escape may hold one. *)
Definition tornCache : ImageCache.t := set sampleCache (lit "ef56") [55296%N].

Lemma tornCache_not_storable : ~ storable (cache tornCache).
Proof.
  intros H. destruct (H (lit "ef56") [55296%N]) as [_ Hv]; [reflexivity|discriminate Hv].
Qed.

Lemma cache_round_trip_witness :
  (storable (cache sampleCache) /\
   init (cacheFile sampleCache) = sampleCache /\
   get (init (cacheFile sampleCache)) (lit "cd34") = Some [9; 955; 10; 92; 34; 1]%N /\
   get (init (cacheFile sampleCache)) (lit "ab12") = Some (lit "a chart")) /\
  (~ storable (cache tornCache) /\
   get tornCache (lit "ef56") = Some [55296%N] /\
   get (init (cacheFile tornCache)) (lit "ab12") = None).
Proof.
  split.
  - pose proof (proj1 (proj2 (cache_round_trip (init None) [(lit "ab12", lit "a chart")]
                                (lit "cd34") [9; 955; 10; 92; 34; 1]%N))
                  sampleCache_storable) as [Hsame Hget].
    split; [exact sampleCache_storable|]. split; [exact Hsame|].
    split; [exact (Hget (lit "cd34"))|exact (Hget (lit "ab12"))].
  - split; [exact tornCache_not_storable|]. split.
    + exact (proj1 (cache_round_trip sampleCache [] (lit "ef56") [55296%N])).
    + exact (proj2 (proj2 (cache_round_trip sampleCache [] (lit "ef56") [55296%N]))
               tornCache_not_storable (lit "ab12")).
Defined.

(** Against the round trip for every value: after the third [set] the
    cache answers with the surrogate and still holds the first entry,
    but a cache constructed on the file answers [None] for all three
    hashes. *)
Lemma unpaired_surrogate_loses_the_file :
  get tornCache (lit "ef56") = Some [55296%N] /\
  get tornCache (lit "ab12") = Some (lit "a chart") /\
  get (init (cacheFile tornCache)) (lit "ef56") = None /\
  get (init (cacheFile tornCache)) (lit "ab12") = None /\
  get (init (cacheFile tornCache)) (lit "cd34") = None.
Proof. vm_compute. repeat split; reflexivity. Qed.

End CacheFacts.

(** ** Page numbers assigned by the analyser (analyzers/pdf_analyzer.py) *)

Module AnalyzerFacts.
Import NmsProcessor ContentExtractor PdfAnalyzer.

Lemma analyze_from_numbers (predictions : list (list Detection)) (thr : Q) :
  forall (pageNum : nat) (pages : list PageData),
  analyze_from pageNum predictions thr = Ok pages ->
  page_number <$> pages =
  (fun i => (Z.of_nat i + 1)%Z) <$> seq pageNum (length predictions).
Proof.
  induction predictions as [|boxes rest IH]; intros pageNum pages; simpl.
  - now intros [= <-].
  - destruct (removeDuplicates _ thr) as [dets|e]; simpl; [|discriminate].
    destruct (analyze_from (S pageNum) rest thr) as [results|e] eqn:E; simpl; [|discriminate].
    intros [= <-]. rewrite fmap_cons. simpl. f_equal. now apply IH.
Qed.

(** The analyser numbers the pages 1, 2, 3, ...: the numbers are distinct. *)
Lemma analyze_numbers_distinct (predictions : list (list Detection)) (thr : Q)
    (pages : list PageData) :
  analyze predictions thr = Ok pages -> NoDup (page_number <$> pages).
Proof.
  intros H. apply analyze_from_numbers in H. rewrite H.
  apply NoDup_fmap_2; [|apply NoDup_seq].
  intros i j Hij. lia.
Qed.

End AnalyzerFacts.
(** ** More on duplicate suppression (core/nms_processor.py) *)

Module NmsMore.
Import NmsProcessor NmsFacts.

(** The area [computeIou] computes for a box. *)
Definition area (b : Box) : Q := ((xMax b - xMin b) * (yMax b - yMin b))%Q.

(** Two intervals [[lo1, hi1]] and [[lo2, hi2]], neither of them
    inverted, that share a point. *)
Definition meet_on (lo1 hi1 lo2 hi2 : Q) : Prop :=
  (lo1 <= hi1)%Q /\ (lo2 <= hi2)%Q /\ (lo1 <= hi2)%Q /\ (lo2 <= hi1)%Q.

(** Two boxes, neither of them inverted, that overlap or touch. *)
Definition meet (b1 b2 : Box) : Prop :=
  meet_on (xMin b1) (xMax b1) (xMin b2) (xMax b2) /\
  meet_on (yMin b1) (yMax b1) (yMin b2) (yMax b2).

(** The coordinates on which the float arithmetic of [computeIou] is
    exact: the multiples of 1/1024 from -32768 to 32768.  Two of them
    differ by an integer of magnitude at most 2^26 over 1024; the product
    of two such differences, and the sum of two such products less a
    third, is an integer of magnitude at most 2^53 over 1024 * 1024.  All
    of these are floats, so that no operation before the division
    rounds, overflows or underflows: up to the division, the floats of
    the code are the rationals computed here. *)
Definition on_grid (q : Q) : bool :=
  let n := Qred (q * 1024) in
  ((Qden n =? 1)%positive && (Z.abs (Qnum n) <=? 2 ^ 25)%Z).

Definition grid_box (b : Box) : bool :=
  on_grid (xMin b) && on_grid (yMin b) && on_grid (xMax b) && on_grid (yMax b).

Lemma survivors_dropped thr best ds out :
  survivors thr best ds = Ok out ->
  forall d, d ∈ ds -> d ∈ out \/ survives thr best d = Ok false.
Proof.
  revert out. induction ds as [|x ds IH]; intros out; simpl.
  - intros _ d Hd. inversion Hd.
  - destruct (survives thr best x) as [k|e] eqn:Ek; simpl; [|discriminate].
    destruct (survivors thr best ds) as [rest|e]; simpl; [|discriminate].
    intros [= <-] d Hd. apply elem_of_cons in Hd as [->|Hd].
    + destruct k; [left; apply elem_of_cons; now left|now right].
    + destruct (IH rest eq_refl d Hd) as [Hin|Hno]; [|now right].
      left. destruct k; [apply elem_of_cons; now right|assumption].
Qed.

Lemma survives_false thr best d :
  survives thr best d = Ok false ->
  class_name d = class_name best /\
  exists v, computeIou (bbox d) (bbox best) = Ok v /\ (thr < v)%Q.
Proof.
  unfold survives.
  destruct (String.eqb (class_name d) (class_name best)) eqn:E; simpl; [|discriminate].
  apply String.eqb_eq in E. split; [assumption|].
  destruct (computeIou (bbox d) (bbox best)) as [v|e]; simpl in *; [|discriminate].
  exists v. split; [reflexivity|]. apply Qle_bool_false. congruence.
Qed.

Lemma sorted_desc_sublist (l k : list Detection) :
  sublist k l -> sorted_desc l -> sorted_desc k.
Proof.
  unfold sorted_desc. intros Hs Hl. revert k Hs.
  induction Hl as [|x l Hl IH Hf]; intros k Hs.
  - apply sublist_nil_r in Hs as ->. constructor.
  - apply sublist_cons_r in Hs as [Hs|(k' & -> & Hs)]; [now apply IH|].
    constructor; [now apply IH|].
    apply Forall_forall. intros y Hy.
    apply (proj1 (Forall_forall _ _) Hf). eapply elem_of_sublist; eassumption.
Qed.

(** The loop invariant of [removeDuplicates] on a list in descending
    confidence order: every detection is kept or was dropped by the
    filter run for a kept detection that is at least as confident. *)
Lemma nms_loop_dropped thr n :
  forall keep l out, length l <= n -> sorted_desc l ->
  nms_loop thr keep l = Ok out ->
  forall d, d ∈ l ->
    d ∈ out \/
    exists k, k ∈ out /\ survives thr k d = Ok false /\ (conf d <= conf k)%Q.
Proof.
  induction n as [|n IH]; intros keep l out Hn Hsorted.
  - destruct l; [|simpl in Hn; lia]. intros _ d Hd. inversion Hd.
  - destruct l as [|best rest]; [intros _ d Hd; inversion Hd|].
    rewrite nms_loop_cons.
    destruct (survivors thr best rest) as [rest'|e] eqn:Es; [|discriminate].
    intros Hout d Hd.
    pose proof (survivors_length _ _ _ _ Es) as Hlen.
    destruct (survivors_inv _ _ _ _ Es) as [_ Hsub].
    assert (Hbest : best ∈ out).
    { apply (nms_loop_inv thr (length rest')) in Hout; [|lia].
      destruct Hout as (kept & -> & _). apply elem_of_app. left.
      apply elem_of_app. right. apply elem_of_cons. now left. }
    inversion Hsorted as [|? ? Hrest Hf]; subst.
    apply elem_of_cons in Hd as [->|Hd]; [now left|].
    destruct (survivors_dropped _ _ _ _ Es d Hd) as [Hin|Hno].
    + eapply (IH _ rest' out); [simpl in Hn; lia| |exact Hout|exact Hin].
      eapply sorted_desc_sublist; eassumption.
    + right. exists best. split; [assumption|]. split; [assumption|].
      apply (proj1 (Forall_forall _ _) Hf). assumption.
Qed.

Lemma removeDuplicates_kept dets thr keep :
  removeDuplicates dets thr = Ok keep ->
  Suppressed thr keep /\ sublist keep (sort_desc dets).
Proof.
  rewrite removeDuplicates_eq. intros H.
  apply (nms_loop_inv thr (length (sort_desc dets))) in H; [|lia].
  destruct H as (kept & -> & Hsup & Hsub). now split.
Qed.

Lemma nms_loop_head thr keep best rest out :
  nms_loop thr keep (best :: rest) = Ok out ->
  exists kept, out = keep ++ best :: kept.
Proof.
  rewrite nms_loop_cons.
  destruct (survivors thr best rest) as [rest'|e]; [|discriminate].
  intros H. apply (nms_loop_inv thr (length rest')) in H; [|lia].
  destruct H as (kept & -> & _). exists kept. now rewrite <- app_assoc.
Qed.

Lemma meet_on_iff (lo1 hi1 lo2 hi2 : Q) :
  (pymax lo1 lo2 <= pymin hi1 hi2)%Q <-> meet_on lo1 hi1 lo2 hi2.
Proof. unfold meet_on, pymax, pymin. case_ltb; split; intros; lra. Qed.

(** X1. [computeIou] does not depend on the order of its two boxes:
    either both calls raise the same exception, or both return and the
    two values are equal. *)
Theorem computeIou_symmetric (b1 b2 : Box) :
  (exists e, computeIou b1 b2 = Raise e /\ computeIou b2 b1 = Raise e) \/
  (exists v v', computeIou b1 b2 = Ok v /\ computeIou b2 b1 = Ok v' /\ (v == v')%Q).
Proof.
  pose proof (computeIou_sym b1 b2) as H. unfold agree in H.
  destruct (computeIou b1 b2) as [v|e], (computeIou b2 b1) as [v'|e'];
    try contradiction.
  - right. eauto.
  - left. subst. eauto.
Qed.

(** X2. Every value returned by [computeIou] lies between 0 and 1; it
    is 1 for two boxes that have the same positive-area extent, and only
    for those. *)
Theorem computeIou_unit_interval (b1 b2 : Box) (v : Q) :
  computeIou b1 b2 = Ok v ->
  (0 <= v <= 1)%Q /\
  ((v == 1)%Q <->
   proper_box b1 /\
   (xMin b1 == xMin b2)%Q /\ (yMin b1 == yMin b2)%Q /\
   (xMax b1 == xMax b2)%Q /\ (yMax b1 == yMax b2)%Q).
Proof.
  intros H. split; [now apply (computeIou_range b1 b2)|].
  revert H. unfold computeIou; cbv zeta.
  destruct (pymax_bounds (xMin b1) (xMin b2)) as [Hx1 Hx2].
  destruct (pymax_bounds (yMin b1) (yMin b2)) as [Hy1 Hy2].
  destruct (pymin_bounds (xMax b1) (xMax b2)) as [HX1 HX2].
  destruct (pymin_bounds (yMax b1) (yMax b2)) as [HY1 HY2].
  assert (Hxm : (xMin b1 == xMin b2 -> pymax (xMin b1) (xMin b2) == xMin b1)%Q)
    by (unfold pymax; case_ltb; lra).
  assert (Hym : (yMin b1 == yMin b2 -> pymax (yMin b1) (yMin b2) == yMin b1)%Q)
    by (unfold pymax; case_ltb; lra).
  assert (HxM : (xMax b1 == xMax b2 -> pymin (xMax b1) (xMax b2) == xMax b1)%Q)
    by (unfold pymin; case_ltb; lra).
  assert (HyM : (yMax b1 == yMax b2 -> pymin (yMax b1) (yMax b2) == yMax b1)%Q)
    by (unfold pymin; case_ltb; lra).
  set (ixm := pymax (xMin b1) (xMin b2)) in *.
  set (iym := pymax (yMin b1) (yMin b2)) in *.
  set (ixM := pymin (xMax b1) (xMax b2)) in *.
  set (iyM := pymin (yMax b1) (yMax b2)) in *.
  destruct (Qltb ixM ixm) eqn:Ex; simpl.
  { intros [= <-]. apply Qltb_true in Ex. split; [intros Hv; lra|].
    intros ([Hp1 Hp2] & E1 & E2 & E3 & E4).
    specialize (Hxm E1). specialize (HxM E3). lra. }
  destruct (Qltb iyM iym) eqn:Ey; simpl.
  { intros [= <-]. apply Qltb_true in Ey. split; [intros Hv; lra|].
    intros ([Hp1 Hp2] & E1 & E2 & E3 & E4).
    specialize (Hym E2). specialize (HyM E4). lra. }
  apply Qltb_false in Ex, Ey.
  unfold truediv.
  set (i := ((ixM - ixm) * (iyM - iym))%Q).
  set (a1 := ((xMax b1 - xMin b1) * (yMax b1 - yMin b1))%Q).
  set (a2 := ((xMax b2 - xMin b2) * (yMax b2 - yMin b2))%Q).
  destruct (Qeq_bool (a1 + a2 - i) 0) eqn:E; [discriminate|].
  intros [= <-].
  assert (Hne : ~ (a1 + a2 - i == 0)%Q)
    by (intros Hz; apply Qeq_bool_iff in Hz; congruence).
  assert (Hi0 : (0 <= i)%Q) by (subst i; nra).
  assert (Hi1 : (i <= a1)%Q) by (subst i a1; nra).
  assert (Hi2 : (i <= a2)%Q) by (subst i a2; nra).
  split.
  - intros Hv.
    assert (Heq : (i == a1 + a2 - i)%Q).
    { rewrite <- (Qmult_1_l (a1 + a2 - i)), <- Hv. field. exact Hne. }
    assert (Ha1 : (a1 == i)%Q) by lra.
    assert (Ha2 : (a2 == i)%Q) by lra.
    assert (Hpos : (0 < i)%Q) by lra.
    assert (Hw : (0 < ixM - ixm)%Q) by (subst i; nra).
    assert (Hh : (0 < iyM - iym)%Q) by (subst i; nra).
    assert (Hw1 : (xMax b1 - xMin b1 == ixM - ixm)%Q) by (subst i a1; nra).
    assert (Hh1 : (yMax b1 - yMin b1 == iyM - iym)%Q) by (subst i a1; nra).
    assert (Hw2 : (xMax b2 - xMin b2 == ixM - ixm)%Q) by (subst i a2; nra).
    assert (Hh2 : (yMax b2 - yMin b2 == iyM - iym)%Q) by (subst i a2; nra).
    split; [split; lra|]. repeat split; lra.
  - intros ([Hp1 Hp2] & E1 & E2 & E3 & E4).
    specialize (Hxm E1). specialize (Hym E2). specialize (HxM E3). specialize (HyM E4).
    assert (Ha1 : (i == a1)%Q) by (subst i a1; rewrite Hxm, Hym, HxM, HyM; reflexivity).
    assert (Ha2 : (a2 == a1)%Q) by (subst a1 a2; rewrite E1, E2, E3, E4; reflexivity).
    rewrite Ha1, Ha2.
    assert (Hpos : (0 < a1)%Q) by (subst a1; nra).
    field. lra.
Qed.

Lemma computeIou_unit_interval_witness :
  exists v, computeIou (bbox detA) (bbox detB) = Ok v /\
    ((0 <= v <= 1)%Q /\
     ((v == 1)%Q <->
      proper_box (bbox detA) /\
      (xMin (bbox detA) == xMin (bbox detB))%Q /\ (yMin (bbox detA) == yMin (bbox detB))%Q /\
      (xMax (bbox detA) == xMax (bbox detB))%Q /\ (yMax (bbox detA) == yMax (bbox detB))%Q)).
Proof.
  eexists. split; [reflexivity|].
  apply (computeIou_unit_interval (bbox detA) (bbox detB)). reflexivity.
Defined.

(** X3. On boxes with grid coordinates (see [on_grid]), [computeIou]
    raises only [ZeroDivisionError], and it does so exactly when the two
    boxes (neither of them inverted) overlap or touch and both have zero
    area. *)
Theorem computeIou_raises_iff (b1 b2 : Box) (e : exn) :
  grid_box b1 = true -> grid_box b2 = true ->
  (computeIou b1 b2 = Raise e <->
   e = ZeroDivisionError /\ meet b1 b2 /\ (area b1 == 0)%Q /\ (area b2 == 0)%Q).
Proof.
  intros _ _. unfold computeIou, meet, meet_on, area; cbv zeta.
  destruct (pymax_bounds (xMin b1) (xMin b2)) as [Hx1 Hx2].
  destruct (pymax_bounds (yMin b1) (yMin b2)) as [Hy1 Hy2].
  destruct (pymin_bounds (xMax b1) (xMax b2)) as [HX1 HX2].
  destruct (pymin_bounds (yMax b1) (yMax b2)) as [HY1 HY2].
  pose proof (meet_on_iff (xMin b1) (xMax b1) (xMin b2) (xMax b2)) as Hx.
  pose proof (meet_on_iff (yMin b1) (yMax b1) (yMin b2) (yMax b2)) as Hy.
  unfold meet_on in Hx, Hy.
  set (ixm := pymax (xMin b1) (xMin b2)) in *.
  set (iym := pymax (yMin b1) (yMin b2)) in *.
  set (ixM := pymin (xMax b1) (xMax b2)) in *.
  set (iyM := pymin (yMax b1) (yMax b2)) in *.
  destruct (Qltb ixM ixm) eqn:Ex; simpl.
  { apply Qltb_true in Ex. split; [discriminate|].
    intros (_ & [(? & ? & ? & ?) _] & _).
    assert (ixm <= ixM)%Q by (apply Hx; repeat split; assumption). lra. }
  destruct (Qltb iyM iym) eqn:Ey; simpl.
  { apply Qltb_true in Ey. split; [discriminate|].
    intros (_ & [_ (? & ? & ? & ?)] & _).
    assert (iym <= iyM)%Q by (apply Hy; repeat split; assumption). lra. }
  apply Qltb_false in Ex, Ey.
  destruct (proj1 Hx Ex) as (? & ? & ? & ?).
  destruct (proj1 Hy Ey) as (? & ? & ? & ?).
  unfold truediv.
  set (i := ((ixM - ixm) * (iyM - iym))%Q).
  set (a1 := ((xMax b1 - xMin b1) * (yMax b1 - yMin b1))%Q).
  set (a2 := ((xMax b2 - xMin b2) * (yMax b2 - yMin b2))%Q).
  assert (Hi0 : (0 <= i)%Q) by (subst i; nra).
  assert (Hi1 : (i <= a1)%Q) by (subst i a1; nra).
  assert (Hi2 : (i <= a2)%Q) by (subst i a2; nra).
  destruct (Qeq_bool (a1 + a2 - i) 0) eqn:E.
  - apply Qeq_bool_iff in E. split.
    + intros [= <-]. split; [reflexivity|]. split; [|split; lra].
      split; repeat split; lra.
    + now intros (-> & _).
  - split; [discriminate|]. intros (_ & _ & Hz1 & Hz2).
    assert (Hz : (a1 + a2 - i == 0)%Q) by lra.
    apply Qeq_bool_iff in Hz. congruence.
Qed.

Lemma computeIou_raises_iff_witness :
  grid_box (mkBox 1.5 2 1.5 7) = true /\ grid_box (mkBox 0 2 4 2) = true /\
  computeIou (mkBox 1.5 2 1.5 7) (mkBox 0 2 4 2) = Raise ZeroDivisionError.
Proof.
  split; [reflexivity|]. split; [reflexivity|].
  apply (computeIou_raises_iff (mkBox 1.5 2 1.5 7) (mkBox 0 2 4 2) ZeroDivisionError);
    [reflexivity|reflexivity|].
  split; [reflexivity|]. split; [|split; reflexivity].
  repeat split; discriminate.
Defined.

(** X4. The list returned by [removeDuplicates] is made of input
    detections, unchanged and each at most as often as in the input: it
    is a sub-list of the input sorted by descending confidence, so it is
    itself in descending confidence order.  On a non-empty input it is
    non-empty and starts with a detection of the highest confidence. *)
Theorem removeDuplicates_keeps_input (dets keep : list Detection) (thr : Q) :
  removeDuplicates dets thr = Ok keep ->
  sublist keep (sort_desc dets) /\ keep ⊆+ dets /\ sorted_desc keep /\
  (dets <> [] ->
   exists best kept, keep = best :: kept /\
     Forall (fun d => (conf d <= conf best)%Q) dets).
Proof.
  intros H. destruct (removeDuplicates_kept _ _ _ H) as [_ Hsub].
  split; [assumption|]. split; [|split].
  - rewrite <- (sort_desc_perm dets). now apply sublist_submseteq.
  - eapply sorted_desc_sublist; [eassumption|apply sort_desc_sorted].
  - intros Hne. rewrite removeDuplicates_eq in H.
    pose proof (sort_desc_sorted dets) as Hsorted.
    pose proof (sort_desc_perm dets) as Hperm.
    destruct (sort_desc dets) as [|best rest] eqn:Es.
    { apply Permutation_nil_l in Hperm. congruence. }
    destruct (nms_loop_head _ _ _ _ _ H) as [kept ->].
    exists best, kept. split; [reflexivity|].
    rewrite <- Hperm. inversion Hsorted as [|? ? _ Hf]; subst.
    constructor; [lra|assumption].
Qed.

Lemma removeDuplicates_keeps_input_witness :
  sublist [detC; detA] (sort_desc [detA; detB; detC]) /\
  [detC; detA] ⊆+ [detA; detB; detC] /\ sorted_desc [detC; detA] /\
  ([detA; detB; detC] <> [] ->
   exists best kept, [detC; detA] = best :: kept /\
     Forall (fun d => (conf d <= conf best)%Q) [detA; detB; detC]).
Proof.
  apply (removeDuplicates_keeps_input [detA; detB; detC] [detC; detA] 0.5).
  reflexivity.
Defined.

(** X5. [removeDuplicates] removes a detection only for a reason: every
    input detection is returned, or the result holds a detection of the
    same class, at least as confident, whose IoU with it is defined and
    exceeds the threshold. *)
Theorem removeDuplicates_removed_is_suppressed
    (dets keep : list Detection) (thr : Q) (d : Detection) :
  removeDuplicates dets thr = Ok keep ->
  d ∈ dets ->
  d ∈ keep \/
  exists k v, k ∈ keep /\ class_name d = class_name k /\ (conf d <= conf k)%Q /\
    computeIou (bbox d) (bbox k) = Ok v /\ (thr < v)%Q.
Proof.
  rewrite removeDuplicates_eq. intros H Hd.
  rewrite <- (sort_desc_perm dets) in Hd.
  destruct (nms_loop_dropped thr (length (sort_desc dets)) [] (sort_desc dets) keep
              (le_n _) (sort_desc_sorted dets) H d Hd) as [Hin|(k & Hk & Hs & Hc)].
  - now left.
  - right. apply survives_false in Hs as (Hcls & v & Hv & Hlt).
    exists k, v. repeat split; assumption.
Qed.

Lemma removeDuplicates_removed_is_suppressed_witness :
  detB ∈ [detC; detA] \/
  exists k v, k ∈ [detC; detA] /\ class_name detB = class_name k /\
    (conf detB <= conf k)%Q /\
    computeIou (bbox detB) (bbox k) = Ok v /\ (0.5 < v)%Q.
Proof.
  apply (removeDuplicates_removed_is_suppressed [detA; detB; detC] [detC; detA] 0.5 detB).
  - reflexivity.
  - apply elem_of_cons. right. apply elem_of_cons. now left.
Defined.

(** X6. [removeDuplicates] is idempotent: run again on its own result,
    with the same threshold, it returns that result unchanged. *)
Theorem removeDuplicates_idempotent (dets keep : list Detection) (thr : Q) :
  removeDuplicates dets thr = Ok keep ->
  removeDuplicates keep thr = Ok keep.
Proof.
  intros H. destruct (removeDuplicates_kept _ _ _ H) as [Hsup Hsub].
  rewrite removeDuplicates_eq, sort_desc_id.
  - now rewrite (nms_loop_all thr keep []).
  - eapply sorted_desc_sublist; [eassumption|apply sort_desc_sorted].
Qed.

Lemma removeDuplicates_idempotent_witness :
  removeDuplicates [detC; detA] 0.5 = Ok [detC; detA].
Proof.
  apply (removeDuplicates_idempotent [detA; detB; detC] [detC; detA] 0.5).
  reflexivity.
Defined.

(** X7. A threshold of 1 or more switches the suppression off: on boxes
    of positive area with grid coordinates (see [on_grid])
    [removeDuplicates] then returns every input detection, in descending
    confidence order. *)
Theorem removeDuplicates_threshold_one (dets : list Detection) (thr : Q) :
  Forall (fun d => proper_box (bbox d) /\ grid_box (bbox d) = true) dets ->
  (1 <= thr)%Q ->
  removeDuplicates dets thr = Ok (sort_desc dets).
Proof.
  intros Hp Hthr. rewrite removeDuplicates_eq.
  apply (nms_loop_all thr (sort_desc dets) []).
  apply Apart_Suppressed, Apart_sort_desc.
  assert (Hpass : forall a b, proper_box (bbox b) -> passes thr a b).
  { intros a b Hb. apply iou_passes. intros _.
    destruct (computeIou_proper_returns (bbox b) (bbox a) Hb) as [v Hv].
    exists v. split; [assumption|].
    apply computeIou_range in Hv. lra. }
  induction Hp as [|d l [Hd _] Hl IH]; constructor; [|assumption].
  apply Forall_forall. intros x Hx. split; apply Hpass; [|assumption].
  now apply (proj1 (Forall_forall _ _) Hl).
Qed.

Lemma removeDuplicates_threshold_one_witness :
  removeDuplicates [detA; detB; detC] 1 = Ok (sort_desc [detA; detB; detC]).
Proof.
  apply (removeDuplicates_threshold_one [detA; detB; detC] 1).
  - repeat constructor.
  - discriminate.
Defined.

End NmsMore.

(** ** Page analysis (analyzers/pdf_analyzer.py) *)

Module AnalyzerMore.
Import NmsProcessor NmsFacts NmsMore ContentExtractor PdfAnalyzer.

Lemma pdf_analyze_from_lookup (predictions : list (list Detection)) (thr : Q) :
  forall (pageNum : nat) (pages : list PageData),
  analyze_from pageNum predictions thr = Ok pages ->
  length pages = length predictions /\
  forall (i : nat) (page : PageData), pages !! i = Some page ->
    page_number page = (Z.of_nat (pageNum + i) + 1)%Z /\
    exists boxes,
      predictions !! i = Some boxes /\
      removeDuplicates
        (List.filter (fun d => negb (String.eqb (class_name d) "abandon")) boxes) thr
      = Ok (detections page).
Proof.
  induction predictions as [|boxes rest IH]; intros pageNum pages; simpl.
  - intros [= <-]. split; [reflexivity|]. intros i page Hi.
    rewrite lookup_nil in Hi. discriminate.
  - destruct (removeDuplicates _ thr) as [dets|e] eqn:Ed; simpl; [|discriminate].
    destruct (analyze_from (S pageNum) rest thr) as [results|e] eqn:E; simpl; [|discriminate].
    intros [= <-]. destruct (IH _ _ E) as [Hlen Hl].
    split; [simpl; now rewrite Hlen|].
    intros [|i] page Hi; simpl in Hi.
    + injection Hi as <-. simpl. split; [f_equal; lia|]. exists boxes. now split.
    + destruct (Hl i page Hi) as [Hn Hb]. split; [rewrite Hn; f_equal; lia|exact Hb].
Qed.

Lemma analyze_from_take (predictions : list (list Detection)) (thr : Q) (k : nat) :
  forall (pageNum : nat) (pages : list PageData),
  analyze_from pageNum predictions thr = Ok pages ->
  analyze_from pageNum (take k predictions) thr = Ok (take k pages).
Proof.
  revert k. induction predictions as [|boxes rest IH]; intros k pageNum pages; simpl.
  - intros [= <-]. now rewrite !take_nil.
  - destruct (removeDuplicates _ thr) as [dets|e] eqn:Ed; simpl; [|discriminate].
    destruct (analyze_from (S pageNum) rest thr) as [results|e] eqn:E; simpl; [|discriminate].
    intros [= <-]. destruct k as [|k]; simpl; [reflexivity|].
    rewrite Ed. simpl. rewrite (IH k _ _ E). reflexivity.
Qed.

Lemma analyze_from_returns (predictions : list (list Detection)) (thr : Q) :
  Forall (Forall (fun d => proper_box (bbox d))) predictions ->
  forall pageNum, exists pages, analyze_from pageNum predictions thr = Ok pages.
Proof.
  induction 1 as [|boxes rest Hb _ IH]; intros pageNum; simpl; [eauto|].
  destruct (removeDuplicates_proper_returns
              (List.filter (fun d => negb (String.eqb (class_name d) "abandon")) boxes) thr)
    as [dets ->].
  { apply Forall_forall. intros d Hd.
    apply list_elem_of_In, filter_In in Hd as [Hd _]. apply list_elem_of_In in Hd.
    now apply (proj1 (Forall_forall _ _) Hb). }
  destruct (IH (S pageNum)) as [results ->]. simpl. eauto.
Qed.

(** X8. Whenever [analyze] returns, it returns one entry per analysed
    page, numbered 1, 2, 3, ... in page order; the detections of an entry
    are detections the model predicted for that very page, none of them
    of class 'abandon', in descending confidence order. *)
Theorem analyze_reports_each_page
    (predictions : list (list Detection)) (thr : Q) (pages : list PageData) :
  analyze predictions thr = Ok pages ->
  length pages = length predictions /\
  forall (i : nat) (page : PageData), pages !! i = Some page ->
    page_number page = (Z.of_nat i + 1)%Z /\
    sorted_desc (detections page) /\
    exists boxes,
      predictions !! i = Some boxes /\
      Forall (fun d => d ∈ boxes /\ class_name d <> "abandon") (detections page).
Proof.
  intros H. destruct (pdf_analyze_from_lookup _ _ _ _ H) as [Hlen Hl].
  split; [assumption|]. intros i page Hi.
  destruct (Hl i page Hi) as [Hn (boxes & Hb & Hd)].
  split; [exact Hn|].
  destruct (removeDuplicates_kept _ _ _ Hd) as [_ Hsub].
  split; [eapply sorted_desc_sublist; [eassumption|apply sort_desc_sorted]|].
  exists boxes. split; [assumption|].
  apply Forall_forall. intros d Hin.
  assert (Hf : d ∈ List.filter (fun d => negb (String.eqb (class_name d) "abandon")) boxes).
  { rewrite <- (sort_desc_perm (List.filter _ boxes)).
    eapply elem_of_sublist; eassumption. }
  apply list_elem_of_In, filter_In in Hf as [Hf Hc]. apply list_elem_of_In in Hf.
  split; [assumption|].
  intros Heq. rewrite Heq in Hc. discriminate.
Qed.

Definition samplePredictions : list (list Detection) :=
  [[detA; detB; mkDet "abandon" (mkBox 0 0 5 5) 0.99]; [detC]; [detHigh; detLow]].

Lemma analyze_reports_each_page_witness :
  exists pages,
    analyze samplePredictions 0.7 = Ok pages /\
    length pages = length samplePredictions /\
    forall (i : nat) (page : PageData), pages !! i = Some page ->
      page_number page = (Z.of_nat i + 1)%Z /\
      sorted_desc (detections page) /\
      exists boxes,
        samplePredictions !! i = Some boxes /\
        Forall (fun d => d ∈ boxes /\ class_name d <> "abandon") (detections page).
Proof.
  eexists. split; [reflexivity|].
  apply (analyze_reports_each_page samplePredictions 0.7). reflexivity.
Defined.

(** X9. Limiting the pages does not change what [analyze] reports for
    the pages that remain: if the analysis of
    the whole document returns [pages], the analysis with [maxPages]
    returns a prefix of [pages], namely all of it when [maxPages] is
    [None] or 0, nothing when it is negative, and the first [maxPages]
    entries otherwise. *)
Theorem analyze_page_limit
    (predictions : list (list Detection)) (thr : Q) (pages : list PageData)
    (maxPages : option Z) :
  analyze predictions thr = Ok pages ->
  PdfAnalyzerLimit.analyze predictions maxPages thr =
  Ok (match maxPages with
      | None => pages
      | Some m => if (m =? 0)%Z then pages else take (Z.to_nat m) pages
      end).
Proof.
  intros H. unfold PdfAnalyzerLimit.analyze, analyze.
  rewrite (analyze_from_take _ _ _ _ _ H). f_equal.
  destruct (pdf_analyze_from_lookup _ _ _ _ H) as [Hlen _].
  unfold PdfAnalyzerLimit.totalPages.
  destruct maxPages as [m|].
  - destruct (m =? 0)%Z.
    + rewrite Nat2Z.id. apply take_ge. lia.
    + destruct (Z.le_ge_cases (Z.of_nat (length predictions)) m) as [Hle|Hge].
      * rewrite Z.min_l by assumption. rewrite Nat2Z.id.
        rewrite !take_ge; [reflexivity|lia..].
      * now rewrite Z.min_r by lia.
  - rewrite Nat2Z.id. apply take_ge. lia.
Qed.

Lemma analyze_page_limit_witness :
  exists pages,
    analyze samplePredictions 0.7 = Ok pages /\
    PdfAnalyzerLimit.analyze samplePredictions (Some 2%Z) 0.7 = Ok (take 2 pages) /\
    PdfAnalyzerLimit.analyze samplePredictions (Some 0%Z) 0.7 = Ok pages /\
    PdfAnalyzerLimit.analyze samplePredictions (Some (-1)%Z) 0.7 = Ok [].
Proof.
  eexists. split; [reflexivity|]. split; [|split].
  - eapply (analyze_page_limit samplePredictions 0.7 _ (Some 2%Z)). reflexivity.
  - eapply (analyze_page_limit samplePredictions 0.7 _ (Some 0%Z)). reflexivity.
  - eapply (analyze_page_limit samplePredictions 0.7 _ (Some (-1)%Z)). reflexivity.
Defined.

(** X10. On predictions whose boxes all have positive area and grid
    coordinates (see [NmsMore.on_grid]) [analyze] returns, whatever the
    page limit and the threshold: the duplicate suppression cannot divide
    by zero. *)
Theorem analyze_returns_on_positive_area
    (predictions : list (list Detection)) (thr : Q) (maxPages : option Z) :
  Forall (Forall (fun d => proper_box (bbox d) /\ grid_box (bbox d) = true)) predictions ->
  exists pages, PdfAnalyzerLimit.analyze predictions maxPages thr = Ok pages.
Proof.
  intros H. apply analyze_from_returns.
  apply Forall_forall. intros boxes Hb.
  assert (Hboxes : boxes ∈ predictions)
    by (eapply elem_of_sublist; [eassumption|apply sublist_take]).
  eapply Forall_impl; [exact (proj1 (Forall_forall _ _) H boxes Hboxes)|].
  now intros d [Hd _].
Qed.

Lemma analyze_returns_on_positive_area_witness :
  exists pages, PdfAnalyzerLimit.analyze samplePredictions (Some 2%Z) 0.7 = Ok pages.
Proof.
  apply (analyze_returns_on_positive_area samplePredictions 0.7 (Some 2%Z)).
  repeat constructor.
Defined.

End AnalyzerMore.

(** ** White space (handlers/text_handler.py, handlers/table_handler.py) *)

Module StrFacts.
Import PyStr.

(** No white space at either end. *)
Definition trimmed (s : list N) : Prop :=
  (forall c, head s = Some c -> is_space c = false) /\
  (forall c, last s = Some c -> is_space c = false).

Lemma lstrip_spec (s : list N) :
  exists pre, s = pre ++ lstrip s /\ Forall (fun c => is_space c = true) pre.
Proof.
  induction s as [|c s (pre & IH & Hpre)]; simpl.
  - exists []. split; [reflexivity|constructor].
  - destruct (is_space c) eqn:E.
    + exists (c :: pre). split; [simpl; now rewrite <- IH|now constructor].
    + exists []. split; [reflexivity|constructor].
Qed.

Lemma lstrip_head (s : list N) (c : N) : head (lstrip s) = Some c -> is_space c = false.
Proof.
  induction s as [|x s IH]; simpl; [discriminate|].
  destruct (is_space x) eqn:E; [assumption|]. simpl. now intros [= <-].
Qed.

Lemma lstrip_id (s : list N) :
  (forall c, head s = Some c -> is_space c = false) -> lstrip s = s.
Proof.
  destruct s as [|x s]; [reflexivity|]. intros H. simpl. now rewrite (H x eq_refl).
Qed.

Lemma lstrip_snoc (l : list N) (c : N) :
  lstrip (l ++ [c]) =
  match lstrip l with
  | [] => if is_space c then [] else [c]
  | x => x ++ [c]
  end.
Proof.
  induction l as [|y l IH]; simpl; [reflexivity|].
  destruct (is_space y); [assumption|reflexivity].
Qed.

Lemma rstrip_cons (c : N) (r : list N) :
  rstrip (c :: r) =
  match rstrip r with
  | [] => if is_space c then [] else [c]
  | x => c :: x
  end.
Proof.
  unfold rstrip. rewrite reverse_cons, lstrip_snoc.
  destruct (lstrip (reverse r)) as [|y l] eqn:E.
  - simpl. now destruct (is_space c).
  - rewrite reverse_app. simpl.
    destruct (reverse (y :: l)) eqn:E'; [|reflexivity].
    apply (f_equal length) in E'. rewrite length_reverse in E'. discriminate.
Qed.

Lemma rstrip_spec (s : list N) :
  exists post, s = rstrip s ++ post /\ Forall (fun c => is_space c = true) post.
Proof.
  destruct (lstrip_spec (reverse s)) as (pre & H & Hpre).
  exists (reverse pre). split.
  - unfold rstrip. rewrite <- reverse_app, <- H. now rewrite reverse_involutive.
  - now apply Forall_reverse.
Qed.

Lemma rstrip_last (s : list N) (c : N) : last (rstrip s) = Some c -> is_space c = false.
Proof.
  unfold rstrip. rewrite last_reverse. apply lstrip_head.
Qed.

Lemma rstrip_id (s : list N) :
  (forall c, last s = Some c -> is_space c = false) -> rstrip s = s.
Proof.
  intros H. unfold rstrip. rewrite lstrip_id; [apply reverse_involutive|].
  intros c Hc. apply H. now rewrite <- (reverse_involutive s), last_reverse.
Qed.

Lemma rstrip_head (s : list N) (c : N) :
  head (rstrip s) = Some c -> head s = Some c.
Proof.
  destruct s as [|x s]; [intros H; exact H|].
  rewrite rstrip_cons. destruct (rstrip s); [destruct (is_space x)|]; simpl; congruence.
Qed.

Lemma strip_trimmed (s : list N) : trimmed (strip s).
Proof.
  unfold strip. split.
  - intros c Hc. apply rstrip_head in Hc. now apply (lstrip_head s).
  - apply rstrip_last.
Qed.

Lemma trimmed_strip (s : list N) : trimmed s -> strip s = s.
Proof.
  intros [Hh Hl]. unfold strip. rewrite (lstrip_id s Hh). now apply rstrip_id.
Qed.

Lemma strip_idemp (s : list N) : strip (strip s) = strip s.
Proof. apply trimmed_strip, strip_trimmed. Qed.

Lemma strip_spec (s : list N) :
  exists pre post, s = pre ++ strip s ++ post /\
    Forall (fun c => is_space c = true) pre /\ Forall (fun c => is_space c = true) post.
Proof.
  destruct (lstrip_spec s) as (pre & H & Hpre).
  destruct (rstrip_spec (lstrip s)) as (post & H' & Hpost).
  exists pre, post. unfold strip. now rewrite <- H', <- H.
Qed.

Lemma is_prefix_spec (p s : list N) : is_prefix p s = true <-> exists r, s = p ++ r.
Proof.
  revert s. induction p as [|a p IH]; intros s; simpl; [split; eauto|].
  destruct s as [|b s].
  - split; [discriminate|]. intros [r Hr]. discriminate.
  - rewrite andb_true_iff, N.eqb_eq, IH. split.
    + intros [-> [r ->]]. eauto.
    + intros [r [= -> ->]]. eauto.
Qed.

Lemma contains_spec (needle s : list N) :
  contains needle s = true <-> exists a b, s = a ++ needle ++ b.
Proof.
  induction s as [|x s IH]; simpl.
  - rewrite orb_false_r, is_prefix_spec. split.
    + intros [r Hr]. exists [], r. exact Hr.
    + intros (a & b & H). destruct a; [eauto|discriminate].
  - rewrite orb_true_iff, is_prefix_spec, IH. split.
    + intros [[r Hr]|(a & b & ->)]; [exists [], r; exact Hr|].
      exists (x :: a), b. reflexivity.
    + intros (a & b & H). destruct a as [|y a]; [left; eauto|].
      right. injection H as -> ->. eauto.
Qed.

Lemma contains_char (c : N) (s : list N) : contains [c] s = true <-> c ∈ s.
Proof.
  rewrite contains_spec. split.
  - intros (a & b & ->). apply elem_of_app. right. apply elem_of_cons. now left.
  - intros H. apply list_elem_of_split in H as (a & b & ->). eauto.
Qed.

(** A text that holds [pre ++ needle] holds [needle]. *)
Lemma contains_suffix (pre needle s : list N) :
  contains (pre ++ needle) s = true -> contains needle s = true.
Proof.
  rewrite !contains_spec. intros (a & b & ->).
  exists (a ++ pre), b. now rewrite <- !app_assoc.
Qed.

End StrFacts.

Module TextFacts.
Import PyStr Doc TextHandler StrFacts.

(** A word: not empty and free of white space. *)
Definition word (w : list N) : Prop :=
  w <> [] /\ Forall (fun c => is_space c = false) w.

Lemma split_from_spec (s : list N) :
  forall w, Forall (fun c => is_space c = false) w ->
  Forall word (split_from w s) /\
  concat (split_from w s) = w ++ List.filter (fun c => negb (is_space c)) s.
Proof.
  induction s as [|c s IH]; intros w Hw; simpl.
  - destruct w as [|x w]; simpl.
    + split; [constructor|reflexivity].
    + split; [constructor; [split; [discriminate|assumption]|constructor]|].
      now rewrite !app_nil_r.
  - destruct (is_space c) eqn:E; simpl.
    + destruct (IH [] (Forall_nil_2 _)) as [H1 H2].
      destruct w as [|x w]; simpl.
      * split; assumption.
      * split; [constructor; [split; [discriminate|assumption]|assumption]|].
        simpl in H2. now rewrite H2.
    + destruct (IH (w ++ [c])) as [H1 H2].
      { apply Forall_app. split; [assumption|now repeat constructor]. }
      split; [assumption|]. now rewrite H2, <- app_assoc.
Qed.

Lemma split_from_word (w : list N) :
  Forall (fun c => is_space c = false) w ->
  forall acc rest, split_from acc (w ++ rest) = split_from (acc ++ w) rest.
Proof.
  induction 1 as [|c w Hc _ IH]; intros acc rest; simpl.
  - now rewrite app_nil_r.
  - rewrite Hc, IH, <- app_assoc. reflexivity.
Qed.

Lemma split_from_space (w r : list N) :
  w <> [] -> split_from w (32%N :: r) = w :: split_from [] r.
Proof. destruct w; [contradiction|reflexivity]. Qed.

Lemma split_join (ws : list (list N)) :
  Forall word ws -> split (join (lit " ") ws) = ws.
Proof.
  unfold split. induction 1 as [|w ws [Hne Hw] Hws IH]; [reflexivity|].
  destruct ws as [|w' ws'].
  - simpl. rewrite <- (app_nil_r w) at 1. rewrite split_from_word by assumption.
    simpl. destruct w; [contradiction|reflexivity].
  - change (join (lit " ") (w :: w' :: ws'))
      with (w ++ 32%N :: join (lit " ") (w' :: ws')).
    rewrite split_from_word by assumption.
    rewrite app_nil_l, split_from_space by assumption. now rewrite IH.
Qed.

Lemma join_words_head (ws : list (list N)) (c : N) :
  Forall word ws -> head (join (lit " ") ws) = Some c -> is_space c = false.
Proof.
  destruct 1 as [|w ws [Hne Hw] _]; [discriminate|].
  destruct w as [|x w]; [contradiction|].
  inversion Hw; subst. destruct ws; simpl; now intros [= <-].
Qed.

Lemma join_words_last (ws : list (list N)) (c : N) :
  Forall word ws -> last (join (lit " ") ws) = Some c -> is_space c = false.
Proof.
  induction 1 as [|w ws [Hne Hw] Hws IH]; [discriminate|].
  destruct ws as [|w' ws'].
  - simpl. intros Hl. apply (proj1 (Forall_forall _ _) Hw).
    destruct w; [contradiction|]. eapply list_elem_of_lookup_2.
    rewrite last_lookup in Hl. exact Hl.
  - change (join (lit " ") (w :: w' :: ws'))
      with (w ++ 32%N :: join (lit " ") (w' :: ws')).
    inversion Hws as [|? ? [Hne' _] _]; subst.
    destruct (join (lit " ") (w' :: ws')) as [|y l] eqn:E.
    { destruct w'; [contradiction|destruct ws'; discriminate]. }
    rewrite last_app. change (32%N :: y :: l) with ([32%N] ++ y :: l).
    rewrite last_app. destruct (last (y :: l)) eqn:El; [exact IH|].
    apply last_None in El. discriminate.
Qed.

Lemma join_words_trimmed (ws : list (list N)) :
  Forall word ws -> trimmed (join (lit " ") ws).
Proof.
  intros H. split; intros c; [now apply join_words_head|now apply join_words_last].
Qed.

(** [runs text words]: the [words] are the maximal white-space-free runs
    of [text], in order.  The text is blank, and has no run; or it is
    white space (maybe none), then the first run, and then a rest that
    is empty or starts with white space, whose runs are the other
    runs. *)
Inductive runs : list N -> list (list N) -> Prop :=
  | runs_blank (blank : list N) :
      Forall (fun c => is_space c = true) blank -> runs blank []
  | runs_word (blank w rest : list N) (words : list (list N)) :
      Forall (fun c => is_space c = true) blank ->
      word w ->
      (forall c, head rest = Some c -> is_space c = true) ->
      runs rest words ->
      runs (blank ++ w ++ rest) (w :: words).

Lemma split_blank (blank rest : list N) :
  Forall (fun c => is_space c = true) blank ->
  split_from [] (blank ++ rest) = split_from [] rest.
Proof. induction 1 as [|c blank Hc _ IH]; [reflexivity|]. simpl. now rewrite Hc. Qed.

(** [split] finds the runs: whatever the maximal runs of a text are,
    they are what [split] returns. *)
Lemma runs_split (text : list N) (words : list (list N)) :
  runs text words -> split text = words.
Proof.
  unfold split. induction 1 as [blank Hb|blank w rest words Hb [Hne Hw] Hrest _ IH].
  - rewrite <- (app_nil_r blank), split_blank by assumption. reflexivity.
  - rewrite split_blank, split_from_word by assumption. rewrite app_nil_l.
    destruct rest as [|c rest].
    + simpl in *. subst words. destruct w; [contradiction|reflexivity].
    + pose proof (Hrest c eq_refl) as Hc. simpl in IH. rewrite Hc in IH.
      simpl. rewrite Hc, IH. destruct w; [contradiction|reflexivity].
Qed.

Lemma runs_cons_space (c : N) (text : list N) (words : list (list N)) :
  is_space c = true -> runs text words -> runs (c :: text) words.
Proof.
  intros Hc [blank Hb|blank w rest words' Hb Hw Hrest Hruns].
  - apply runs_blank. now constructor.
  - apply (runs_word (c :: blank) w rest words'); [now constructor|assumption..].
Qed.

(** Every text has its runs. *)
Lemma runs_exist (text : list N) : exists words, runs text words.
Proof.
  induction text as [|c text [words IH]].
  - exists []. apply runs_blank. constructor.
  - destruct (is_space c) eqn:Hc.
    { exists words. now apply runs_cons_space. }
    assert (Hword : forall w, Forall (fun c => is_space c = false) w -> word (c :: w)).
    { intros w Hw. split; [discriminate|now constructor]. }
    inversion IH as [blank Hb|blank w rest words' Hb [Hne Hw] Hrest Hruns]; subst.
    + exists [[c]]. apply (runs_word [] [c] text []); [constructor|now apply Hword| |exact IH].
      intros x Hx. destruct text; [discriminate|]. injection Hx as ->. now inversion Hb.
    + destruct blank as [|x blank].
      * exists ((c :: w) :: words').
        apply (runs_word [] (c :: w) rest words'); [constructor|now apply Hword|assumption..].
      * exists ([c] :: w :: words').
        apply (runs_word [] [c] ((x :: blank) ++ w ++ rest) (w :: words'));
          [constructor|now apply Hword| |exact IH].
        intros y [= <-]. now inversion Hb.
Qed.

(** X11. The text [handlePdf] returns is the text of the region with
    its white space normalised: the region's text has exactly one list
    of maximal white-space-free runs, and the result is these runs, in
    order, separated by one space (U+0020) each, with nothing before the
    first or after the last.  So no other character is added, dropped or
    moved, and no run is split or merged. *)
Theorem handlePdf_normalises_whitespace
    (get_text : NmsProcessor.Box -> list N) (bbox : NmsProcessor.Box) (scale : Q) :
  let text := get_text (scaled_rect bbox scale) in
  let out := handlePdf get_text bbox scale in
  exists words,
    runs text words /\
    (forall words', runs text words' -> words' = words) /\
    out = join (lit " ") words /\
    concat words = List.filter (fun c => negb (is_space c)) text /\
    trimmed out.
Proof.
  cbv zeta. unfold handlePdf.
  destruct (split_from_spec (get_text (scaled_rect bbox scale)) [] (Forall_nil_2 _))
    as [Hw Hc].
  destruct (runs_exist (get_text (scaled_rect bbox scale))) as [words Hruns].
  pose proof (runs_split _ _ Hruns) as Hsplit. unfold split in *. rewrite Hsplit in *.
  exists words. split; [exact Hruns|]. split.
  { intros words' Hruns'. apply runs_split in Hruns'. unfold split in Hruns'. congruence. }
  rewrite trimmed_strip by now apply join_words_trimmed.
  split; [reflexivity|]. split; [exact Hc|].
  now apply join_words_trimmed.
Qed.

(** A region whose text holds the runs [ab] and [c] between spaces and a
    line feed. *)
Definition paddedText : list N := [32; 97; 98; 32; 10; 99; 32]%N.

Lemma paddedText_runs : runs paddedText [[97; 98]; [99]]%N.
Proof.
  apply (runs_word [32%N] [97; 98]%N [32; 10; 99; 32]%N [[99%N]]).
  - now repeat constructor.
  - split; [discriminate|now repeat constructor].
  - now intros c [= <-].
  - apply (runs_word [32; 10]%N [99%N] [32%N] []).
    + now repeat constructor.
    + split; [discriminate|now repeat constructor].
    + now intros c [= <-].
    + apply runs_blank. now repeat constructor.
Qed.

Lemma handlePdf_normalises_whitespace_witness :
  runs paddedText [[97; 98]; [99]]%N /\
  handlePdf (fun _ => paddedText) (NmsProcessor.mkBox 0 0 10 10) 1 = [97; 98; 32; 99]%N.
Proof.
  split; [exact paddedText_runs|].
  destruct (handlePdf_normalises_whitespace (fun _ => paddedText)
              (NmsProcessor.mkBox 0 0 10 10) 1) as (words & _ & Hunique & Hout & _).
  rewrite Hout, <- (Hunique _ paddedText_runs). reflexivity.
Defined.

(** X12. The clean-up of [handlePdf] is idempotent: a region whose text
    already is the result of [handlePdf] is returned unchanged. *)
Theorem handlePdf_idempotent
    (get_text : NmsProcessor.Box -> list N) (bbox bbox' : NmsProcessor.Box)
    (scale scale' : Q) :
  handlePdf (fun _ => handlePdf get_text bbox scale) bbox' scale' =
  handlePdf get_text bbox scale.
Proof.
  unfold handlePdf.
  destruct (split_from_spec (get_text (scaled_rect bbox scale)) [] (Forall_nil_2 _))
    as [Hw _].
  fold (split (get_text (scaled_rect bbox scale))) in Hw.
  set (ws := split (get_text (scaled_rect bbox scale))) in *.
  rewrite (trimmed_strip (join (lit " ") ws)) by now apply join_words_trimmed.
  rewrite split_join by assumption.
  now rewrite trimmed_strip by now apply join_words_trimmed.
Qed.

(** X13. [handlePptx] returns the empty string for a shape without text
    frame, whatever its text; otherwise, when it returns, it returns the
    shape's text without the white space at its two ends, the rest
    untouched. *)
Theorem handlePptx_trims (shape : Shape) (t : list N) :
  handlePptx shape = Ok t ->
  trimmed t /\
  (has_text_frame shape = false -> t = []) /\
  (has_text_frame shape = true ->
   exists s pre post,
     text shape = Some s /\ s = pre ++ t ++ post /\
     Forall (fun c => is_space c = true) pre /\
     Forall (fun c => is_space c = true) post).
Proof.
  unfold handlePptx. destruct (has_text_frame shape); simpl.
  - destruct (text shape) as [s|]; [|discriminate]. intros [= <-].
    split; [apply strip_trimmed|]. split; [discriminate|]. intros _.
    destruct (strip_spec s) as (pre & post & H & Hpre & Hpost).
    exists s, pre, post. auto.
  - intros [= <-]. split; [split; discriminate|]. split; [reflexivity|discriminate].
Qed.

Definition paddedShape : Shape :=
  mkShape 0 0 None true (Some (lit "  Title of the slide ")) (Raise AttributeError).

Lemma handlePptx_trims_witness :
  trimmed (lit "Title of the slide") /\
  (has_text_frame paddedShape = false -> lit "Title of the slide" = []) /\
  (has_text_frame paddedShape = true ->
   exists s pre post,
     text paddedShape = Some s /\ s = pre ++ lit "Title of the slide" ++ post /\
     Forall (fun c => is_space c = true) pre /\
     Forall (fun c => is_space c = true) post).
Proof.
  apply (handlePptx_trims paddedShape (lit "Title of the slide")). reflexivity.
Defined.

End TextFacts.

(** ** Balanced extraction and normalisation (handlers/table_handler.py) *)

Module TableTextFacts.
Import PyStr TableHandler TableText StrFacts TableFacts.

(** Occurrences of [o] minus occurrences of [c]. *)
Definition balance (o c : N) (l : list N) : Z :=
  (Z.of_nat (count_occ N.eq_dec l o) - Z.of_nat (count_occ N.eq_dec l c))%Z.

Lemma find_None (sub s : list N) : contains sub s = false -> find sub s = None.
Proof.
  induction s as [|a s IH]; simpl.
  - rewrite orb_false_r. now intros ->.
  - intros H. apply orb_false_iff in H as [-> H]. now rewrite IH.
Qed.

Lemma find_char (o : N) (s : list N) (n : nat) :
  find [o] s = Some n ->
  (o ∉ take n s) /\ exists rest, drop n s = o :: rest.
Proof.
  revert n. induction s as [|a s IH]; intros n; simpl; [discriminate|].
  destruct (a =? o)%N eqn:E.
  - apply N.eqb_eq in E as ->. rewrite N.eqb_refl. simpl. intros [= <-].
    split; [simpl; apply not_elem_of_nil|eauto].
  - rewrite N.eqb_sym, E. simpl.
    destruct (find [o] s) as [m|]; simpl; [|discriminate].
    intros [= <-]. destruct (IH m eq_refl) as [Hn Hd].
    split; [|exact Hd]. simpl. apply not_elem_of_cons. split; [|assumption].
    intros ->. rewrite N.eqb_refl in E. discriminate.
Qed.

Lemma balance_snoc (o c : N) (l : list N) (ch : N) :
  o <> c ->
  balance o c (l ++ [ch]) = step_depth [o] [c] (balance o c l) ch.
Proof.
  intros Hoc. unfold balance, step_depth.
  rewrite !count_occ_app. simpl.
  destruct (N.eq_dec ch o) as [->|Ho].
  - rewrite bool_decide_eq_true_2 by reflexivity.
    destruct (N.eq_dec o c); [contradiction|]. lia.
  - rewrite bool_decide_eq_false_2 by congruence.
    destruct (N.eq_dec ch c) as [->|Hc].
    + rewrite bool_decide_eq_true_2 by reflexivity. lia.
    + rewrite bool_decide_eq_false_2 by congruence. lia.
Qed.

Lemma step_depth_same (c : N) (d : Z) (ch : N) :
  (d <= step_depth [c] [c] d ch)%Z.
Proof.
  unfold step_depth. destruct (bool_decide ([ch] = [c])); lia.
Qed.

Lemma scan_same (c : N) (rest : list N) :
  forall d taken, (0 < d)%Z -> scan [c] [c] d taken rest = None.
Proof.
  induction rest as [|ch rest IH]; intros d taken Hd; simpl; [reflexivity|].
  pose proof (step_depth_same c d ch) as Hs.
  destruct (step_depth [c] [c] d ch =? 0)%Z eqn:E; [lia|].
  apply IH. lia.
Qed.

(** The loop invariant: the depth is the balance of what was taken, and
    it was positive after every character taken so far. *)
Lemma scan_spec (o c : N) (r rest : list N) :
  o <> c ->
  forall taken,
  (taken = [] -> head rest = Some o) ->
  (forall n, 0 < n <= length taken -> (0 < balance o c (take n taken))%Z) ->
  scan [o] [c] (balance o c taken) taken rest = Some r ->
  (exists post, taken ++ rest = r ++ post) /\
  taken `prefix_of` r /\ r <> [] /\
  balance o c r = 0%Z /\ last r = Some c /\
  (forall n, 0 < n < length r -> (0 < balance o c (take n r))%Z).
Proof.
  intros Hoc. induction rest as [|ch rest IH]; intros taken Hfirst Hpos; simpl;
    [discriminate|].
  rewrite <- (balance_snoc o c taken ch Hoc).
  assert (Hstep : (0 <= balance o c (taken ++ [ch]))%Z /\
                  (balance o c (taken ++ [ch]) = 0%Z -> ch = c /\ taken <> [])).
  { rewrite balance_snoc by assumption.
    destruct taken as [|x taken'] eqn:Et.
    - specialize (Hfirst eq_refl). simpl in Hfirst. injection Hfirst as ->.
      unfold step_depth, balance. simpl.
      rewrite bool_decide_eq_true_2 by reflexivity. lia.
    - rewrite <- Et in *.
      assert (Hd : (0 < balance o c taken)%Z).
      { specialize (Hpos (length taken)). rewrite firstn_all in Hpos.
        apply Hpos. subst taken. simpl. lia. }
      unfold step_depth.
      destruct (bool_decide ([ch] = [o])); [lia|].
      destruct (bool_decide ([ch] = [c])) eqn:Ec.
      + apply bool_decide_eq_true in Ec. injection Ec as ->.
        split; [lia|]. intros _. split; [reflexivity|]. subst taken. discriminate.
      + split; [lia|]. lia. }
  destruct Hstep as [Hnn Hzero].
  destruct (balance o c (taken ++ [ch]) =? 0)%Z eqn:E.
  - apply Z.eqb_eq in E. destruct (Hzero E) as [-> Hne]. intros [= <-].
    split; [exists rest; now rewrite <- app_assoc|].
    split; [now apply prefix_app_r|].
    split; [now destruct taken|].
    split; [assumption|]. split; [apply last_snoc|].
    intros n Hn. rewrite length_app in Hn. simpl in Hn.
    rewrite take_app_le by lia. apply Hpos. lia.
  - apply Z.eqb_neq in E. intros H.
    apply IH in H.
    + destruct H as ((post & Hpost) & Hpre & Hne & Hb & Hl & Hp).
      split; [exists post; rewrite <- Hpost, <- app_assoc; reflexivity|].
      split; [|auto].
      etransitivity; [|exact Hpre]. now apply prefix_app_r.
    + intros Hnil. destruct taken; discriminate.
    + intros n Hn. rewrite length_app in Hn. simpl in Hn.
      destruct (decide (n = length taken + 1)) as [->|Hneq].
      * rewrite take_ge by (rewrite length_app; simpl; lia). lia.
      * rewrite take_app_le by lia. apply Hpos. lia.
Qed.

(** X14. [_extractBalanced] finds nothing when the opening string does
    not occur in the text, and also whenever the opening and the closing
    delimiter are the same character: the depth then never returns to
    zero. *)
Theorem extractBalanced_none (s openCh closeCh : list N) :
  (contains openCh s = false -> _extractBalanced s openCh closeCh = None) /\
  (forall c : N, openCh = [c] -> closeCh = [c] ->
                 _extractBalanced s openCh closeCh = None).
Proof.
  unfold _extractBalanced. split.
  - intros H. now rewrite find_None.
  - intros c -> ->. destruct (find [c] s) as [start|] eqn:Ef; [|reflexivity].
    destruct (find_char _ _ _ Ef) as [_ [rest ->]]. simpl.
    unfold step_depth. rewrite bool_decide_eq_true_2 by reflexivity. simpl.
    apply scan_same. lia.
Qed.

Lemma extractBalanced_none_witness :
  _extractBalanced (lit "no brace here") (lit "{") (lit "}") = None /\
  _extractBalanced (lit "say 'a' and 'b'") (lit "'") (lit "'") = None.
Proof.
  split.
  - apply (extractBalanced_none (lit "no brace here") (lit "{") (lit "}")). reflexivity.
  - apply (extractBalanced_none (lit "say 'a' and 'b'") (lit "'") (lit "'") : _ /\ _)
      with (c := 39%N); reflexivity.
Defined.

(** X15. For two different delimiter characters, what
    [_extractBalanced] returns is a piece of the text that starts at the
    first opening delimiter, ends with a closing delimiter, holds as many
    opening as closing delimiters, and is the shortest such piece: every
    proper non-empty prefix of it holds more opening than closing
    delimiters. *)
Theorem extractBalanced_balanced (s r : list N) (o c : N) :
  o <> c ->
  _extractBalanced s [o] [c] = Some r ->
  (exists pre post, s = pre ++ r ++ post /\ (o ∉ pre)) /\
  head r = Some o /\ last r = Some c /\
  balance o c r = 0%Z /\
  (forall n, 0 < n < length r -> (0 < balance o c (take n r))%Z).
Proof.
  intros Hoc. unfold _extractBalanced.
  destruct (find [o] s) as [start|] eqn:Ef; [|discriminate].
  destruct (find_char _ _ _ Ef) as [Hpre [rest Hd]].
  intros H. change 0%Z with (balance o c []) in H.
  apply scan_spec in H; [|assumption| |].
  - destruct H as ((post & Hpost) & _ & Hne & Hb & Hl & Hp).
    split; [|split; [|auto]].
    + exists (take start s), post. split; [|assumption].
      rewrite <- Hpost. simpl. now rewrite take_drop.
    + simpl in Hpost. rewrite Hd in Hpost.
      destruct r; [contradiction|]. simpl in *. congruence.
  - intros _. now rewrite Hd.
  - intros n Hn. simpl in Hn. lia.
Qed.

Lemma extractBalanced_balanced_witness :
  (exists pre post, lit "x = {a{b}c} + {d}" = pre ++ lit "{a{b}c}" ++ post /\ (123%N ∉ pre)) /\
  head (lit "{a{b}c}") = Some 123%N /\ last (lit "{a{b}c}") = Some 125%N /\
  balance 123 125 (lit "{a{b}c}") = 0%Z /\
  (forall n, 0 < n < length (lit "{a{b}c}") ->
             (0 < balance 123 125 (take n (lit "{a{b}c}")))%Z).
Proof.
  apply (extractBalanced_balanced (lit "x = {a{b}c} + {d}") (lit "{a{b}c}") 123 125).
  - discriminate.
  - reflexivity.
Defined.

(** The grid [_normalizeData] returns, read again as raw data. *)
Definition as_rows (grid : list (list (list N))) : list Row :=
  (fun row => RowList (CellStr <$> row)) <$> grid.

Lemma pad_row_id (w : nat) (row : list (list N)) :
  length row = w -> pad_row w row = row.
Proof.
  intros <-. unfold pad_row. rewrite Nat.sub_diag. simpl. apply app_nil_r.
Qed.

Lemma normalizeData_rows (input : list Row) :
  Forall (fun row => length row = max_list (length <$> _normalizeData input) /\
                     Forall (fun cell => strip cell = cell) row)
    (_normalizeData input).
Proof.
  rewrite normalizeData_width, normalizeData_eq.
  apply Forall_fmap, Forall_fmap, Forall_forall. intros r Hr. simpl. split.
  - apply pad_row_length, max_list_bound.
    apply list_elem_of_fmap. exists (clean_row r). split; [reflexivity|].
    apply list_elem_of_fmap. eauto.
  - unfold pad_row. apply Forall_app. split.
    + destruct r as [cells|]; simpl; [|constructor].
      apply Forall_fmap, Forall_forall. intros [cell|] _; simpl; [apply strip_idemp|reflexivity].
    + apply Forall_replicate. reflexivity.
Qed.

(** X16. [_normalizeData] is idempotent: the grid it returns is already
    normal, so normalising it again, read as raw data, changes nothing. *)
Theorem normalizeData_idempotent (input : list Row) :
  _normalizeData (as_rows (_normalizeData input)) = _normalizeData input.
Proof.
  pose proof (normalizeData_rows input) as H.
  set (grid := _normalizeData input) in *.
  assert (Hclean : clean_row <$> as_rows grid = grid).
  { unfold as_rows. rewrite <- list_fmap_compose.
    rewrite <- (list_fmap_id grid) at 2.
    apply Forall_fmap_ext_1. eapply Forall_impl; [exact H|].
    intros row [_ Hcells]. simpl. rewrite <- list_fmap_compose.
    rewrite <- (list_fmap_id row) at 2.
    apply Forall_fmap_ext_1. eapply Forall_impl; [exact Hcells|].
    intros cell Hc. exact Hc. }
  rewrite normalizeData_eq, Hclean.
  rewrite <- (list_fmap_id grid) at 3.
  apply Forall_fmap_ext_1. eapply Forall_impl; [exact H|].
  intros row [Hlen _]. simpl. now apply pad_row_id.
Qed.

End TableTextFacts.

(** ** More on the formula handler (handlers/formula_handler.py) *)

Module FormulaMore.
Import PyStr Json Doc FormulaHandler FormulaFacts StrFacts.

Lemma replace_char_elem (old : N) (new s : list N) (z : N) :
  z ∈ replace_char old new s -> z ∈ new \/ (z ∈ s /\ z <> old).
Proof.
  unfold replace_char. induction s as [|x s IH]; simpl; [intros H; inversion H|].
  intros H. apply elem_of_app in H as [H|H].
  - destruct (x =? old)%N eqn:E; [now left|].
    apply list_elem_of_singleton in H as ->. right.
    split; [apply elem_of_cons; now left|]. intros ->. rewrite N.eqb_refl in E. discriminate.
  - destruct (IH H) as [Hn|[Hs Hne]]; [now left|right].
    split; [apply elem_of_cons; now right|assumption].
Qed.

Lemma replace_char_keeps_ink (old : N) (new s : list N) :
  (exists y, y ∈ new /\ is_space y = false) ->
  (exists x, x ∈ s /\ is_space x = false) ->
  exists z, z ∈ replace_char old new s /\ is_space z = false.
Proof.
  intros (y & Hy & Hys) (x & Hx & Hxs). unfold replace_char.
  destruct (x =? old)%N eqn:E.
  - exists y. split; [|assumption]. apply list_elem_of_In, in_flat_map.
    exists x. split; [now apply list_elem_of_In|]. rewrite E. now apply list_elem_of_In.
  - exists x. split; [|assumption]. apply list_elem_of_In, in_flat_map.
    exists x. split; [now apply list_elem_of_In|]. rewrite E. now left.
Qed.

(** The replacement loop of [simpleTextToLatex]. *)
Definition replace_all (rs : list (N * list N)) (s : list N) : list N :=
  foldl (fun s kv => replace_char kv.1 kv.2 s) s rs.

Lemma replace_all_elem (rs : list (N * list N)) :
  Forall (fun kv => (128 <= kv.1)%N /\ Forall (fun c => (c < 128)%N) kv.2) rs ->
  forall (s : list N) (z : N),
  z ∈ replace_all rs s -> (z < 128)%N \/ (z ∈ s /\ z ∉ rs.*1).
Proof.
  unfold replace_all.
  induction 1 as [|[old new] rs [Hold Hnew] _ IH]; intros s z; simpl.
  - intros H. right. split; [assumption|apply not_elem_of_nil].
  - intros H. destruct (IH _ _ H) as [Hz|[Hz Hrs]]; [now left|].
    apply replace_char_elem in Hz as [Hz|[Hz Hne]].
    + left. now apply (proj1 (Forall_forall _ _) Hnew).
    + right. split; [assumption|]. apply not_elem_of_cons. now split.
Qed.

Lemma replace_all_keeps_ink (rs : list (N * list N)) :
  Forall (fun kv => exists y, y ∈ kv.2 /\ is_space y = false) rs ->
  forall s : list N,
  (exists x, x ∈ s /\ is_space x = false) ->
  exists z, z ∈ replace_all rs s /\ is_space z = false.
Proof.
  unfold replace_all.
  induction 1 as [|[old new] rs Hnew _ IH]; intros s Hs; simpl; [assumption|].
  apply IH. now apply replace_char_keeps_ink.
Qed.

Lemma strip_ink (s : list N) :
  (exists x, x ∈ s /\ is_space x = false) -> strip s <> [].
Proof.
  intros (x & Hx & Hxs) Hnil.
  destruct (strip_spec s) as (pre & post & Hs & Hpre & Hpost).
  rewrite Hnil in Hs. simpl in Hs. rewrite Hs in Hx.
  apply elem_of_app in Hx as [Hx|Hx].
  - apply (proj1 (Forall_forall _ _) Hpre) in Hx. congruence.
  - apply (proj1 (Forall_forall _ _) Hpost) in Hx. congruence.
Qed.

Lemma strip_elem (s : list N) (z : N) : z ∈ strip s -> z ∈ s.
Proof.
  destruct (strip_spec s) as (pre & post & Hs & _). intros H.
  rewrite Hs. apply elem_of_app. right. apply elem_of_app. now left.
Qed.

Lemma simpleTextToLatex_eq (text : list N) :
  simpleTextToLatex text =
  if existsb (fun c => contains [c] text) strong
  then Some (strip (replace_all repl text)) else None.
Proof.
  unfold simpleTextToLatex. destruct text; [reflexivity|].
  now destruct (existsb _ strong).
Qed.

(** X17. The heuristic [simpleTextToLatex] answers exactly for the texts
    that hold one of its ten operator characters.  Its answer is never
    blank, has no white space at either end, and holds none of the
    twelve Unicode symbols it rewrites. *)
Theorem simpleTextToLatex_result (text : list N) :
  (simpleTextToLatex text = None <-> Forall (fun c => c ∉ strong) text) /\
  (forall r, simpleTextToLatex text = Some r ->
     r <> [] /\ trimmed r /\ Forall (fun c => c ∉ repl.*1) r).
Proof.
  rewrite simpleTextToLatex_eq.
  destruct (existsb (fun c => contains [c] text) strong) eqn:E.
  - apply existsb_exists in E as (c & Hc & Hct).
    apply contains_char in Hct. apply list_elem_of_In in Hc.
    split.
    + split; [discriminate|]. intros H.
      apply (proj1 (Forall_forall _ _) H) in Hct. contradiction.
    + assert (Hink : Forall (fun kv : N * list N =>
                               exists y, y ∈ kv.2 /\ is_space y = false) repl).
      { apply Forall_forall. intros kv Hkv. apply list_elem_of_In in Hkv.
        assert (Hb : forallb (fun kv : N * list N =>
                                existsb (fun y => negb (is_space y)) kv.2) repl = true)
          by reflexivity.
        apply (proj1 (forallb_forall _ _) Hb), existsb_exists in Hkv as (y & Hy & Hys).
        exists y. split; [now apply list_elem_of_In|]. now apply negb_true_iff. }
      assert (Hascii : Forall (fun kv : N * list N =>
                                 (128 <= kv.1)%N /\ Forall (fun c => (c < 128)%N) kv.2) repl).
      { apply Forall_forall. intros kv Hkv. apply list_elem_of_In in Hkv.
        assert (Hb : forallb (fun kv : N * list N =>
                                (128 <=? kv.1)%N && forallb (fun c => (c <? 128)%N) kv.2)
                       repl = true) by reflexivity.
        apply (proj1 (forallb_forall _ _) Hb), andb_true_iff in Hkv as [Hk Hv].
        split; [now apply N.leb_le|].
        apply Forall_forall. intros ch Hch. apply list_elem_of_In in Hch.
        apply N.ltb_lt. exact (proj1 (forallb_forall _ _) Hv ch Hch). }
      assert (Hcs : is_space c = false).
      { unfold strong in Hc.
        repeat (apply elem_of_cons in Hc as [->|Hc]; [reflexivity|]).
        inversion Hc. }
      pose proof (replace_all_keeps_ink repl Hink text
                    (ex_intro _ c (conj Hct Hcs))) as Hz.
      pose proof (replace_all_elem repl Hascii text) as Hel.
      set (s := replace_all repl text) in *.
      intros r [= <-]. split; [|split].
      * now apply strip_ink.
      * apply strip_trimmed.
      * apply Forall_forall. intros z Hzr. apply strip_elem in Hzr.
        apply Hel in Hzr as [Hlt|[_ Hno]]; [|assumption].
        intros Hin. unfold repl in Hin. simpl in Hin.
        repeat (apply elem_of_cons in Hin as [->|Hin]; [lia|]).
        inversion Hin.
  - split; [|discriminate]. split; [|reflexivity]. intros _.
    apply Forall_forall. intros c Hc Hs.
    assert (existsb (fun c => contains [c] text) strong = true); [|congruence].
    apply existsb_exists. exists c.
    split; [now apply list_elem_of_In|now apply contains_char].
Qed.

Lemma simpleTextToLatex_result_witness :
  lit "a\leq b" <> [] /\ trimmed (lit "a\leq b") /\
  Forall (fun c => c ∉ repl.*1) (lit "a\leq b").
Proof.
  apply (simpleTextToLatex_result [32; 97; 8804; 98; 32]%N).
  reflexivity.
Defined.

(** X18. [handlePptx] never answers from OMML: [_ommlToLatex] and
    [_extractOmmlFromSlide] are stubs, so whatever the shape holds, the
    record comes from the text layer, from the OCR layer or is the
    failure record, and it carries neither MathML nor OMML. *)
Theorem handlePptx_never_omml
    (h : Handler) (shape : Shape) (slideNum : Z) (filePath : list N) :
  let r := handlePptx h shape slideNum filePath in
  (source r = "text_llm" \/ source r = "ocr" \/ source r = "failed") /\
  mathml r = None /\ omml r = None.
Proof.
  cbv zeta. rewrite handlePptx_eq.
  destruct (layer_text h shape) as [r|] eqn:Et.
  - apply layer_text_inv in Et as (-> & _). simpl. auto.
  - unfold layer_ocr. destruct (llm h); [destruct (image_blob shape)|]; simpl; auto.
Qed.

Lemma extractFormula_confidence (h : Handler) (imageBytes : list N) (src : string) :
  let res := _extractFormula h imageBytes src in
  (ocr_confidence res = 0%Q \/
   (ocr_confidence res = 0.95%Q /\
    exists s, ocr_latex res = JStr s /\ strip s <> [])).
Proof.
  cbv zeta. unfold _extractFormula, _extractFormula_try.
  destruct (llm h) as [l|]; [|now left].
  destruct (chat l (DescribeFormula imageBytes)) as [resp|e]; simpl; [|now left].
  destruct (reply_json resp) as [parsed|]; [|now left].
  destruct parsed; simpl; try (now left).
  destruct (truthy (obj_get (lit "latex") JNull fields)) eqn:Et; simpl; [|now left].
  destruct (obj_get (lit "latex") JNull fields) as [| | |s| |]; simpl; try (now left).
  destruct (strip s) as [|c s'] eqn:Es; simpl; [now left|].
  right. split; [reflexivity|]. exists s. rewrite Es. split; [reflexivity|discriminate].
Qed.

Lemma strip_nonempty_truthy (s : list N) : strip s <> [] -> truthy (JStr s) = true.
Proof.
  intros H. simpl. destruct s; [contradiction|reflexivity].
Qed.

Lemma ocr_record_confidence (h : Handler) (imageBytes : list N) (src : string) :
  let r := ocr_record (_extractFormula h imageBytes src) in
  (confidence r = 0%Q \/ confidence r = 0.95%Q) /\
  ((0 < confidence r)%Q ->
   truthy (latex r) = true /\ error r = NoError /\ type r = Some "formula").
Proof.
  cbv zeta. unfold ocr_record. simpl.
  destruct (extractFormula_confidence h imageBytes src) as [H0|[H1 (s & Hs & Hne)]].
  - rewrite H0. split; [now left|]. intros H. discriminate.
  - rewrite H1, Hs. rewrite (strip_nonempty_truthy s Hne).
    split; [now right|]. intros _. auto.
Qed.

(** X19. The confidence of a formula record is one of 0, 0.6, 0.9 and
    0.95, and a positive confidence is only ever reported together with
    a non-empty LaTeX string or value and a null error, by [handlePptx]
    and by [handlePdf] alike. *)
Theorem formula_confidence_sound (h : Handler) :
  (forall (shape : Shape) (slideNum : Z) (filePath : list N),
     let r := handlePptx h shape slideNum filePath in
     (confidence r = 0%Q \/ confidence r = 0.6%Q \/
      confidence r = 0.9%Q \/ confidence r = 0.95%Q) /\
     ((0 < confidence r)%Q ->
      truthy (latex r) = true /\ error r = NoError /\ type r = Some "formula")) /\
  (forall (page : Page) (bbox : NmsProcessor.Box) (scale : Q),
     let r := handlePdf h page bbox scale in
     (confidence r = 0%Q \/ confidence r = 0.95%Q) /\
     ((0 < confidence r)%Q ->
      truthy (latex r) = true /\ error r = NoError /\ type r = Some "formula")).
Proof.
  split.
  - intros shape slideNum filePath. cbv zeta. rewrite handlePptx_eq.
    destruct (layer_text h shape) as [r|] eqn:Et.
    + apply layer_text_inv in Et as (-> & Htr & _). simpl in *.
      split; [|auto].
      unfold _extractFormulaFromText in *.
      destruct (ask_latex h (rawText shape)) as [v|e].
      * destruct (truthy v); [simpl; auto|].
        apply text_heuristic_truthy in Htr as (s & _ & _ & ->). auto.
      * apply text_heuristic_truthy in Htr as (s & _ & _ & ->). auto.
    + unfold layer_ocr. destruct (llm h) as [l|] eqn:El.
      * destruct (image_blob shape) as [bytes|e].
        -- destruct (ocr_record_confidence h bytes "ocr_pptx") as [[H0|H1] Hpos];
             (split; [auto|exact Hpos]).
        -- simpl. split; [auto|discriminate].
      * simpl. split; [auto|discriminate].
  - intros page bbox scale. cbv zeta. unfold handlePdf.
    destruct (render_png page (scaled_rect bbox scale)) as [bytes|e].
    + destruct (llm h) as [l|] eqn:El.
      * apply ocr_record_confidence.
      * simpl. split; [auto|discriminate].
    + simpl. split; [auto|discriminate].
Qed.

Lemma formula_confidence_sound_witness :
  let r := handlePptx (mkHandler (Some helpfulLLM) true) pictureShape 1 (lit "deck.pptx") in
  let r' := handlePdf (mkHandler (Some helpfulLLM) true) blankPage unitBox 1 in
  (truthy (latex r) = true /\ error r = NoError /\ type r = Some "formula") /\
  (truthy (latex r') = true /\ error r' = NoError /\ type r' = Some "formula").
Proof.
  cbv zeta.
  destruct (formula_confidence_sound (mkHandler (Some helpfulLLM) true)) as [Hpptx Hpdf].
  split.
  - apply (Hpptx pictureShape 1%Z (lit "deck.pptx")). reflexivity.
  - apply (Hpdf blankPage unitBox 1%Q). reflexivity.
Defined.

End FormulaMore.

(** ** Image description (handlers/image_handler.py) *)

Module ImageFacts.
Import PyStr Json Doc ImageHandler StrFacts CacheFacts.

(** The handler with another AI client. *)
Definition with_chat (self : Handler) (chat' : Prompt -> list N -> result ChatReply)
  : Handler :=
  mkHandler chat' (lower self) (getImageHash self) (tableHandler self)
    (formulaHandler self).

Lemma flowchart_is_chart (cat : list N) :
  contains (lit "flowchart") cat = true -> contains (lit "chart") cat = true.
Proof. apply (contains_suffix (lit "flow") (lit "chart")). Qed.

(** X20. The branch of [_dispatch] for flow charts is dead: 'flowchart'
    holds 'chart', which is tested before it.  So the result of
    [_dispatch] does not depend on what the AI client would answer to
    the flow-chart prompt, and a category that holds 'flowchart' (and
    none of 'table', 'math', 'formula') is described with the chart
    prompt. *)
Theorem dispatch_flowchart_branch_is_dead
    (self : Handler) (chat' : Prompt -> list N -> result ChatReply)
    (imageBytes : list N) (category : value) (st : State) :
  (forall p b, p <> DESCRIBE_FLOWCHART_PROMPT -> chat' p b = chat self p b) ->
  _dispatch (with_chat self chat') imageBytes category st =
  _dispatch self imageBytes category st /\
  (forall c, category = JStr c ->
     contains (lit "flowchart") (lower self c) = true ->
     contains (lit "table") (lower self c) = false ->
     contains (lit "math") (lower self c) = false ->
     contains (lit "formula") (lower self c) = false ->
     _dispatch self imageBytes category st =
     _generateDescription self imageBytes DESCRIBE_CHART_PROMPT st).
Proof.
  intros Hchat. split.
  - destruct category as [| | |c| |]; try reflexivity. simpl.
    unfold _generateDescription. simpl.
    destruct (contains (lit "table") (lower self c)).
    { destruct (tableHandler self); [reflexivity|]. now rewrite Hchat. }
    destruct (contains (lit "math") (lower self c) || contains (lit "formula") (lower self c)).
    { destruct (formulaHandler self); [reflexivity|]. now rewrite Hchat. }
    destruct (contains (lit "chart") (lower self c)) eqn:Ec; simpl.
    { now rewrite Hchat. }
    destruct (contains (lit "graph") (lower self c)); simpl.
    { now rewrite Hchat. }
    destruct (contains (lit "diagram") (lower self c) || contains (lit "technical") (lower self c)).
    { now rewrite Hchat. }
    destruct (contains (lit "flowchart") (lower self c)) eqn:Ef.
    { apply flowchart_is_chart in Ef. congruence. }
    destruct (contains (lit "text") (lower self c)); now rewrite Hchat.
  - intros c -> Hf Ht Hm Hfo. simpl. rewrite Ht, Hm, Hfo. simpl.
    now rewrite (flowchart_is_chart _ Hf).
Qed.

(** An AI client that names the kind of description it was asked for. *)
Definition namingLLM (p : Prompt) (b : list N) : result ChatReply :=
  Ok (mkReply match p with
              | CATEGORIZE_IMAGE_PROMPT => lit "{'type': 'Flowchart'}"
              | DESCRIBE_CHART_PROMPT => lit "a chart"
              | DESCRIBE_DIAGRAM_PROMPT => lit "a diagram"
              | DESCRIBE_FLOWCHART_PROMPT => lit "a flow chart"
              | DESCRIBE_PHOTO_PROMPT => lit "a photo"
              | DESCRIBE_TEXT_IMAGE_PROMPT => lit "a text"
              end
        match p with
        | CATEGORIZE_IMAGE_PROMPT => Some (JObj [(lit "type", JStr (lit "Flowchart"))])
        | _ => None
        end).

(** Lower case for ASCII letters, enough for the samples. *)
Definition ascii_lower (s : list N) : list N :=
  (fun c => if (65 <=? c) && (c <=? 90) then c + 32 else c)%N <$> s.

Definition sampleHandler : Handler :=
  mkHandler namingLLM ascii_lower (fun b => lit "hash-" ++ b) None None.

Lemma dispatch_flowchart_branch_is_dead_witness :
  _dispatch (with_chat sampleHandler
               (fun p b => match p with
                           | DESCRIBE_FLOWCHART_PROMPT => Raise ZeroDivisionError
                           | _ => namingLLM p b
                           end))
    (lit "png") (JStr (lit "Flowchart")) (init true None) =
  _dispatch sampleHandler (lit "png") (JStr (lit "Flowchart")) (init true None) /\
  _dispatch sampleHandler (lit "png") (JStr (lit "Flowchart")) (init true None) =
  _generateDescription sampleHandler (lit "png") DESCRIBE_CHART_PROMPT (init true None).
Proof.
  destruct (dispatch_flowchart_branch_is_dead sampleHandler
              (fun p b => match p with
                          | DESCRIBE_FLOWCHART_PROMPT => Raise ZeroDivisionError
                          | _ => namingLLM p b
                          end)
              (lit "png") (JStr (lit "Flowchart")) (init true None)) as [H1 H2].
  - intros p b Hp. destruct p; try reflexivity. contradiction.
  - split; [exact H1|]. apply (H2 (lit "Flowchart")); reflexivity.
Defined.

Lemma coordinator_inv (self : Handler) (imageBytes : list N) (st st' : State)
    (outcome : result (list N)) :
  coordinator self imageBytes st = (outcome, st') ->
  cacheHitCount st' = cacheHitCount st /\
  (apiCallCount st' = apiCallCount st + 1 \/ apiCallCount st' = apiCallCount st + 2) /\
  cache st' =
  match outcome with
  | Ok description =>
      (fun c => ImageCache.set c (getImageHash self imageBytes) description) <$> cache st
  | Raise _ => cache st
  end.
Proof.
  unfold coordinator, _categorize.
  destruct (chat self CATEGORIZE_IMAGE_PROMPT imageBytes) as [resp|e].
  2:{ intros [= <- <-]. simpl. repeat split; [left; lia]. }
  set (category := match reply_json resp with
                   | Some (JObj fields) => obj_get (lit "type") (JStr (lit "Photo")) fields
                   | _ => JStr (lit "Photo")
                   end).
  assert (Hd : forall out st1,
    _dispatch self imageBytes category (count_api_call st) = (out, st1) ->
    cache st1 = cache st /\ cacheHitCount st1 = cacheHitCount st /\
    (apiCallCount st1 = apiCallCount st + 1 \/ apiCallCount st1 = apiCallCount st + 2)).
  { intros out st1. unfold _dispatch, _generateDescription.
    destruct category as [| | |c| |];
      try (intros [= <- <-]; simpl; repeat split; left; lia).
    repeat match goal with
    | |- context [if ?b then _ else _] => destruct b
    | |- context [match ?h self with _ => _ end] => destruct (h self)
    end; intros [= <- <-]; simpl; repeat split; (left; lia) || (right; lia). }
  destruct (_dispatch self imageBytes category (count_api_call st)) as [[d|e] st1] eqn:E;
    destruct (Hd _ _ eq_refl) as (Hc & Hh & Ha).
  - intros [= <- <-]. rewrite <- Hc. destruct (cache st1) eqn:Ec; simpl; rewrite ?Ec; auto.
  - intros [= <- <-]. auto.
Qed.

(** X21. A description is computed once: when the cache is enabled and
    the coordinator task of an image succeeds with a non-empty
    description, the next request for the same image is answered from
    the cache with that description, without any call of the AI client.
    So is the first request of a handler constructed later on the
    persisted cache file, provided that every hash and description the
    cache then held is text UTF-8 can encode; if one of them holds an
    unpaired surrogate, the write of the file has stopped there, the
    later handler starts with an empty cache and computes the
    description again.  An empty description is cached too, but never
    served: the next request computes it again. *)
Theorem described_once_then_cached
    (self : Handler) (imageBytes description : list N) (st st' : State)
    (c' : ImageCache.t) :
  coordinator self imageBytes st = (Ok description, st') ->
  cache st' = Some c' ->
  ImageCache.get c' (getImageHash self imageBytes) = Some description /\
  _processImageAsync self imageBytes st' =
    (if bool_decide (description = [])
     then (Submitted (coordinator self imageBytes), st')
     else (Cached description,
           mkState (Some c') (apiCallCount st') (S (cacheHitCount st')))) /\
  (storable (ImageCache.cache c') ->
   _processImageAsync self imageBytes (init true (ImageCache.cacheFile c')) =
     (if bool_decide (description = [])
      then (Submitted (coordinator self imageBytes), mkState (Some c') 0 0)
      else (Cached description, mkState (Some c') 0 1))) /\
  (~ storable (ImageCache.cache c') ->
   ImageCache.cache (ImageCache.init (ImageCache.cacheFile c')) = ∅ /\
   _processImageAsync self imageBytes (init true (ImageCache.cacheFile c')) =
     (Submitted (coordinator self imageBytes), init true (ImageCache.cacheFile c'))).
Proof.
  intros H Hc'. destruct (coordinator_inv _ _ _ _ _ H) as (_ & _ & Hc).
  rewrite Hc' in Hc. destruct (cache st) as [c|] eqn:Ecache; [|discriminate].
  simpl in Hc. injection Hc as ->.
  assert (Hget : ImageCache.get (ImageCache.set c (getImageHash self imageBytes) description)
                   (getImageHash self imageBytes) = Some description).
  { rewrite get_set. now destruct (decide (_ = _)). }
  split; [exact Hget|]. split; [|split].
  - unfold _processImageAsync. rewrite Hc'. simpl cache. rewrite Hget.
    destruct description; simpl; auto.
  - intros Hs.
    assert (Hinit : init true (ImageCache.cacheFile
                      (ImageCache.set c (getImageHash self imageBytes) description)) =
                    mkState (Some (ImageCache.set c (getImageHash self imageBytes) description))
                      0 0).
    { unfold init. now rewrite reload_set. }
    rewrite Hinit. unfold _processImageAsync. simpl cache. cbv iota beta.
    rewrite !Hget. destruct description; simpl; auto.
  - intros Hs. pose proof (reload_set_torn _ _ _ Hs) as Hempty.
    split; [exact Hempty|].
    assert (Hg : ImageCache.get
                   (ImageCache.init (ImageCache.cacheFile
                      (ImageCache.set c (getImageHash self imageBytes) description)))
                   (getImageHash self imageBytes) = None).
    { unfold ImageCache.get. rewrite Hempty. apply lookup_empty. }
    unfold _processImageAsync, init. cbn [cache]. now rewrite Hg.
Qed.

(** An AI client whose every reply is one unpaired surrogate. *)
Definition surrogateLLM (p : Prompt) (b : list N) : result ChatReply :=
  Ok (mkReply [55296%N] None).

Definition surrogateHandler : Handler :=
  mkHandler surrogateLLM ascii_lower (fun b => lit "hash-" ++ b) None None.

Lemma described_once_then_cached_witness :
  (exists st' c',
     coordinator sampleHandler (lit "png") (init true None) = (Ok (lit "a chart"), st') /\
     ImageCache.get c' (getImageHash sampleHandler (lit "png")) = Some (lit "a chart") /\
     _processImageAsync sampleHandler (lit "png") st' =
       (Cached (lit "a chart"), mkState (Some c') 2 1) /\
     storable (ImageCache.cache c') /\
     _processImageAsync sampleHandler (lit "png") (init true (ImageCache.cacheFile c')) =
       (Cached (lit "a chart"), mkState (Some c') 0 1)) /\
  (exists st' c',
     coordinator surrogateHandler (lit "png") (init true None) = (Ok [55296%N], st') /\
     _processImageAsync surrogateHandler (lit "png") st' =
       (Cached [55296%N], mkState (Some c') 2 1) /\
     ~ storable (ImageCache.cache c') /\
     _processImageAsync surrogateHandler (lit "png")
       (init true (ImageCache.cacheFile c')) =
       (Submitted (coordinator surrogateHandler (lit "png")),
        init true (ImageCache.cacheFile c'))).
Proof.
  split.
  - eexists _, _. split; [reflexivity|].
    destruct (described_once_then_cached sampleHandler (lit "png") (lit "a chart")
                (init true None) _ _ eq_refl eq_refl) as (Hget & Hnext & Hlater & _).
    assert (Hs : storable (ImageCache.cache
                   (ImageCache.set (ImageCache.init None)
                      (getImageHash sampleHandler (lit "png")) (lit "a chart")))).
    { apply storable_map_to_list. vm_compute. repeat constructor. }
    split; [exact Hget|]. split; [exact Hnext|]. split; [exact Hs|]. exact (Hlater Hs).
  - eexists _, _. split; [reflexivity|].
    destruct (described_once_then_cached surrogateHandler (lit "png") [55296%N]
                (init true None) _ _ eq_refl eq_refl) as (_ & Hnext & _ & Hlater).
    assert (Hs : ~ storable (ImageCache.cache
                   (ImageCache.set (ImageCache.init None)
                      (getImageHash surrogateHandler (lit "png")) [55296%N]))).
    { intros H. destruct (H (lit "hash-png") [55296%N]) as [_ Hv];
        [reflexivity|discriminate Hv]. }
    split; [exact Hnext|]. split; [exact Hs|]. exact (proj2 (Hlater Hs)).
Defined.

(** X22. One coordinator task costs one or two calls of the AI client
    and no cache hit; when it fails the cache is left as it was, and
    when it succeeds the only cache entry that changes is the one of its
    own image. *)
Theorem coordinator_accounting
    (self : Handler) (imageBytes : list N) (st st' : State)
    (outcome : result (list N)) :
  coordinator self imageBytes st = (outcome, st') ->
  cacheHitCount st' = cacheHitCount st /\
  (apiCallCount st' = apiCallCount st + 1 \/ apiCallCount st' = apiCallCount st + 2) /\
  (cache st = None -> cache st' = None) /\
  (forall e, outcome = Raise e -> cache st' = cache st) /\
  (forall c c' k, cache st = Some c -> cache st' = Some c' ->
     k <> getImageHash self imageBytes ->
     ImageCache.get c' k = ImageCache.get c k).
Proof.
  intros H. destruct (coordinator_inv _ _ _ _ _ H) as (Hh & Ha & Hc).
  split; [exact Hh|]. split; [exact Ha|]. split; [|split].
  - intros Hn. rewrite Hc, Hn. now destruct outcome.
  - intros e ->. exact Hc.
  - intros c c' k Hs Hs' Hk. rewrite Hc, Hs in Hs'.
    destruct outcome; simpl in Hs'; injection Hs' as <-; [|reflexivity].
    rewrite get_set. destruct (decide (_ = k)); [congruence|reflexivity].
Qed.

Lemma coordinator_accounting_witness :
  exists st',
    coordinator sampleHandler (lit "png") (init true None) = (Ok (lit "a chart"), st') /\
    cacheHitCount st' = cacheHitCount (init true None) /\
    (apiCallCount st' = apiCallCount (init true None) + 1 \/
     apiCallCount st' = apiCallCount (init true None) + 2) /\
    (cache (init true None) = None -> cache st' = None) /\
    (forall e, Ok (lit "a chart") = Raise e -> cache st' = cache (init true None)) /\
    (forall c c' k, cache (init true None) = Some c -> cache st' = Some c' ->
       k <> getImageHash sampleHandler (lit "png") ->
       ImageCache.get c' k = ImageCache.get c k).
Proof.
  eexists. split; [reflexivity|].
  apply (coordinator_accounting sampleHandler (lit "png") (init true None)). reflexivity.
Defined.

End ImageFacts.

(** ** Slide analysis (core/shape_classifier.py, analyzers/pptx_analyzer.py) *)

Module PptxFacts.
Import PyStr Doc ContentExtractor ShapeClassifier PptxAnalyzer StrFacts ExtractorFacts.

Lemma formula_omml_is_omml (s : PptxShape) :
  has_element s = true ->
  is_Some (FormulaHandler._extractOmml (shape s)) ->
  _hasOmml s = true.
Proof.
  intros He [xml Hx]. unfold _hasOmml. rewrite He. simpl.
  destruct (bool_decide (xpath_omml s = Some true)); [reflexivity|].
  unfold FormulaHandler._extractOmml in Hx.
  destruct (element_xml (shape s)) as [x|]; [|discriminate].
  destruct (contains (lit "m:oMath") x) eqn:E; [|discriminate].
  simpl. rewrite (contains_suffix (lit "m:") (lit "oMath") x E). reflexivity.
Qed.

(** X23. [classifyShape] answers with one of eight labels, and math
    comes first: a shape in which [_hasOmml] finds OMML (in particular a
    shape in whose XML the formula handler finds 'm:oMath') is classified
    'equation', unless its type is picture, table or chart; it is never
    classified 'text', 'diagram', 'group' or 'unknown'. *)
Theorem classifyShape_math_first (s : PptxShape) (label : string) :
  classifyShape s = Ok label ->
  label ∈ ["image"; "table"; "chart"; "equation"; "diagram"; "group"; "text"; "unknown"] /\
  (_hasOmml s = true \/
   (has_element s = true /\ is_Some (FormulaHandler._extractOmml (shape s))) ->
   label = "equation" \/
   (label = "image" /\ shape_type s = Some PICTURE) \/
   (label = "table" /\ shape_type s = Some TABLE) \/
   (label = "chart" /\ shape_type s = Some CHART)).
Proof.
  intros H.
  assert (Hlabels : forall l : string,
            l ∈ ["image"; "table"; "chart"; "equation"; "diagram"; "group"; "text"; "unknown"]
            <-> l = "image" \/ l = "table" \/ l = "chart" \/ l = "equation" \/
                l = "diagram" \/ l = "group" \/ l = "text" \/ l = "unknown").
  { intros l. rewrite !elem_of_cons, elem_of_nil. tauto. }
  split.
  - apply Hlabels. revert H. unfold classifyShape.
    repeat match goal with
    | |- context [bool_decide ?P] => destruct (bool_decide P)
    | |- context [_hasOmml s] => destruct (_hasOmml s)
    | |- context [_hasOle s] => destruct (_hasOle s)
    | |- context [if has_text_frame ?x then _ else _] => destruct (has_text_frame x)
    | |- context [match image s with _ => _ end] => destruct (image s) as [|[]]
    | |- context [match text ?x with _ => _ end] => destruct (text x)
    | |- context [match strip ?x with _ => _ end] => destruct (strip x)
    end; simpl; (intros [= <-] || discriminate);
      repeat ((left; reflexivity) || right); reflexivity.
  - intros Homml.
    assert (Ho : _hasOmml s = true).
    { destruct Homml as [Ho|[He Hx]]; [exact Ho|now apply formula_omml_is_omml]. }
    revert H. unfold classifyShape. rewrite Ho.
    destruct (bool_decide (shape_type s = Some PICTURE)) eqn:E1.
    { apply bool_decide_eq_true in E1. intros [= <-]. auto. }
    destruct (bool_decide (shape_type s = Some TABLE)) eqn:E2.
    { apply bool_decide_eq_true in E2. intros [= <-]. auto. }
    destruct (bool_decide (shape_type s = Some CHART)) eqn:E3.
    { apply bool_decide_eq_true in E3. intros [= <-]. auto 6. }
    destruct (bool_decide (shape_type s = Some EMBEDDED_OLE_OBJECT)); intros [= <-]; auto.
Qed.

(** A text box whose XML holds an equation. *)
Definition mathBox : PptxShape :=
  mkPptxShape
    (mkShape 10 20 (Some (lit "<p:sp><m:oMath>x</m:oMath></p:sp>")) true
       (Some (lit "x")) (Raise AttributeError))
    (Some 17%Z) 300 100 true None None [] (Raise AttributeError).

Lemma classifyShape_math_first_witness :
  "equation" ∈ ["image"; "table"; "chart"; "equation"; "diagram"; "group"; "text"; "unknown"] /\
  (_hasOmml mathBox = true \/
   (has_element mathBox = true /\ is_Some (FormulaHandler._extractOmml (shape mathBox))) ->
   "equation" = "equation" \/
   ("equation" = "image" /\ shape_type mathBox = Some PICTURE) \/
   ("equation" = "table" /\ shape_type mathBox = Some TABLE) \/
   ("equation" = "chart" /\ shape_type mathBox = Some CHART)).
Proof.
  apply (classifyShape_math_first mathBox "equation"). reflexivity.
Defined.

(** A presentation of two slides: a picture and a title, then [mathBox]. *)
Definition sampleDeck : list (list PptxShape) :=
  [[mkPptxShape (mkShape 100 0 None false None (Ok [137; 80; 78; 71]%N))
      (Some PICTURE) 50 50 true (Some false) (Some false) [] (Ok tt);
    mkPptxShape (mkShape 0 0 None true (Some (lit " Title ")) (Raise AttributeError))
      (Some 17%Z) 50 10 true (Some false) (Some false) [None] (Raise AttributeError)];
   [mathBox]].

(** *** The sort by position *)

Definition pos (e : Element) : Z * Z := position (element e).

(** Positions never decrease along the list. *)
Definition sorted_asc (l : list Element) : Prop :=
  StronglySorted (fun a b => key_lt (pos b) (pos a) = false) l.

Lemma key_lt_spec (a b : Z * Z) :
  key_lt a b = true <-> (a.1 < b.1)%Z \/ (a.1 = b.1 /\ a.2 < b.2)%Z.
Proof.
  unfold key_lt. rewrite orb_true_iff, andb_true_iff, !Z.ltb_lt, Z.eqb_eq. reflexivity.
Qed.

Lemma key_lt_false (a b : Z * Z) :
  key_lt a b = false <-> (b.1 < a.1)%Z \/ (a.1 = b.1 /\ b.2 <= a.2)%Z.
Proof.
  rewrite <- not_true_iff_false, key_lt_spec. lia.
Qed.

Lemma insert_asc_perm x l : insert_asc x l ≡ₚ x :: l.
Proof.
  induction l as [|y l IH]; simpl; [reflexivity|].
  destruct (key_lt _ _); [|reflexivity].
  rewrite IH. apply perm_swap.
Qed.

Lemma sort_asc_perm l : sort_asc l ≡ₚ l.
Proof.
  induction l as [|x l IH]; simpl; [reflexivity|].
  unfold sort_asc in *. simpl. rewrite insert_asc_perm. now rewrite IH.
Qed.

Lemma insert_asc_sorted x l : sorted_asc l -> sorted_asc (insert_asc x l).
Proof.
  unfold sorted_asc. induction 1 as [|y l Hs IH Hf]; simpl.
  - repeat constructor.
  - destruct (key_lt (position (element y)) (position (element x))) eqn:E.
    + constructor; [assumption|].
      rewrite insert_asc_perm. constructor; [|assumption].
      apply key_lt_spec in E. apply key_lt_false. unfold pos. lia.
    + constructor; [now constructor|].
      constructor; [exact E|].
      eapply Forall_impl; [exact Hf|]. simpl. intros z Hz.
      apply key_lt_false in E, Hz. apply key_lt_false. unfold pos in *. lia.
Qed.

Lemma sort_asc_sorted l : sorted_asc (sort_asc l).
Proof.
  induction l as [|x l IH]; [constructor|].
  change (sort_asc (x :: l)) with (insert_asc x (sort_asc l)).
  now apply insert_asc_sorted.
Qed.

(** *** The analyser *)

Lemma analyze_shape_inv (i : nat) (s : PptxShape) (e : Element) :
  analyze_shape i s = Ok e ->
  slide_number e = (Z.of_nat i + 1)%Z /\
  raw_type e = shape_type s /\
  classifyShape s = Ok (classified_type (element e)) /\
  position (element e) = (top (shape s), left (shape s)) /\
  size (element e) = (width s, height s).
Proof.
  unfold analyze_shape.
  destruct (classifyShape s) as [label|err]; simpl; [|discriminate].
  destruct (bool_decide (label = "text") && has_text_frame (shape s)).
  - destruct (text (shape s)); simpl; [|discriminate]. intros [= <-]. auto.
  - simpl. intros [= <-]. auto.
Qed.

Lemma pptx_analyze_from_lookup (slides : list (list PptxShape)) :
  forall (k : nat) (analyzed : list (Z * list Element)),
  analyze_from k slides = Ok analyzed ->
  length analyzed = length slides /\
  forall (i : nat) (a : Z * list Element), analyzed !! i = Some a ->
    a.1 = (Z.of_nat (k + i) + 1)%Z /\
    exists slide els,
      slides !! i = Some slide /\
      forM (analyze_shape (k + i)) slide = Ok els /\
      a.2 = sort_asc els.
Proof.
  induction slides as [|slide rest IH]; intros k analyzed; simpl.
  - intros [= <-]. split; [reflexivity|]. intros i a Hi.
    rewrite lookup_nil in Hi. discriminate.
  - destruct (forM (analyze_shape k) slide) as [els|e] eqn:Ef; simpl; [|discriminate].
    destruct (analyze_from (S k) rest) as [results|e] eqn:E; simpl; [|discriminate].
    intros [= <-]. destruct (IH _ _ E) as [Hlen Hl].
    split; [simpl; now rewrite Hlen|].
    intros [|i] a Hi; simpl in Hi.
    + injection Hi as <-. simpl. rewrite Nat.add_0_r. split; [reflexivity|].
      exists slide, els. auto.
    + destruct (Hl i a Hi) as [Hn (sl & es & Hs & Hf & Ha)].
      replace (k + S i) with (S k + i) by lia. split; [exact Hn|].
      exists sl, es. auto.
Qed.

Lemma findShape_finds (slide : list Shape) (sh : Shape) :
  sh ∈ slide ->
  exists found,
    _findShape slide (top sh, left sh) = Some found /\
    found ∈ slide /\ top found = top sh /\ left found = left sh /\
    (NoDup ((fun x => (top x, left x)) <$> slide) -> found = sh).
Proof.
  induction slide as [|x slide IH]; [intros H; inversion H|].
  intros Hin. simpl.
  destruct ((top x =? top sh)%Z && (left x =? left sh)%Z) eqn:E.
  - apply andb_true_iff in E as [Et El].
    apply Z.eqb_eq in Et, El. exists x.
    split; [reflexivity|]. split; [apply elem_of_cons; now left|].
    split; [assumption|]. split; [assumption|].
    intros Hnd. apply elem_of_cons in Hin as [->|Hin]; [reflexivity|].
    inversion Hnd as [|? ? Hx _]; subst.
    exfalso. apply Hx. apply list_elem_of_fmap. exists sh.
    split; [now rewrite Et, El|assumption].
  - apply elem_of_cons in Hin as [->|Hin].
    { rewrite !Z.eqb_refl in E. discriminate. }
    destruct (IH Hin) as (found & Hf & Hfin & Ht & Hl & Hnd).
    exists found. split; [assumption|]. split; [apply elem_of_cons; now right|].
    split; [assumption|]. split; [assumption|].
    intros H. inversion H; subst. auto.
Qed.

Lemma forM_elem {A B : Type} (body : A -> result B) (l : list A) (out : list B) (y : B) :
  forM body l = Ok out -> y ∈ out -> exists x, x ∈ l /\ body x = Ok y.
Proof.
  intros H Hy. apply forM_Forall2 in H.
  apply list_elem_of_lookup_1 in Hy as [i Hi].
  destruct (Forall2_lookup_r _ _ _ _ _ H Hi) as (x & Hx & Hb).
  exists x. split; [eapply list_elem_of_lookup_2; eassumption|assumption].
Qed.

(** X24. Whenever [analyze] returns, it returns one entry per slide,
    numbered 1, 2, 3, ... in slide order; the elements of an entry are
    the elements built from the shapes of that slide, one per shape, in
    ascending order of position (top first, then left). *)
Theorem analyze_lists_each_slide
    (prs : list (list PptxShape)) (analyzed : list (Z * list Element)) :
  analyze prs = Ok analyzed ->
  length analyzed = length prs /\
  forall (i : nat) (a : Z * list Element), analyzed !! i = Some a ->
    a.1 = (Z.of_nat i + 1)%Z /\
    sorted_asc a.2 /\
    exists slide els,
      prs !! i = Some slide /\
      Forall2 (fun s e => analyze_shape i s = Ok e) slide els /\
      a.2 ≡ₚ els.
Proof.
  intros H. destruct (pptx_analyze_from_lookup _ _ _ H) as [Hlen Hl].
  split; [assumption|]. intros i a Hi.
  destruct (Hl i a Hi) as [Hn (slide & els & Hs & Hf & Ha)]. simpl in *.
  split; [exact Hn|]. split; [rewrite Ha; apply sort_asc_sorted|].
  exists slide, els. split; [assumption|]. split; [now apply forM_Forall2|].
  rewrite Ha. apply sort_asc_perm.
Qed.

Lemma analyze_lists_each_slide_witness :
  exists analyzed,
    analyze sampleDeck = Ok analyzed /\
    length analyzed = length sampleDeck /\
    forall (i : nat) (a : Z * list Element), analyzed !! i = Some a ->
      a.1 = (Z.of_nat i + 1)%Z /\
      sorted_asc a.2 /\
      exists slide els,
        sampleDeck !! i = Some slide /\
        Forall2 (fun s e => analyze_shape i s = Ok e) slide els /\
        a.2 ≡ₚ els.
Proof.
  eexists. split; [reflexivity|].
  apply (analyze_lists_each_slide sampleDeck). reflexivity.
Defined.

(** X25. Every element that [analyze] reports is found again by
    [_findShape] on its slide: the shape found is the first shape of the
    slide at the element's position, and it is the very shape the
    element was built from when no two shapes of the slide share a
    position. *)
Theorem analysed_element_finds_a_shape
    (prs : list (list PptxShape)) (analyzed : list (Z * list Element))
    (i : nat) (a : Z * list Element) (e : Element) :
  analyze prs = Ok analyzed ->
  analyzed !! i = Some a ->
  e ∈ a.2 ->
  exists slide s found,
    prs !! i = Some slide /\ s ∈ slide /\ analyze_shape i s = Ok e /\
    _findShape (shape <$> slide) (position (element e)) = Some found /\
    top found = top (shape s) /\ left found = left (shape s) /\
    (NoDup ((fun x => (top (shape x), left (shape x))) <$> slide) -> found = shape s).
Proof.
  intros H Hi He. destruct (pptx_analyze_from_lookup _ _ _ H) as [_ Hl].
  destruct (Hl i a Hi) as [_ (slide & els & Hs & Hf & Ha)]. simpl in *.
  rewrite Ha, sort_asc_perm in He.
  destruct (forM_elem _ _ _ _ Hf He) as (s & Hsin & Hse).
  destruct (analyze_shape_inv _ _ _ Hse) as (_ & _ & _ & Hpos & _).
  destruct (findShape_finds (shape <$> slide) (shape s)) as (found & Hfd & _ & Ht & Hlf & Hnd).
  { apply list_elem_of_fmap. eauto. }
  exists slide, s, found. rewrite Hpos.
  split; [assumption|]. split; [assumption|]. split; [assumption|].
  split; [assumption|]. split; [assumption|]. split; [assumption|].
  intros Hdist. apply Hnd. now rewrite <- list_fmap_compose.
Qed.

Lemma analysed_element_finds_a_shape_witness :
  exists analyzed a e slide s found,
    analyze sampleDeck = Ok analyzed /\ analyzed !! 0%nat = Some a /\ e ∈ a.2 /\
    sampleDeck !! 0%nat = Some slide /\ s ∈ slide /\ analyze_shape 0 s = Ok e /\
    _findShape (shape <$> slide) (position (element e)) = Some found /\
    top found = top (shape s) /\ left found = left (shape s) /\
    (NoDup ((fun x => (top (shape x), left (shape x))) <$> slide) -> found = shape s).
Proof.
  destruct (analysed_element_finds_a_shape sampleDeck
              [(1%Z, [mkElement 1 (Some 17%Z) (mkPptxElement "text" (0, 0)%Z (50, 10)%Z)
                        (lit " Title ");
                      mkElement 1 (Some PICTURE)
                        (mkPptxElement "image" (100, 0)%Z (50, 50)%Z) (lit "<IMAGE>")]);
               (2%Z, [mkElement 2 (Some 17%Z)
                        (mkPptxElement "equation" (10, 20)%Z (300, 100)%Z)
                        (lit "<EQUATION>")])]
              0%nat
              (1%Z, [mkElement 1 (Some 17%Z) (mkPptxElement "text" (0, 0)%Z (50, 10)%Z)
                       (lit " Title ");
                     mkElement 1 (Some PICTURE)
                       (mkPptxElement "image" (100, 0)%Z (50, 50)%Z) (lit "<IMAGE>")])
              (mkElement 1 (Some PICTURE)
                 (mkPptxElement "image" (100, 0)%Z (50, 50)%Z) (lit "<IMAGE>")))
    as (slide & s & found & H).
  - reflexivity.
  - reflexivity.
  - apply elem_of_cons. right. apply elem_of_cons. now left.
  - eexists _, _, _, slide, s, found.
    split; [reflexivity|]. split; [reflexivity|].
    split; [apply elem_of_cons; right; apply elem_of_cons; now left|]. exact H.
Defined.

End PptxFacts.

(** ** From analysis to extraction (PPTX) *)

Module PptxPipeline.
Import PyStr Doc ContentExtractor ShapeClassifier PptxAnalyzer StrFacts ExtractorFacts PptxFacts.

Lemma py_index_nat {A : Type} (l : list A) (i : nat) :
  py_index l (Z.of_nat i + 1 - 1) =
  match l !! i with Some x => Ok x | None => Raise IndexError end.
Proof.
  unfold py_index.
  replace (Z.of_nat i + 1 - 1)%Z with (Z.of_nat i) by lia.
  destruct (Z.of_nat i <? 0)%Z eqn:E; [apply Z.ltb_lt in E; lia|].
  rewrite E. now rewrite Nat2Z.id.
Qed.

Lemma filter_all {A : Type} (P : A -> Prop) `{!forall x, Decision (P x)} (l : list A) :
  Forall P l -> filter P l = l.
Proof.
  induction 1 as [|x l Hx _ IH]; [reflexivity|].
  rewrite filter_cons_True by assumption. now rewrite IH.
Qed.

Lemma matched_all (slide : list PptxShape) (i : nat) (els l : list Element) :
  forM (analyze_shape i) slide = Ok els ->
  l ≡ₚ els ->
  matched (shape <$> slide) (element <$> l) = element <$> l.
Proof.
  intros Hf Hl. unfold matched. apply filter_all.
  apply Forall_fmap, Forall_forall. intros e He. simpl.
  rewrite Hl in He. destruct (forM_elem _ _ _ _ Hf He) as (s & Hsin & Hse).
  destruct (analyze_shape_inv _ _ _ Hse) as (_ & _ & _ & Hpos & _).
  destruct (findShape_finds (shape <$> slide) (shape s)) as (found & Hfd & _).
  { apply list_elem_of_fmap. eauto. }
  rewrite Hpos, Hfd. eauto.
Qed.

(** The presentation as the extractor opens it. *)
Definition base_slides (prs : list (list PptxShape)) : list (list Shape) :=
  (fun slide : list PptxShape => shape <$> slide) <$> prs.

Section Pipeline.
Context {Content : Type}.

(** X26. Extraction loses nothing of what the analyser found: when
    [extractFromPptx] is run on the slides [analyze] reports for the same
    presentation and returns, its result has, for every slide, exactly
    one element per shape of the slide, carrying the types, positions
    and sizes of the analysed elements in their order. *)
Theorem analysed_presentation_keeps_every_shape
    (self : Extractor Content) (prs : list (list PptxShape)) (filePath : list N)
    (analyzed : list (Z * list Element)) (sched : list nat)
    (out : list (Z * list (PptxOut Content))) :
  analyze prs = Ok analyzed ->
  extractFromPptx self (base_slides prs) filePath (as_input analyzed) sched
    = Some (Ok out) ->
  Forall2 (fun (slide : list PptxShape) (o : Z * list (PptxOut Content)) =>
             length o.2 = length slide) prs out /\
  Forall2 (fun (a : Z * list Element) (o : Z * list (PptxOut Content)) =>
             o.1 = a.1 /\
             (fun e : PptxOut Content => (po_type e, po_position e, po_size e)) <$> o.2 =
             (fun e : Element => (classified_type (element e), position (element e),
                        size (element e))) <$> a.2)
    analyzed out.
Proof.
  intros Han Hout. unfold extractFromPptx, base_slides in Hout.
  apply build_results_Ok in Hout as (meta & Hrun & ->).
  apply dispatch_skeleton in Hrun. apply described_Forall2 in Hrun.
  destruct (pptx_analyze_from_lookup _ _ _ Han) as [Hlen Hl].
  assert (Hlen2 : length analyzed = length meta).
  { apply Forall2_length in Hrun. unfold as_input, skeleton in Hrun.
    now rewrite !length_fmap in Hrun. }
  assert (Hpoint : forall i a (po : Z * list (PptxMeta Content * option Content)),
    analyzed !! i = Some a -> meta !! i = Some po ->
    exists slide,
      prs !! i = Some slide /\ length po.2 = length slide /\ po.1 = a.1 /\
      (fun e : PptxOut Content => (po_type e, po_position e, po_size e)) <$> (pptx_out <$> po.2) =
      (fun e : Element => (classified_type (element e), position (element e),
                 size (element e))) <$> a.2).
  { intros i a po Ha Hpo.
    destruct (Hl i a Ha) as [Hn (slide & els & Hs & Hf & Hsort)]. simpl in Hn.
    assert (Hin : as_input analyzed !! i = Some (mkSlideData a.1 (element <$> a.2))).
    { unfold as_input. rewrite list_lookup_fmap, Ha. reflexivity. }
    assert (Hsk : skeleton meta !! i = Some (po.1, fst <$> po.2)).
    { unfold skeleton. rewrite list_lookup_fmap, Hpo. reflexivity. }
    destruct (Forall2_lookup_lr _ _ _ _ _ _ Hrun Hin Hsk) as (sl & He & Hpm).
    simpl in He, Hpm. rewrite Hn, py_index_nat, list_lookup_fmap, Hs in He.
    simpl in He. injection He as <-. injection Hpm as Hnum Hel.
    assert (Hm : matched (shape <$> slide) (element <$> a.2) = element <$> a.2).
    { apply (matched_all slide i els); [assumption|]. rewrite Hsort. apply sort_asc_perm. }
    assert (Hshape :
      (fun e : PptxOut Content => (po_type e, po_position e, po_size e)) <$> (pptx_out <$> po.2) =
      (fun e : Element => (classified_type (element e), position (element e),
                 size (element e))) <$> a.2).
    { transitivity ((fun elem => (classified_type elem, position elem, size elem)) <$>
                      matched (shape <$> slide) (element <$> a.2)).
      - rewrite <- (describe_matched self), <- Hel, <- !list_fmap_compose. reflexivity.
      - rewrite Hm, <- list_fmap_compose. reflexivity. }
    exists slide. split; [assumption|]. split; [|split; [exact Hnum|exact Hshape]].
    pose proof (f_equal length Hshape) as HL. rewrite !length_fmap in HL.
    rewrite HL, Hsort, sort_asc_perm. now apply forM_length in Hf. }
  split.
  - apply Forall2_same_length_lookup_2.
    + rewrite length_fmap. congruence.
    + intros i slide o Hs Ho. rewrite list_lookup_fmap in Ho.
      destruct (meta !! i) as [po|] eqn:Hpo; [|discriminate]. injection Ho as <-.
      destruct (analyzed !! i) as [a|] eqn:Ha.
      2:{ apply lookup_ge_None in Ha. apply lookup_lt_Some in Hpo. lia. }
      destruct (Hpoint i a po Ha Hpo) as (slide' & Hs' & HL & _).
      simpl. rewrite length_fmap. congruence.
  - apply Forall2_same_length_lookup_2.
    + rewrite length_fmap. congruence.
    + intros i a o Ha Ho. rewrite list_lookup_fmap in Ho.
      destruct (meta !! i) as [po|] eqn:Hpo; [|discriminate]. injection Ho as <-.
      destruct (Hpoint i a po Ha Hpo) as (slide & _ & _ & Hn & Hshape).
      simpl. split; assumption.
Qed.

End Pipeline.

Lemma analysed_presentation_keeps_every_shape_witness :
  exists analyzed out,
    analyze sampleDeck = Ok analyzed /\
    extractFromPptx sampleExtractor (base_slides sampleDeck) (lit "deck.pptx")
      (as_input analyzed) [0]%nat = Some (Ok out) /\
    Forall2 (fun (slide : list PptxShape) (o : Z * list (PptxOut (list N))) =>
               length o.2 = length slide) sampleDeck out /\
    Forall2 (fun (a : Z * list Element) (o : Z * list (PptxOut (list N))) =>
               o.1 = a.1 /\
               (fun e : PptxOut (list N) => (po_type e, po_position e, po_size e)) <$> o.2 =
               (fun e : Element => (classified_type (element e), position (element e),
                                    size (element e))) <$> a.2)
      analyzed out.
Proof.
  eexists _, _. split; [reflexivity|]. split; [vm_compute; reflexivity|].
  eapply (analysed_presentation_keeps_every_shape sampleExtractor sampleDeck
            (lit "deck.pptx") _ [0]%nat).
  - reflexivity.
  - vm_compute. reflexivity.
Defined.

End PptxPipeline.

(** ** From analysis to extraction (PDF) *)

Module PdfPipeline.
Import NmsProcessor NmsFacts NmsMore Doc ContentExtractor PdfAnalyzer ExtractorFacts
       AnalyzerFacts AnalyzerMore.

(** [int(q)] of a non-negative [q] is its integer part. *)
Lemma pyint_floor (q : Q) :
  (0 <= q)%Q ->
  (0 <= pyint q)%Z /\ (inject_Z (pyint q) <= q)%Q /\ (q < inject_Z (pyint q) + 1)%Q.
Proof.
  destruct q as [n d]. unfold pyint, Qle, Qlt, inject_Z. simpl.
  intros Hn. rewrite Z.mul_1_r in Hn.
  rewrite Z.quot_div_nonneg by lia.
  pose proof (Z.div_mod n (Z.pos d) ltac:(lia)) as Hdm.
  pose proof (Z.mod_pos_bound n (Z.pos d) ltac:(lia)) as Hm.
  pose proof (Z.div_pos n (Z.pos d) Hn ltac:(lia)) as Hpos.
  split; [assumption|]. split; nia.
Qed.

Lemma truediv_int (w : Q) (k : Z) :
  truediv w (inject_Z k) =
  if (k =? 0)%Z then Raise ZeroDivisionError else Ok (w / inject_Z k)%Q.
Proof.
  unfold truediv. destruct (k =? 0)%Z eqn:E.
  - apply Z.eqb_eq in E as ->. reflexivity.
  - destruct (Qeq_bool (inject_Z k) 0) eqn:E'; [|reflexivity].
    apply Qeq_bool_iff in E'. apply Z.eqb_neq in E. exfalso. apply E.
    apply inject_Z_injective. exact E'.
Qed.

(** The quotient of a length by its whole number of detector pixels. *)
Lemma pixel_ratio (w dpi : Q) :
  (0 < w)%Q -> (0 < dpi)%Q ->
  (pyint (w * dpi / 72) = 0%Z <-> (w * dpi < 72)%Q) /\
  (pyint (w * dpi / 72) <> 0%Z -> (72 / dpi <= w / inject_Z (pyint (w * dpi / 72)))%Q).
Proof.
  intros Hw Hd.
  assert (Hq : (0 <= w * dpi / 72)%Q).
  { apply Qle_shift_div_l; [reflexivity|]. nra. }
  destruct (pyint_floor _ Hq) as (Hk & Hlo & Hhi).
  set (k := pyint (w * dpi / 72)) in *.
  assert (Hpix : (w * dpi / 72 * 72 == w * dpi)%Q) by (field).
  split; [split|].
  - intros Hz. rewrite Hz in Hhi. change (inject_Z 0 + 1)%Q with 1%Q in Hhi. nra.
  - intros Hlt. destruct (Z.eq_dec k 0%Z) as [|Hne]; [assumption|exfalso].
    assert (H1 : (1 <= inject_Z k)%Q).
    { change 1%Q with (inject_Z 1). rewrite <- Zle_Qle. lia. }
    nra.
  - intros Hne.
    assert (H1 : (0 < inject_Z k)%Q).
    { change 0%Q with (inject_Z 0). rewrite <- Zlt_Qlt. lia. }
    apply Qle_shift_div_l; [assumption|].
    assert (Hdiv : (72 / dpi * dpi == 72)%Q) by (field; lra).
    assert (H72 : (0 < 72 / dpi)%Q) by (apply Qlt_shift_div_l; lra).
    nra.
Qed.

(** X27. The scale factor [extractFromPdf] computes for a page of
    positive size never falls below 72/dpi, and entering the page fails,
    with [ZeroDivisionError], exactly when the page is less than one
    detector pixel wide or high (width or height times dpi below 72). *)
Theorem pdf_enter_scale
    (doc : list Page) (dpi : Q) (pageData : PageData) (page : Page) :
  py_index doc (page_number pageData - 1) = Ok page ->
  (0 < dpi)%Q -> (0 < rect_width page)%Q -> (0 < rect_height page)%Q ->
  ((exists e, pdf_enter doc dpi pageData = Raise e) <->
   (rect_width page * dpi < 72)%Q \/ (rect_height page * dpi < 72)%Q) /\
  (forall e, pdf_enter doc dpi pageData = Raise e -> e = ZeroDivisionError) /\
  (forall page' scale, pdf_enter doc dpi pageData = Ok (page', scale) ->
     page' = page /\ (72 / dpi <= scale)%Q).
Proof.
  intros Hidx Hd Hw Hh. unfold pdf_enter. rewrite Hidx. simpl.
  destruct (pixel_ratio (rect_width page) dpi Hw Hd) as [Hw0 Hwr].
  destruct (pixel_ratio (rect_height page) dpi Hh Hd) as [Hh0 Hhr].
  rewrite !truediv_int.
  destruct (pyint (rect_width page * dpi / 72) =? 0)%Z eqn:Ew.
  { apply Z.eqb_eq in Ew. simpl. split; [|split].
    - split; [intros _; left; now apply Hw0|eauto].
    - now intros e [= <-].
    - discriminate. }
  apply Z.eqb_neq in Ew. simpl.
  destruct (pyint (rect_height page * dpi / 72) =? 0)%Z eqn:Eh.
  { apply Z.eqb_eq in Eh. simpl. split; [|split].
    - split; [intros _; right; now apply Hh0|eauto].
    - now intros e [= <-].
    - discriminate. }
  apply Z.eqb_neq in Eh. simpl. split; [|split].
  - split; [intros [e He]; discriminate|].
    intros [H|H]; [apply Hw0 in H|apply Hh0 in H]; contradiction.
  - discriminate.
  - intros page' scale [= <- <-]. split; [reflexivity|].
    specialize (Hwr Ew). specialize (Hhr Eh).
    apply Qle_shift_div_l; [reflexivity|]. lra.
Qed.

Definition letterPage : Page := mkPage 612 792 (fun _ => Ok [137; 80; 78; 71]%N).

Lemma pdf_enter_scale_witness :
  ((exists e, pdf_enter [letterPage] 250 (mkPageData 1 []) = Raise e) <->
   (rect_width letterPage * 250 < 72)%Q \/ (rect_height letterPage * 250 < 72)%Q) /\
  (forall e, pdf_enter [letterPage] 250 (mkPageData 1 []) = Raise e ->
             e = ZeroDivisionError) /\
  (forall page' scale, pdf_enter [letterPage] 250 (mkPageData 1 []) = Ok (page', scale) ->
     page' = letterPage /\ (72 / 250 <= scale)%Q).
Proof.
  apply (pdf_enter_scale [letterPage] 250 (mkPageData 1 []) letterPage);
    reflexivity.
Defined.

Lemma sorted_fmap {A B : Type} (f : A -> B) (R1 : A -> A -> Prop) (R2 : B -> B -> Prop)
    (l : list A) :
  (forall x y, R1 x y -> R2 (f x) (f y)) ->
  StronglySorted R1 l -> StronglySorted R2 (f <$> l).
Proof.
  intros HR. induction 1 as [|x l _ IH Hf]; [constructor|].
  rewrite fmap_cons. constructor; [exact IH|].
  apply Forall_fmap. eapply Forall_impl; [exact Hf|]. intros y. apply HR.
Qed.

Section Pipeline.
Context {Content : Type}.

(** X28. What 'document order' is for a PDF: when [extractFromPdf] is
    run on the pages [analyze] reports and returns, its result lists the
    pages 1, 2, 3, ... in order, and on each page exactly the detections
    the analyser kept, with their class, box and confidence, in the
    analyser's order, which is descending confidence; no element has
    class 'abandon'. *)
Theorem analysed_pdf_in_confidence_order
    (self : Extractor Content) (doc : list Page)
    (predictions : list (list Detection)) (thr dpi : Q)
    (pages : list PageData) (sched : list nat)
    (out : list (Z * list (PdfOut Content))) :
  analyze predictions thr = Ok pages ->
  extractFromPdf self doc pages dpi sched = Some (Ok out) ->
  out.*1 = (fun i => (Z.of_nat i + 1)%Z) <$> seq 0 (length predictions) /\
  Forall2 (fun (p : PageData) (o : Z * list (PdfOut Content)) =>
             o.1 = page_number p /\
             (fun e : PdfOut Content => (do_type e, do_bbox e, do_confidence e)) <$> o.2 =
             (fun d : Detection => (class_name d, bbox d, conf d)) <$> detections p /\
             StronglySorted (fun x y : Q => (y <= x)%Q)
               ((fun e : PdfOut Content => do_confidence e) <$> o.2) /\
             Forall (fun e : PdfOut Content => do_type e <> "abandon") o.2)
    pages out.
Proof.
  intros Han Hout. unfold extractFromPdf in Hout.
  apply build_results_Ok in Hout as (meta & Hrun & ->).
  apply dispatch_skeleton in Hrun. apply described_Forall2 in Hrun.
  destruct (pdf_analyze_from_lookup _ _ _ _ Han) as [Hlen Hl].
  assert (Hpages : Forall2
    (fun (p : PageData) (po : Z * list (PdfMeta Content * option Content)) =>
       po.1 = page_number p /\
       (fun e : PdfOut Content => (do_type e, do_bbox e, do_confidence e)) <$>
         (pdf_out <$> po.2) =
       (fun d : Detection => (class_name d, bbox d, conf d)) <$> detections p)
    pages meta).
  { assert (Hsk : Forall2 (fun (pm : Z * list (PdfMeta Content))
                     (po : Z * list (PdfMeta Content * option Content)) =>
                     pm = (po.1, fst <$> po.2)) (skeleton meta) meta).
    { unfold skeleton. apply Forall2_fmap_l, Forall_Forall2_diag, Forall_forall. auto. }
    eapply Forall2_chain; [|exact Hrun|exact Hsk].
    intros p pm po (ctx & He & ->) [= Hn Hel]. simpl in *.
    split; [now rewrite Hn|].
    unfold pdf_describe in Hel. rewrite omap_Some_fmap in Hel.
    rewrite <- !list_fmap_compose.
    transitivity ((fun m : PdfMeta Content => (dm_type m, dm_bbox m, dm_confidence m)) <$>
                    (fst <$> po.2)).
    - rewrite <- list_fmap_compose. reflexivity.
    - rewrite <- Hel, <- list_fmap_compose. reflexivity. }
  split.
  - rewrite <- (analyze_from_numbers _ _ _ _ Han).
    rewrite <- list_fmap_compose.
    clear -Hpages. induction Hpages as [|p po ps pos [Hn _] _ IH]; [reflexivity|].
    rewrite !fmap_cons. simpl. now rewrite Hn, IH.
  - apply Forall2_fmap_r. apply Forall2_same_length_lookup_2.
    { now apply Forall2_length in Hpages. }
    intros i p po Hp Hpo.
    destruct (Forall2_lookup_lr _ _ _ _ _ _ Hpages Hp Hpo) as [Hn Htr].
    destruct (Hl i p Hp) as [_ (boxes & _ & Hd)].
    destruct (removeDuplicates_kept _ _ _ Hd) as [_ Hsub].
    assert (Hsorted : sorted_desc (detections p)).
    { eapply sorted_desc_sublist; [eassumption|apply sort_desc_sorted]. }
    assert (Hnoab : Forall (fun d => class_name d <> "abandon") (detections p)).
    { apply Forall_forall. intros d Hin.
      assert (Hf : d ∈ List.filter (fun d => negb (String.eqb (class_name d) "abandon")) boxes).
      { rewrite <- (sort_desc_perm (List.filter _ boxes)).
        eapply elem_of_sublist; eassumption. }
      apply list_elem_of_In, filter_In in Hf as [_ Hc].
      intros Heq. rewrite Heq in Hc. discriminate. }
    simpl. split; [exact Hn|]. split; [exact Htr|]. split.
    + replace ((fun e : PdfOut Content => do_confidence e) <$> (pdf_out <$> po.2))
        with (conf <$> detections p).
      * eapply sorted_fmap; [|exact Hsorted]. auto.
      * pose proof (f_equal (fmap snd) Htr) as E.
        rewrite <- !list_fmap_compose in E. symmetry.
        rewrite <- list_fmap_compose. exact E.
    + assert (E : (fun e : PdfOut Content => do_type e) <$> (pdf_out <$> po.2) =
                  class_name <$> detections p).
      { pose proof (f_equal (fmap (fun t : string * Box * Q => t.1.1)) Htr) as E.
        rewrite <- !list_fmap_compose in E. rewrite <- list_fmap_compose. exact E. }
      apply Forall_forall. intros e He Hab.
      assert (Hin : do_type e ∈ class_name <$> detections p).
      { rewrite <- E. apply list_elem_of_fmap. eauto. }
      apply list_elem_of_fmap in Hin as (d & Hde & Hd').
      apply (proj1 (Forall_forall _ _) Hnoab d Hd'). congruence.
Qed.

End Pipeline.

Definition onePagePredictions : list (list Detection) :=
  [[detA; detB; mkDet "abandon" (mkBox 0 0 5 5) 0.99; detC]].

Lemma analysed_pdf_in_confidence_order_witness :
  exists pages out,
    analyze onePagePredictions 0.7 = Ok pages /\
    extractFromPdf sampleExtractor sampleDoc pages 250 [0]%nat = Some (Ok out) /\
    out.*1 = (fun i => (Z.of_nat i + 1)%Z) <$> seq 0 (length onePagePredictions) /\
    Forall2 (fun (p : PageData) (o : Z * list (PdfOut (list N))) =>
               o.1 = page_number p /\
               (fun e : PdfOut (list N) => (do_type e, do_bbox e, do_confidence e)) <$> o.2 =
               (fun d : Detection => (class_name d, bbox d, conf d)) <$> detections p /\
               StronglySorted (fun x y : Q => (y <= x)%Q)
                 ((fun e : PdfOut (list N) => do_confidence e) <$> o.2) /\
               Forall (fun e : PdfOut (list N) => do_type e <> "abandon") o.2)
      pages out.
Proof.
  eexists _, _. split; [reflexivity|]. split; [vm_compute; reflexivity|].
  eapply (analysed_pdf_in_confidence_order sampleExtractor sampleDoc onePagePredictions
            0.7 250 _ [0]%nat).
  - reflexivity.
  - vm_compute. reflexivity.
Defined.

End PdfPipeline.

(** ** The router (core/router.py) *)

Module RouterFacts.
Import PyStr Router StrFacts.

Lemma endswith_spec (suffix s : list N) :
  endswith suffix s = true <-> exists pre, s = pre ++ suffix.
Proof.
  unfold endswith. rewrite is_prefix_spec. split.
  - intros [r Hr]. exists (reverse r).
    rewrite <- (reverse_involutive s), Hr, reverse_app. now rewrite reverse_involutive.
  - intros [pre ->]. exists (reverse pre). apply reverse_app.
Qed.

Lemma after_last_dot_app (pre ext : list N) :
  contains [46%N] ext = false ->
  after_last_dot (pre ++ 46%N :: ext) = ext.
Proof.
  intros Hext. induction pre as [|c pre IH]; simpl.
  - now rewrite Hext.
  - assert (H : contains [46%N] (pre ++ 46%N :: ext) = true).
    { apply contains_char, elem_of_app. right. apply elem_of_cons. now left. }
    now rewrite H.
Qed.

Lemma endswith_ext (ext s : list N) :
  contains [46%N] ext = false ->
  endswith (46%N :: ext) s = true -> after_last_dot s = ext.
Proof.
  intros Hext H. apply endswith_spec in H as [pre ->]. now apply after_last_dot_app.
Qed.

Lemma endswith_last (suffix s : list N) (c : N) :
  endswith (suffix ++ [c]) s = true -> last s = Some c.
Proof.
  intros H. apply endswith_spec in H as [pre ->].
  now rewrite app_assoc, last_snoc.
Qed.

Section Facts.
Context {Analyzed Extracted : Type}.
Implicit Types (parts : Parts Analyzed Extracted).

(** The router with another PPTX extraction. *)
Definition with_extractFromPptx parts
    (f : list N -> Analyzed -> result Extracted) : Parts Analyzed Extracted :=
  mkParts (lower parts) (analyze_pdf parts) (convert_stem parts) f
    (extractFromPdf parts) (assign_ids parts).

(** X29. A PDF whose extension is not written in lower case ('PDF',
    'Pdf', ...) is accepted by [process], analysed, and only then
    rejected: when the text after the last dot is neither 'pdf' nor
    'pptx' but lower-cases to 'pdf', [process] runs the analysis and, if
    that returns, raises the [ValueError] "Unsupported file type" of
    [ContentExtractor.extract]; nothing is extracted. *)
Theorem mixed_case_pdf_is_analysed_then_rejected
    parts (filePath : list N) (maxPages : option Z) :
  lower parts (after_last_dot filePath) = lit "pdf" ->
  after_last_dot filePath <> lit "pdf" ->
  after_last_dot filePath <> lit "pptx" ->
  process parts filePath maxPages =
  match analyze_pdf parts filePath maxPages with
  | Ok _ => Failed (UnsupportedFileType filePath)
  | Raise e => Failed (Raised e)
  end.
Proof.
  intros Hlow Hpdf Hpptx. unfold process. rewrite Hlow. simpl.
  unfold run_pdf, extract.
  destruct (endswith (lit ".pptx") filePath) eqn:E1.
  { apply (endswith_ext (lit "pptx")) in E1; [contradiction|reflexivity]. }
  destruct (endswith (lit ".pdf") filePath) eqn:E2.
  { apply (endswith_ext (lit "pdf")) in E2; [contradiction|reflexivity]. }
  now destruct (analyze_pdf parts filePath maxPages).
Qed.

(** X30. [process] never runs the PPTX extraction: a presentation is
    converted and then analysed and extracted as a PDF, every failure on
    the way being reported as a failed conversion.  So the outcome of
    [process] does not depend on [extractFromPptx], for any path
    (provided that lower-casing 'pptx' does not give 'pdf'). *)
Theorem process_never_extracts_pptx
    parts (f : list N -> Analyzed -> result Extracted)
    (filePath : list N) (maxPages : option Z) :
  lower parts (lit "pptx") <> lit "pdf" ->
  process (with_extractFromPptx parts f) filePath maxPages =
    process parts filePath maxPages /\
  (lower parts (after_last_dot filePath) = lit "pptx" ->
   process parts filePath maxPages =
   match convert_stem parts filePath with
   | Raise e => Failed (ConversionFailed (Raised e))
   | Ok base =>
       match analyze_pdf parts (base ++ lit ".pdf") maxPages with
       | Raise e => Failed (ConversionFailed (Raised e))
       | Ok analyzed =>
           match extractFromPdf parts (base ++ lit ".pdf") analyzed with
           | Ok extracted => Done (assign_ids parts extracted)
           | Raise e => Failed (ConversionFailed (Raised e))
           end
       end
   end).
Proof.
  intros Hlower.
  assert (Hconv : forall (p : Parts Analyzed Extracted) (base : list N),
    run_pdf p (base ++ lit ".pdf") maxPages =
    match analyze_pdf p (base ++ lit ".pdf") maxPages return outcome Extracted with
    | Raise e => Failed (Raised e)
    | Ok analyzed =>
        match extractFromPdf p (base ++ lit ".pdf") analyzed with
        | Ok extracted => Done (assign_ids p extracted)
        | Raise e => Failed (Raised e)
        end
    end).
  { intros p base. unfold run_pdf, extract.
    destruct (endswith (lit ".pptx") (base ++ lit ".pdf")) eqn:E1.
    { apply (endswith_last (lit ".ppt") _ 120%N) in E1.
      change (lit ".pdf") with (lit ".pd" ++ [102%N]) in E1.
      rewrite app_assoc, last_snoc in E1. discriminate. }
    assert (E2 : endswith (lit ".pdf") (base ++ lit ".pdf") = true)
      by (apply endswith_spec; eauto).
    rewrite E2. destruct (analyze_pdf p _ maxPages) as [a|e]; [|reflexivity].
    now destruct (extractFromPdf p _ a). }
  split.
  - unfold process. simpl lower.
    set (ext := lit "." ++ lower parts (after_last_dot filePath)).
    destruct (negb (bool_decide (ext ∈ [lit ".pptx"; lit ".pdf"])) &&
              negb (bool_decide (ext = lit ".pptx"))) eqn:Eno; [reflexivity|].
    destruct (bool_decide (ext = lit ".pptx")) eqn:Epptx.
    + unfold convert. simpl convert_stem.
      destruct (convert_stem parts filePath) as [base|e]; [|reflexivity]. simpl.
      now rewrite !Hconv.
    + apply bool_decide_eq_false in Epptx.
      rewrite andb_true_r in Eno. apply negb_false_iff, bool_decide_eq_true in Eno.
      apply elem_of_cons in Eno as [Eno|Eno]; [contradiction|].
      apply list_elem_of_singleton in Eno.
      unfold ext in Eno. injection Eno as Eno.
      unfold run_pdf, extract. simpl analyze_pdf. simpl extractFromPdf.
      destruct (endswith (lit ".pptx") filePath) eqn:E1; [|reflexivity].
      apply (endswith_ext (lit "pptx")) in E1; [|reflexivity].
      rewrite E1 in Eno. contradiction.
  - intros Hlow. unfold process. rewrite Hlow. simpl. unfold convert.
    destruct (convert_stem parts filePath) as [base|e]; [|reflexivity]. simpl.
    rewrite Hconv.
    destruct (analyze_pdf parts _ maxPages) as [a|e]; [|reflexivity].
    now destruct (extractFromPdf parts _ a).
Qed.

End Facts.

(** A router whose collaborators report what they were asked to do. *)
Definition ascii_lower (s : list N) : list N :=
  (fun c => if (65 <=? c) && (c <=? 90) then c + 32 else c)%N <$> s.

Definition sampleParts : Parts (list N) (list N) :=
  mkParts ascii_lower
    (fun path _ => Ok (lit "analysed " ++ path))
    (fun path => Ok (lit "/tmp/deck"))
    (fun path analyzed => Ok (lit "pptx extraction of " ++ analyzed))
    (fun path analyzed => Ok (lit "pdf extraction of " ++ analyzed))
    (fun extracted => extracted ++ lit " with ids").

Lemma mixed_case_pdf_is_analysed_then_rejected_witness :
  process sampleParts (lit "Lecture.PDF") None =
  Failed (UnsupportedFileType (lit "Lecture.PDF")).
Proof.
  apply (mixed_case_pdf_is_analysed_then_rejected sampleParts (lit "Lecture.PDF") None).
  - reflexivity.
  - discriminate.
  - discriminate.
Defined.

Lemma process_never_extracts_pptx_witness :
  process (with_extractFromPptx sampleParts (fun _ _ => Raise TypeError))
    (lit "Deck.PPTX") None =
  process sampleParts (lit "Deck.PPTX") None /\
  process sampleParts (lit "Deck.PPTX") None =
  Done (lit "pdf extraction of analysed /tmp/deck.pdf with ids").
Proof.
  destruct (process_never_extracts_pptx sampleParts (fun _ _ => Raise TypeError)
              (lit "Deck.PPTX") None) as [H1 H2].
  - discriminate.
  - split; [exact H1|]. rewrite H2; reflexivity.
Defined.

End RouterFacts.

